(** * Hackathon scoring: the score ledger and the normalization engine

    A shallow embedding of [app.py]: the CSV-backed score ledger
    ([init_scores_file], [save_scores], [get_all_scores]) and the ranking
    computation ([normalize_scores]).

    - The file [scores.csv] is the state: [None] while the file does not
      exist, [Some rows] once it does, a row being the list of its cells as
      [csv.reader] gives them back (cells are text; [csv.writer] writes an
      integer as its decimal text).
    - Numbers are IEEE 754 binary64 values, the [float64] of numpy and
      pandas, through Rocq's primitive floats (a column pandas keeps as
      [int64] is read as binary64 too, which agrees below 2^53).
    - [pd.to_numeric] is a parameter of the engine ([NaN] for a text that is
      no number); [Series.mean], [Series.std], [Series.clip] and
      [Series.round] are written out as pandas computes them through numpy
      (no bottleneck): the sum of a series is numpy's pairwise summation,
      NaN values counting as 0.
    - The file lock only serialises callers; operations are modelled as run
      one after another, the lock being acquired.
    - The views ([login], [logout], [dashboard], [score_team], [results] and
      [api_normalized]) run on the session, the flashed messages and the
      ledger; [int] and [str.strip] are parameters of the views. The
      spreadsheet export and the JSON dump of the raw records are not
      modelled. *)

From Stdlib Require Import ZArith List String Floats DecimalString Lia Bool.
From Stdlib Require Import Sorting.Sorted Sorting.Permutation.
From stdpp Require Import base option list gmap strings.

Set Warnings "-inexact-float".
Open Scope string_scope.
Open Scope list_scope.

(** ** Configuration *)

(** One entry of [config['criteria']]. *)
Record criterion := {
  crit_id : string;
  crit_name : string;
  crit_max_score : Z
}.

(** ** The store and the monad of operations on it *)

Definition row := list string.

(** [scores.csv]: [None] when [os.path.exists(SCORES_FILE)] is false. *)
Definition store := option (list row).

Inductive exn :=
| KeyError (missing : list string)
| IndexError
| FileNotFoundError.

Inductive result (A : Type) :=
| Ok (a : A)
| Raise (e : exn).
Arguments Ok {A} a.
Arguments Raise {A} e.

Definition result_bind {A B} (r : result A) (k : A -> result B) : result B :=
  match r with
  | Ok a => k a
  | Raise e => Raise e
  end.

(** An operation reads and writes the store and returns or raises. *)
Definition M (A : Type) := store -> result A * store.

Definition ret {A} (a : A) : M A := fun st => (Ok a, st).

Definition bind {A B} (c : M A) (k : A -> M B) : M B :=
  fun st =>
    match c st with
    | (Ok a, st') => k a st'
    | (Raise e, st') => (Raise e, st')
    end.

Definition lift {A} (r : result A) : M A := fun st => (r, st).

Notation "x <- c ;; k" := (bind c (fun x => k))
  (at level 100, c at next level, right associativity).

(** [os.path.exists(SCORES_FILE)] *)
Definition path_exists : M bool :=
  fun st => (Ok (bool_decide (is_Some st)), st).

(** [list(csv.reader(f))] on the file opened for reading *)
Definition read_rows : M (list row) :=
  fun st =>
    match st with
    | Some rows => (Ok rows, st)
    | None => (Raise FileNotFoundError, st)
    end.

(** [csv.writer(f).writerows(rows)] on the file opened with mode ['w'] *)
Definition write_rows (rows : list row) : M unit :=
  fun _ => (Ok tt, Some rows).

(** ** The ledger *)

(** [str(n)] for a Python integer *)
Definition str (n : Z) : string := NilZero.string_of_int (Z.to_int n).

Definition fixed_columns : list string :=
  ["timestamp"; "judge"; "team_id"; "team_name"].

(** [['timestamp', 'judge', 'team_id', 'team_name'] + [c['id'] for c in criteria]] *)
Definition headers (criteria : list criterion) : row :=
  fixed_columns ++ map crit_id criteria.

Definition init_scores_file (criteria : list criterion) : M unit :=
  ex <- path_exists ;;
  if negb ex then write_rows [headers criteria] else ret tt.

(** [len(row) >= 3 and row[1] == judge and row[2] == team_id] *)
Definition row_matches (judge team_id : string) (r : row) : bool :=
  match r with
  | _ :: j :: t :: _ => bool_decide (j = judge) && bool_decide (t = team_id)
  | _ => false
  end.

(** [[timestamp, judge, team_id, team_name] + [scores.get(c['id'], 0) for c in criteria]],
    as the writer puts it in the file *)
Definition new_row (criteria : list criterion) (timestamp judge team_id team_name : string)
    (scores : gmap string Z) : row :=
  [timestamp; judge; team_id; team_name]
    ++ map (fun c => str (default 0%Z (scores !! crit_id c))) criteria.

(** The loop over [enumerate(existing_rows[1:], start=1)] and the append
    that follows it: the first matching row after the header is overwritten
    at its index, and with no match the new row goes to the end. *)
Definition upsert_rows (judge team_id : string) (new : row) (existing_rows : list row)
    : list row :=
  match list_find (fun r => Is_true (row_matches judge team_id r)) (drop 1 existing_rows) with
  | Some (i, _) => <[S i := new]> existing_rows
  | None => existing_rows ++ [new]
  end.

(** [save_scores(judge, team_id, team_name, scores)]; [criteria] is what
    [get_criteria()] reads during the call and [now] is
    [datetime.now().isoformat()]. *)
Definition save_scores (criteria : list criterion) (now : string)
    (judge team_id team_name : string) (scores : gmap string Z) : M unit :=
  ex <- path_exists ;;
  existing_rows <- (if ex then read_rows else ret []) ;;
  let existing_rows :=
    match existing_rows with
    | [] => [headers criteria]
    | _ => existing_rows
    end in
  write_rows
    (upsert_rows judge team_id
       (new_row criteria now judge team_id team_name scores) existing_rows).

(** ** Reading records: [csv.DictReader] *)

(** A value held in a record or a data frame cell: Python's [None], a text,
    the list of surplus cells [DictReader] files under the key [None], or a
    number. *)
Inductive value :=
| VNone
| VStr (s : string)
| VList (l : list string)
| VNum (x : float).

(** A record is a dictionary; the key [None] is [DictReader]'s [restkey]. *)
Abbreviation dict := (gmap (option string) value).

(** One [DictReader.__next__]: [dict(zip(fieldnames, row))], surplus cells
    under [restkey], missing ones set to [restval]. *)
Definition dict_of_row (fieldnames : list string) (r : row) : dict :=
  let d := foldl (fun d kv => <[Some (fst kv) := VStr (snd kv)]> d) ∅ (zip fieldnames r) in
  let lf := length fieldnames in
  let lr := length r in
  if (lf <? lr)%nat then <[None := VList (drop lf r)]> d
  else foldl (fun d k => <[Some k := VNone]> d) d (drop lr fieldnames).

(** [list(csv.DictReader(f))]: the first row names the fields and blank rows
    are skipped. *)
Definition DictReader (rows : list row) : list dict :=
  match rows with
  | [] => []
  | fieldnames :: data =>
      map (dict_of_row fieldnames) (filter (fun r => r <> []) data)
  end.

Definition get_all_scores : M (list dict) :=
  ex <- path_exists ;;
  if negb ex then ret []
  else rows <- read_rows ;; ret (DictReader rows).

(** ** Numbers: binary64 *)

Open Scope float_scope.

(** The binary64 value nearest to an integer. *)
Definition Z2F (z : Z) : float := SF2Prim (binary_normalize prec emax z 0 false).

(** [float(len(...))] *)
Definition of_nat (n : nat) : float := Z2F (Z.of_nat n).

(** The sum of the cells of one row, [sum(axis=1)]: the cells are added
    column by column. *)
Definition fsum (l : list float) : float := fold_left PrimFloat.add l 0.

(** The values pandas' reductions count under the default [skipna=True]. *)
Definition dropna (l : list float) : list float :=
  filter (fun x => is_nan x = false) l.

(** What the reductions add up: a NaN is put to 0 where it stands. *)
Definition fillna0 (l : list float) : list float :=
  map (fun x => if is_nan x then 0 else x) l.

(** numpy's loop over eight accumulators: each of the next [k] groups of
    eight values is added to [r], place by place. *)
Fixpoint add_lanes (k : nat) (r l : list float) : list float :=
  match k with
  | O => r
  | S k' => add_lanes k' (zip_with PrimFloat.add r (take 8 l)) (drop 8 l)
  end.

(** numpy's [pairwise_sum] on a block of 8 to 128 values: eight
    accumulators run over the groups of eight, are added up as a tree, and
    the values left over are added one by one. *)
Definition sum_block (a : list float) : float :=
  let n := length a in
  match add_lanes (n / 8 - 1)%nat (take 8 a) (drop 8 a) with
  | [r0; r1; r2; r3; r4; r5; r6; r7] =>
      fold_left PrimFloat.add (drop (n - n mod 8)%nat a)
        (((r0 + r1) + (r2 + r3)) + ((r4 + r5) + (r6 + r7)))
  | _ => nan
  end.

(** numpy's [pairwise_sum]: fewer than 8 values are added one by one
    starting from -0.0, up to 128 values go through [sum_block], and a
    longer array is cut at [n / 2] rounded down to a multiple of 8, the two
    parts being summed apart. Every cut more than halves what [fuel]
    has to cover; [pairwise_sum] gives enough. *)
Fixpoint pairwise_sum_rec (fuel : nat) (a : list float) : float :=
  let n := length a in
  if (n <? 8)%nat then fold_left PrimFloat.add a neg_zero
  else if (n <=? 128)%nat then sum_block a
  else
    match fuel with
    | O => sum_block a
    | S fuel' =>
        let n2 := (n / 2 - (n / 2) mod 8)%nat in
        pairwise_sum_rec fuel' (take n2 a) + pairwise_sum_rec fuel' (drop n2 a)
    end.

Definition pairwise_sum (a : list float) : float := pairwise_sum_rec (length a) a.

(** [values.sum()], numpy's [add.reduce] on a float64 array: 0.0 when
    there is no value, else the pairwise sum added to the initial -0.0. *)
Definition np_sum (a : list float) : float :=
  match a with
  | [] => 0
  | _ => neg_zero + pairwise_sum a
  end.

(** [Series.mean()] (pandas' [nanmean]): the sum of the values, a NaN
    counting as 0, over the count of the values that are no NaN. *)
Definition mean (l : list float) : float :=
  np_sum (fillna0 l) / of_nat (length (dropna l)).

(** [Series.std()] (pandas' [nanvar] with the default [ddof=1], then
    [sqrt]): NaN when at most one value is no NaN; else, with [avg] the
    mean, the square root of the sum of [(avg - x) ** 2] over the values
    that are no NaN, divided by their count less one. *)
Definition std (l : list float) : float :=
  let count := length (dropna l) in
  if (count <=? 1)%nat then nan
  else
    let avg := np_sum (fillna0 l) / of_nat count in
    let sqr := map (fun x => if is_nan x then 0 else (avg - x) * (avg - x)) l in
    sqrt (np_sum sqr / of_nat (count - 1)).

(** [Series.clip(lower, upper)]: a NaN stays, a value below [lower] becomes
    [lower], a value above [upper] becomes [upper]. *)
Definition clip (x lower upper : float) : float :=
  if is_nan x then x
  else
    let x := if lower <=? x then x else lower in
    if x <=? upper then x else upper.

(** The integer nearest to [m / 2^k], ties going to the even one. *)
Definition round_half_even (m : Z) (k : Z) : Z :=
  let q := Z.shiftr m k in
  let r := (m - Z.shiftl q k)%Z in
  let half := Z.shiftl 1 (k - 1) in
  match (r ?= half)%Z with
  | Lt => q
  | Gt => (q + 1)%Z
  | Eq => if Z.even q then q else (q + 1)%Z
  end.

(** [np.rint]: the nearest integer, ties to even, as a float of the same
    sign; infinities, NaN and zeros are returned as they are. *)
Definition rint (x : float) : float :=
  match Prim2SF x with
  | S754_finite s m e =>
      let n := if (0 <=? e)%Z then Z.shiftl (Z.pos m) e
               else round_half_even (Z.pos m) (- e) in
      SF2Prim (binary_normalize prec emax (if s then (- n)%Z else n) 0 s)
  | _ => x
  end.

(** [Series.round(2)] and [round(x, 2)] on a numpy float: numpy's
    [rint(x * 100) / 100]. *)
Definition round2 (x : float) : float := rint (x * 100) / 100.

(** ** The normalization engine *)

(** A row of the data frame once [total_raw] is set. *)
Record scored_row := {
  cells : dict;
  total_raw : float
}.

(** A row of [result_df]: the judge loop has set [z_score]. *)
Record z_row := {
  scored : scored_row;
  z_score : float
}.

(** A row of [result_df] once [normalized_score] is set. *)
Record normalized_row := {
  zrow : z_row;
  normalized_score : float
}.

(** One entry of [judge_scores]. *)
Record judge_score := {
  js_judge : value;
  js_raw_score : float;
  js_normalized_score : float
}.

(** One entry of [team_results]. *)
Record team_result := {
  team_id : value;
  team_name : value;
  avg_raw_score : float;
  avg_normalized_score : float;
  num_judges : nat;
  judge_scores : list judge_score
}.

(** The cell of column [k] in a row of the frame; a key the record lacks
    reads as missing. *)
Definition cell (r : dict) (k : string) : value := default VNone (r !! Some k).

(** [k in df.columns]: the columns of [pd.DataFrame(all_scores)] are the
    keys of its records. *)
Definition has_column (df : list dict) (k : string) : bool :=
  existsb (fun r => bool_decide (is_Some (r !! Some k))) df.

(** [df[k]] for a column label. *)
Definition column (df : list dict) (k : string) : result (list value) :=
  if has_column df k then Ok (map (fun r => cell r k) df) else Raise (KeyError [k]).

(** [a == b] between two cells, as the mask [df[col] == x] takes it: a
    missing value equals nothing. *)
Definition py_eq (a b : value) : bool :=
  match a, b with
  | VStr s, VStr t => bool_decide (s = t)
  | VNum x, VNum y => x =? y
  | _, _ => false
  end.

(** Two cells that [Series.unique()] takes for the same value. *)
Definition same_key (a b : value) : bool :=
  match a, b with
  | VNone, VNone => true
  | VNum x, VNum y => (x =? y) || (is_nan x && is_nan y)
  | _, _ => py_eq a b
  end.

Fixpoint unique_from (seen : list value) (l : list value) : list value :=
  match l with
  | [] => []
  | v :: l' =>
      if existsb (same_key v) seen then unique_from seen l'
      else v :: unique_from (v :: seen) l'
  end.

(** [Series.unique()]: the distinct values in order of first appearance. *)
Definition unique (l : list value) : list value := unique_from [] l.

(** [normalized = ((z + 3) / 6 * 100).clip(0, 100).round(2)] *)
Definition normalize_z (z : float) : float :=
  round2 (clip ((z + 3) / 6 * 100) 0 100).

(** The body of the loop over judges, on [judge_df]. *)
Definition judge_z_scores (judge_df : list scored_row) : list z_row :=
  if (1 <? length judge_df)%nat then
    let mean_score := mean (map total_raw judge_df) in
    let std_score := std (map total_raw judge_df) in
    if 0 <? std_score then
      map (fun r => {| scored := r; z_score := (total_raw r - mean_score) / std_score |})
        judge_df
    else map (fun r => {| scored := r; z_score := 0 |}) judge_df
  else map (fun r => {| scored := r; z_score := 0 |}) judge_df.

(** [team_results.sort(key=..., reverse=True)]: Python's sort is stable and
    compares keys with [<] only; with [reverse=True] equal keys keep their
    order. Where the keys are comparable (no NaN) that fixes the result,
    which is what this insertion sort computes: [insert_desc] puts an element
    before the first one whose key is not larger. *)
Fixpoint insert_desc (x : team_result) (l : list team_result) : list team_result :=
  match l with
  | [] => [x]
  | y :: l' =>
      if avg_normalized_score x <? avg_normalized_score y
      then y :: insert_desc x l'
      else x :: y :: l'
  end.

Definition sort_desc (l : list team_result) : list team_result :=
  foldr insert_desc [] l.

Fixpoint result_mapM {A B} (f : A -> result B) (l : list A) : result (list B) :=
  match l with
  | [] => Ok []
  | a :: l' =>
      result_bind (f a) (fun b =>
      result_bind (result_mapM f l') (fun bs => Ok (b :: bs)))
  end.

Section Engine.

(** [pd.to_numeric] on one text cell; NaN when the text is no number. *)
Variable to_numeric : string -> float.

(** [pd.to_numeric(cell, errors='coerce')] followed by [fillna(0)]. *)
Definition coerce (v : value) : float :=
  let x :=
    match v with
    | VStr s => to_numeric s
    | VNum x => x
    | VNone | VList _ => nan
    end in
  if is_nan x then 0 else x.

(** [if cid in df.columns: df[cid] = pd.to_numeric(df[cid], errors='coerce').fillna(0)] *)
Definition convert_column (df : list dict) (cid : string) : list dict :=
  if has_column df cid
  then map (fun r => <[Some cid := VNum (coerce (cell r cid))]> r) df
  else df.

(** What the conversion loop does to one record when every criterion id
    is a column. *)
Definition convert_row (criteria_ids : list string) (r : dict) : dict :=
  fold_left (fun r cid => <[Some cid := VNum (coerce (cell r cid))]> r)
    criteria_ids r.

(** The number in a converted cell. *)
Definition number (v : value) : float :=
  match v with
  | VNum x => x
  | _ => 0
  end.

(** [df['total_raw'] = df[criteria_ids].sum(axis=1)]: selecting a label that
    is no column raises [KeyError]. The cells of a row are added as
    binary64 values; where pandas holds every criterion column as [int64]
    it adds 64-bit integers, and the two agree while the totals stay below
    2^53. *)
Definition add_total_raw (criteria_ids : list string) (df : list dict)
    : result (list scored_row) :=
  match filter (fun cid => has_column df cid = false) criteria_ids with
  | [] =>
      Ok (map (fun r =>
                 {| cells := r;
                    total_raw := fsum (map (fun cid => number (cell r cid)) criteria_ids) |})
              df)
  | missing => Raise (KeyError missing)
  end.

(** The frames the loop over [df['judge'].unique()] appends to
    [normalized_data], one per judge. *)
Definition judge_frames (df : list scored_row) : result (list (list z_row)) :=
  result_bind (column (map cells df) "judge") (fun judges =>
  Ok (map (fun judge =>
             judge_z_scores
               (filter (fun r => Is_true (py_eq (cell (cells r) "judge") judge)) df))
          (unique judges))).

Definition add_normalized (result_df : list z_row) : list normalized_row :=
  map (fun r => {| zrow := r; normalized_score := normalize_z (z_score r) |}) result_df.

Definition row_cells (r : normalized_row) : dict := cells (scored (zrow r)).

(** The body of the loop over teams; [df] is the frame whose columns
    [result_df] has. *)
Definition team_aggregate (df : list dict) (result_df : list normalized_row) (tid : value)
    : result team_result :=
  let team_data :=
    filter (fun r => Is_true (py_eq (cell (row_cells r) "team_id") tid)) result_df in
  result_bind (column df "team_name") (fun _ =>
  match team_data with
  | [] => Raise IndexError
  | first :: _ =>
      let avg_raw := mean (map (fun r => total_raw (scored (zrow r))) team_data) in
      let avg_normalized := mean (map normalized_score team_data) in
      Ok {| team_id := tid;
            team_name := cell (row_cells first) "team_name";
            avg_raw_score := round2 avg_raw;
            avg_normalized_score := round2 avg_normalized;
            num_judges := length team_data;
            judge_scores :=
              map (fun r => {| js_judge := cell (row_cells r) "judge";
                               js_raw_score := total_raw (scored (zrow r));
                               js_normalized_score := normalized_score r |})
                  team_data |}
  end).

(** The list [team_results] before it is sorted. *)
Definition team_results (df : list dict) (result_df : list normalized_row)
    : result (list team_result) :=
  result_bind (column df "team_id") (fun _ =>
  result_mapM (team_aggregate df result_df)
    (unique (map (fun r => cell (row_cells r) "team_id") result_df))).

(** [normalize_scores] from [df = pd.DataFrame(all_scores)] on. *)
Definition compute (criteria_ids : list string) (all_scores : list dict)
    : result (list team_result) :=
  if forallb (fun r : dict => bool_decide (r = ∅)) all_scores then Ok []
  else
    let df := fold_left convert_column criteria_ids all_scores in
    result_bind (add_total_raw criteria_ids df) (fun scored_df =>
    result_bind (judge_frames scored_df) (fun normalized_data =>
    match normalized_data with
    | [] => Ok []
    | _ =>
        let result_df := add_normalized (concat normalized_data) in
        result_bind (team_results df result_df) (fun l => Ok (sort_desc l))
    end)).

(** The list [compute] holds just before the final sort, in grouping order
    (empty where [compute] returns early). *)
Definition grouped (criteria_ids : list string) (all_scores : list dict)
    : result (list team_result) :=
  if forallb (fun r : dict => bool_decide (r = ∅)) all_scores then Ok []
  else
    let df := fold_left convert_column criteria_ids all_scores in
    result_bind (add_total_raw criteria_ids df) (fun scored_df =>
    result_bind (judge_frames scored_df) (fun normalized_data =>
    match normalized_data with
    | [] => Ok []
    | _ => team_results df (add_normalized (concat normalized_data))
    end)).

Definition normalize_scores (criteria : list criterion) : M (list team_result) :=
  all_scores <- get_all_scores ;;
  match all_scores with
  | [] => ret []
  | _ => lift (compute (map crit_id criteria) all_scores)
  end.

End Engine.

(** ** A reader for the texts [save_scores] writes *)

(** [pd.to_numeric] on the decimal text of an integer, the only score texts
    [save_scores] writes; every other text is taken as no number here. *)
Definition to_numeric_int (s : string) : float :=
  match NilZero.int_of_string s with
  | Some d => Z2F (Z.of_int d)
  | None => nan
  end.

(** ** Sequences of submissions *)

(** The arguments of one [save_scores] call, with the criteria and the clock
    it reads. *)
Record submission := {
  sub_criteria : list criterion;
  sub_now : string;
  sub_judge : string;
  sub_team_id : string;
  sub_team_name : string;
  sub_scores : gmap string Z
}.

Definition submit (s : submission) : M unit :=
  save_scores (sub_criteria s) (sub_now s) (sub_judge s) (sub_team_id s)
    (sub_team_name s) (sub_scores s).

Definition submitted_row (s : submission) : row :=
  new_row (sub_criteria s) (sub_now s) (sub_judge s) (sub_team_id s)
    (sub_team_name s) (sub_scores s).

Definition run_submissions (subs : list submission) (st : store) : store :=
  fold_left (fun st s => snd (submit s st)) subs st.

(** A ledger nobody has written a record to: no file, a file with no row,
    or the file [init_scores_file] creates. *)
Variant fresh :=
| Absent
| Blank
| Initialised (criteria : list criterion).

Definition fresh_store (f : fresh) : store :=
  match f with
  | Absent => None
  | Blank => Some []
  | Initialised criteria => snd (init_scores_file criteria None)
  end.

(** The records of the ledger: the rows after the header. *)
Definition data_rows (st : store) : list row :=
  match st with
  | Some rows => drop 1 rows
  | None => []
  end.

(** How many records the ledger holds for a (judge, team) pair. *)
Definition key_count (judge team_id : string) (rows : list row) : nat :=
  length (filter (fun r => Is_true (row_matches judge team_id r)) rows).

(** The rows [save_scores] works on once the header is in place. *)
Definition with_header (criteria : list criterion) (st : store) : list row :=
  match st with
  | Some (header :: data) => header :: data
  | _ => [headers criteria]
  end.

(** At most one record per pair. *)
Definition one_per_pair (st : store) : Prop :=
  forall j t, (key_count j t (data_rows st) <= 1)%nat.

(** ** An order-preserving reading of binary64 values

    The three components rank a value that is no NaN: the class (negative
    infinity, negative, zero, positive, positive infinity), then the exponent
    and the mantissa, both negated for a negative value. Comparing ranks
    lexicographically is comparing values. *)

Definition rk1 (x : spec_float) : Z :=
  match x with
  | S754_zero _ => 0
  | S754_infinity s => if s then -2 else 2
  | S754_nan => 0
  | S754_finite s _ _ => if s then -1 else 1
  end.

Definition rk2 (x : spec_float) : Z :=
  match x with
  | S754_finite s _ e => if s then - e else e
  | _ => 0
  end.

Definition rk3 (x : spec_float) : Z :=
  match x with
  | S754_finite s m _ => if s then Z.neg m else Z.pos m
  | _ => 0
  end.

Definition lexlt (x y : spec_float) : Prop :=
  (rk1 x < rk1 y \/ (rk1 x = rk1 y /\ (rk2 x < rk2 y \/ (rk2 x = rk2 y /\ rk3 x < rk3 y))))%Z.

Definition lexeq (x y : spec_float) : Prop :=
  (rk1 x = rk1 y /\ rk2 x = rk2 y /\ rk3 x = rk3 y)%Z.

(** Reads a comparison of two values off their ranks; [rank_lemma] relates
    [SFcompare] to the ranks. *)
Ltac by_rank rank_lemma :=
  match goal with
  | |- context [SFcompare ?u ?v] =>
      destruct u as [?|?| |? ? ?] eqn:?;
        try (simpl; split; [discriminate | tauto]);
      destruct v as [?|?| |? ? ?] eqn:?;
        try (simpl; split; [discriminate | tauto])
  end;
  match goal with
  | |- context [SFcompare ?u ?v] =>
      let Hr := fresh "Hr" in
      pose proof (rank_lemma u v ltac:(discriminate) ltac:(discriminate)) as Hr;
      destruct (SFcompare u v) as [[| |]|]; try contradiction;
      (split;
       [ let E := fresh in
         intros E; try discriminate E; repeat split; try discriminate;
         unfold lexlt, lexeq in *; lia
       | intros (_ & _ & ?); try reflexivity; exfalso;
         unfold lexlt, lexeq in *; lia ])
  end.

(** The sort key of [team_results.sort]. *)
Definition key (t : team_result) : float := avg_normalized_score t.

(** No element is directly followed by one with a larger key. *)
Definition not_below (a b : team_result) : Prop := (key a <? key b) = false.

(** [b]'s key is at most [a]'s. *)
Definition at_least (a b : team_result) : Prop := (key b <=? key a) = true.

(** ** Reading the rounding of binary64 operations

    [shifted mx j mrs]: [mrs] is the state of the right shift of the
    mantissa [mx] by [j] bits, as [shr_1] builds it: the quotient, and both
    remainder flags clear when the shift lost nothing. *)
Definition shifted (mx j : Z) (mrs : shr_record) : Prop :=
  (shr_m mrs = mx / 2 ^ j /\
   (mx mod 2 ^ j = 0 -> shr_r mrs = false /\ shr_s mrs = false))%Z.

(** The [k]-th hundredth, as [round2] produces it, lies between 0 and 100. *)
Definition hundredth_in_range (k : nat) : bool :=
  (0 <=? Z2F (Z.of_nat k) / 100) && (Z2F (Z.of_nat k) / 100 <=? 100).

(** [k] is the integer nearest to the number a binary64 value stands for
    (the mantissa, negated under the sign, times 2 to the exponent), and
    the even one of the two when the number lies halfway between them. *)
Definition nearest_integer (k : Z) (x : spec_float) : Prop :=
  match x with
  | S754_zero _ => k = 0%Z
  | S754_finite s m e =>
      let v := if s then Z.neg m else Z.pos m in
      if (0 <=? e)%Z then k = (v * 2 ^ e)%Z
      else
        (2 * Z.abs (k * 2 ^ (- e) - v) < 2 ^ (- e))%Z \/
        ((2 * Z.abs (k * 2 ^ (- e) - v) = 2 ^ (- e))%Z /\ Z.even k = true)
  | _ => False
  end.

(** ** Looking records up *)

(** [get_judge_scores(judge)]: the records [s] with [s.get('judge') == judge]. *)
Definition get_judge_scores (judge : string) : M (list dict) :=
  all_scores <- get_all_scores ;;
  ret (filter (fun s => Is_true (py_eq (cell s "judge") (VStr judge))) all_scores).

(** [get_team_score_by_judge(judge, team_id)]: the first of the judge's
    records with [score.get('team_id') == team_id], or [None]. *)
Definition get_team_score_by_judge (judge team_id : string) : M (option dict) :=
  judge_scores <- get_judge_scores judge ;;
  ret (head (filter (fun s => Is_true (py_eq (cell s "team_id") (VStr team_id)))
               judge_scores)).

(** ** Well-formed ledgers

    What the ledger lemmas assume or preserve: criterion ids that do not
    shadow a fixed column, a header that belongs to the criteria in force,
    rows with one cell per column. *)

(** No criterion id is the name of a fixed column. *)
Definition ids_ok (ids : list string) : Prop :=
  Forall (fun k => k ∉ ids) fixed_columns.

(** The header, when the store has one, is the fixed columns followed by
    criterion ids that are no fixed column names. *)
Definition header_ok (st : store) : Prop :=
  match st with
  | Some (header :: _) => exists ids, header = fixed_columns ++ ids /\ ids_ok ids
  | _ => True
  end.

(** The record is one of [judge] for [team_id]. *)
Definition rec_matches (judge team_id : string) (d : dict) : bool :=
  py_eq (cell d "judge") (VStr judge) && py_eq (cell d "team_id") (VStr team_id).

(** The criteria a fresh ledger was initialised with are well-formed. *)
Definition fresh_ok (f : fresh) : Prop :=
  match f with
  | Initialised criteria => ids_ok (map crit_id criteria)
  | _ => True
  end.

(** The header, when the store has one, is the one of [criteria]. *)
Definition header_is (criteria : list criterion) (st : store) : Prop :=
  match st with
  | Some (header :: _) => header = headers criteria
  | _ => True
  end.

(** The header [save_scores] leaves in the store. *)
Definition header_after (criteria : list criterion) (st : store) : row :=
  match st with
  | Some (header :: _) => header
  | _ => headers criteria
  end.

(** The records of a judge among the decoded rows. *)
Definition judge_records (J : string) (header : row) (rows : list row) : list dict :=
  filter (fun d => Is_true (py_eq (cell d "judge") (VStr J)))
    (map (dict_of_row header) (filter (fun r : row => r <> []) rows)).

(** No two values of the list are the same key (as [Series.unique] and
    Python's [==] take them). *)
Inductive distinct_keys : list value -> Prop :=
| distinct_nil : distinct_keys []
| distinct_cons v l :
    Forall (fun w => same_key v w = false /\ same_key w v = false) l ->
    distinct_keys l -> distinct_keys (v :: l).

(** The store holds rows written for [criteria] only: its header is theirs
    and every record has one cell per column. *)
Definition uniform (criteria : list criterion) (st : store) : Prop :=
  match st with
  | Some (header :: data) =>
      header = headers criteria /\ Forall (fun r => length r = length header) data
  | _ => True
  end.

(** The fresh ledger was initialised, if at all, with [criteria]. *)
Definition fresh_with (criteria : list criterion) (f : fresh) : Prop :=
  match f with
  | Initialised c => c = criteria
  | _ => True
  end.

(** How many records the ledger holds for a team. *)
Definition team_count (team_id : string) (rows : list row) : nat :=
  length (filter (fun r => r !! 2%nat = Some team_id) rows).

(** How many records the ledger holds for a judge. *)
Definition judge_count (judge : string) (rows : list row) : nat :=
  length (filter (fun r => r !! 1%nat = Some judge) rows).

(** The cell [DictReader] makes of a row's entry. *)
Definition cell_of (entry : option string) : value :=
  match entry with
  | Some v => VStr v
  | None => VNone
  end.

(** ** The web layer

    The views of the Flask application over the session, the flashed
    messages and the ledger. A view is given the request; the
    configuration file is read as one value [cfg]. Templates are not
    rendered: a rendered page is the template with its context. *)

(** One entry of [config['judges']] or [config['admins']]. *)
Record account := {
  username : string;
  password : string
}.

(** One entry of [config['teams']]. *)
Record team := {
  tm_id : string;
  tm_name : string
}.

(** [config.json] as [load_config] reads it; [cfg_admins] is
    [config.get('admins', [])]. *)
Record config := {
  cfg_judges : list account;
  cfg_admins : list account;
  cfg_teams : list team;
  cfg_criteria : list criterion
}.

(** [{a['username']: a['password'] for a in accounts}]: a later entry
    replaces an earlier one of the same name. *)
Definition credentials (accounts : list account) : gmap string string :=
  foldl (fun m a => <[username a := password a]> m) ∅ accounts.

Definition get_judges (cfg : config) : gmap string string := credentials (cfg_judges cfg).

Definition get_admins (cfg : config) : gmap string string := credentials (cfg_admins cfg).

Definition get_teams (cfg : config) : list team := cfg_teams cfg.

Definition get_criteria (cfg : config) : list criterion := cfg_criteria cfg.

(** What a request handler works on: Flask's [session], the messages
    flashed so far (category and text), and [scores.csv]. *)
Record web := {
  session : gmap string string;
  flashes : list (string * string);
  ledger : store
}.

(** [request]: the method and the form fields. *)
Record request := {
  method : string;
  form : gmap string string
}.

(** [request.form.get(key, '')] *)
Definition form_get (req : request) (key : string) : string :=
  default EmptyString (form req !! key).

(** What a view returns: [redirect(url_for(endpoint))], a rendered template
    with its context, or [jsonify(...)]. *)
Inductive response :=
| Redirect (endpoint : string)
| Render_login
| Render_dashboard (judge : string) (teams : list (team * bool))
    (scored_count total_count : nat)
| Render_score (judge : string) (t : team) (criteria : list criterion)
    (existing_scores : option dict)
| Render_results (admin : string) (results : list team_result) (max_possible : Z)
| Json_normalized (results : list team_result).

(** A view reads and writes the session, the flashed messages and the
    ledger, and returns or raises. *)
Definition W (A : Type) := web -> result A * web.

Definition wret {A} (a : A) : W A := fun w => (Ok a, w).

Definition wbind {A B} (c : W A) (k : A -> W B) : W B :=
  fun w =>
    match c w with
    | (Ok a, w') => k a w'
    | (Raise e, w') => (Raise e, w')
    end.

Notation "x <~ c ;; k" := (wbind c (fun x => k))
  (at level 100, c at next level, right associativity).

Definition wlift {A} (r : result A) : W A := fun w => (r, w).

(** An operation on the ledger, run inside a view. *)
Definition on_ledger {A} (c : M A) : W A :=
  fun w =>
    let (r, st) := c (ledger w) in
    (r, {| session := session w; flashes := flashes w; ledger := st |}).

(** [key in session] *)
Definition in_session (key : string) (w : web) : bool :=
  bool_decide (is_Some (session w !! key)).

(** [session[key]] *)
Definition session_get (key : string) : W string :=
  fun w =>
    match session w !! key with
    | Some v => (Ok v, w)
    | None => (Raise (KeyError [key]), w)
    end.

(** [session[key] = v] *)
Definition session_set (key v : string) : W unit :=
  fun w =>
    (Ok tt, {| session := <[key := v]> (session w); flashes := flashes w;
               ledger := ledger w |}).

(** [session.pop(key, None)] *)
Definition session_pop (key : string) : W unit :=
  fun w =>
    (Ok tt, {| session := delete key (session w); flashes := flashes w;
               ledger := ledger w |}).

(** [flash(message, category)] *)
Definition flash (message category : string) : W unit :=
  fun w =>
    (Ok tt, {| session := session w; flashes := flashes w ++ [(category, message)];
               ledger := ledger w |}).

Definition login_required (f : W response) : W response :=
  fun w =>
    if negb (in_session "judge" w) && negb (in_session "admin" w)
    then wret (Redirect "login") w
    else f w.

Definition admin_required (f : W response) : W response :=
  fun w =>
    if negb (in_session "admin" w)
    then (_ <~ flash "Admin access required" "error" ;; wret (Redirect "login")) w
    else f w.

Definition index : W response :=
  fun w =>
    if in_session "admin" w then wret (Redirect "results") w
    else if in_session "judge" w then wret (Redirect "dashboard") w
    else wret (Redirect "login") w.

Definition logout : W response :=
  _ <~ session_pop "judge" ;;
  _ <~ session_pop "admin" ;;
  _ <~ flash "You have been logged out" "info" ;;
  wret (Redirect "login").

(** [max(0, min(score_value, c['max_score']))] *)
Definition clamp (score_value max_score : Z) : Z :=
  Z.max 0 (Z.min score_value max_score).

(** [s['team_id']] on a record. *)
Definition item (s : dict) (k : string) : result value :=
  match s !! Some k with
  | Some v => Ok v
  | None => Raise (KeyError [k])
  end.

Section Views.

(** [pd.to_numeric], as for the engine. *)
Variable to_numeric : string -> float.

(** [int(text)] on a form field; [None] where it raises [ValueError]. *)
Variable int : string -> option Z.

(** [str.strip] *)
Variable strip : string -> string.

(** The configuration file, not rewritten while a request is served, and
    the clock [save_scores] reads. *)
Variable cfg : config.
Variable now : string.

Definition login (req : request) : W response :=
  if bool_decide (method req = "POST") then
    let username := strip (form_get req "username") in
    let password := form_get req "password" in
    let admins := get_admins cfg in
    if bool_decide (admins !! username = Some password) then
      _ <~ session_set "admin" username ;;
      _ <~ flash "Admin login successful" "success" ;;
      wret (Redirect "results")
    else
      let judges := get_judges cfg in
      if bool_decide (judges !! username = Some password) then
        _ <~ session_set "judge" username ;;
        _ <~ flash "Login successful" "success" ;;
        wret (Redirect "dashboard")
      else
        _ <~ flash "Invalid username or password" "error" ;;
        wret Render_login
  else wret Render_login.

(** The set [{s['team_id'] for s in judge_scores}] is kept as the list of
    its elements' occurrences: a text is in it when some occurrence equals
    it, and its size is the number of distinct occurrences (the cells of a
    record are texts or [None]). *)
Definition dashboard : W response :=
  login_required (
    judge <~ session_get "judge" ;;
    let teams := get_teams cfg in
    judge_scores <~ on_ledger (get_judge_scores judge) ;;
    scored_team_ids <~ wlift (result_mapM (fun s => item s "team_id") judge_scores) ;;
    let teams_with_status :=
      map (fun t => (t, existsb (fun v => py_eq v (VStr (tm_id t))) scored_team_ids))
        teams in
    wret (Render_dashboard judge teams_with_status
            (length (unique scored_team_ids)) (length teams))).

(** The body of the loop over [criteria] in [score_team]: the form field
    read as an integer and clamped, [0] where it is absent or no integer. *)
Definition score_value (fields : gmap string string) (c : criterion) : Z :=
  match fields !! crit_id c with
  | None => clamp 0 (crit_max_score c)
  | Some text =>
      match int text with
      | Some n => clamp n (crit_max_score c)
      | None => 0%Z
      end
  end.

Definition form_scores (fields : gmap string string) (criteria : list criterion)
    : gmap string Z :=
  foldl (fun scores c => <[crit_id c := score_value fields c]> scores) ∅ criteria.

Definition score_team (req : request) (team_id : string) : W response :=
  login_required (
    judge <~ session_get "judge" ;;
    let teams := get_teams cfg in
    let criteria := get_criteria cfg in
    match find (fun t => bool_decide (tm_id t = team_id)) teams with
    | None =>
        _ <~ flash "Team not found" "error" ;;
        wret (Redirect "dashboard")
    | Some team =>
        if bool_decide (method req = "POST") then
          let scores := form_scores (form req) criteria in
          _ <~ on_ledger
                 (save_scores (get_criteria cfg) now judge (tm_id team) (tm_name team)
                    scores) ;;
          _ <~ flash ("Scores saved for " ++ tm_name team) "success" ;;
          wret (Redirect "dashboard")
        else
          existing_scores <~ on_ledger (get_team_score_by_judge judge team_id) ;;
          wret (Render_score judge team criteria existing_scores)
    end).

(** [sum(c['max_score'] for c in criteria)] *)
Definition max_possible (criteria : list criterion) : Z :=
  fold_left Z.add (map crit_max_score criteria) 0%Z.

Definition results : W response :=
  admin_required (
    admin <~ session_get "admin" ;;
    team_results <~ on_ledger (normalize_scores to_numeric (get_criteria cfg)) ;;
    wret (Render_results admin team_results (max_possible (get_criteria cfg)))).

Definition api_normalized : W response :=
  admin_required (
    team_results <~ on_ledger (normalize_scores to_numeric (get_criteria cfg)) ;;
    wret (Json_normalized team_results)).

End Views.

(** ** A small event, for worked instances *)

Definition demo_criteria : list criterion :=
  [ {| crit_id := "innovation"; crit_name := "Innovation"; crit_max_score := 10 |};
    {| crit_id := "design"; crit_name := "Design"; crit_max_score := 5 |} ].

Definition demo_config : config :=
  {| cfg_judges := [ {| username := "alice"; password := "a-secret" |};
                     {| username := "bob"; password := "b-secret" |} ];
     cfg_admins := [ {| username := "root"; password := "r-secret" |} ];
     cfg_teams := [ {| tm_id := "t1"; tm_name := "Alpha" |};
                    {| tm_id := "t2"; tm_name := "Beta" |} ];
     cfg_criteria := demo_criteria |}.

Definition demo_submission (judge team_id team_name : string) (a b : Z) : submission :=
  {| sub_criteria := demo_criteria; sub_now := "2025-01-01T10:00:00";
     sub_judge := judge; sub_team_id := team_id; sub_team_name := team_name;
     sub_scores := <["innovation" := a]> (<["design" := b]> ∅) |}.

Definition demo_submissions : list submission :=
  [ demo_submission "alice" "t1" "Alpha" 8 4;
    demo_submission "bob" "t1" "Alpha" 6 3;
    demo_submission "alice" "t2" "Beta" 5 5;
    demo_submission "alice" "t1" "Alpha" 9 4 ].

Definition demo_ledger : store :=
  run_submissions demo_submissions (fresh_store (Initialised demo_criteria)).

Definition demo_web (sess : gmap string string) : web :=
  {| session := sess; flashes := []; ledger := demo_ledger |}.

(** [int] on the decimal text of an integer. *)
Definition int_decimal (text : string) : option Z :=
  Z.of_int <$> NilZero.int_of_string text.

Definition demo_post : request :=
  {| method := "POST"; form := <["innovation" := "12"]> (<["design" := "x"]> ∅) |}.

Definition demo_login : request :=
  {| method := "POST";
     form := <["username" := "root"]> (<["password" := "r-secret"]> ∅) |}.

(** * Properties of the ledger *)

Section Ledger.

Implicit Types (st : store) (rows : list row) (r : row) (s : submission).

Lemma row_matches_new_row criteria now j0 t0 nm sc j t :
  row_matches j t (new_row criteria now j0 t0 nm sc)
  = bool_decide (j0 = j) && bool_decide (t0 = t).
Proof. reflexivity. Qed.

Lemma row_matches_key j t j' t' r :
  row_matches j t r = true -> row_matches j' t' r = true -> j = j' /\ t = t'.
Proof.
  destruct r as [|c0 [|c1 [|c2 r]]]; simpl; try discriminate.
  rewrite !andb_true_iff, !bool_decide_eq_true. intuition congruence.
Qed.

Lemma length_filter_insert {A} (P : A -> Prop) `{!forall x, Decision (P x)}
    (l : list A) i x y :
  l !! i = Some x -> (P x <-> P y) ->
  length (filter P (<[i:=y]> l)) = length (filter P l).
Proof.
  revert i. induction l as [|a l IH]; intros [|i] Hi Hxy; simpl in *; try discriminate.
  - injection Hi as ->. rewrite !filter_cons.
    destruct (decide (P y)), (decide (P x)); simpl; tauto.
  - rewrite !filter_cons. destruct (decide (P a)); simpl; rewrite (IH i); auto.
Qed.

Lemma filter_lookup_pos {A} (P : A -> Prop) `{!forall x, Decision (P x)}
    (l : list A) i x :
  l !! i = Some x -> P x -> (0 < length (filter P l))%nat.
Proof.
  intros Hi Hx.
  assert (x ∈ filter P l) as Hin.
  { apply list_elem_of_filter. split; [done|]. eapply list_elem_of_lookup_2; eauto. }
  destruct (filter P l); [inversion Hin | simpl; lia].
Qed.

Lemma length_filter_none {A} (P : A -> Prop) `{!forall x, Decision (P x)} (l : list A) :
  Forall (fun x => ~ P x) l -> length (filter P l) = 0%nat.
Proof.
  induction 1 as [|a l Ha _ IH]; [done|].
  rewrite filter_cons. destruct (decide (P a)); [tauto | exact IH].
Qed.

(** What [upsert_rows] does to the records, the header left as it is. *)
Lemma upsert_rows_data j t new header data :
  upsert_rows j t new (header :: data) =
  header ::
    match list_find (fun r => Is_true (row_matches j t r)) data with
    | Some (i, _) => <[i := new]> data
    | None => data ++ [new]
    end.
Proof.
  unfold upsert_rows. simpl. rewrite drop_0.
  destruct (list_find _ data) as [[i r]|]; reflexivity.
Qed.

Lemma submit_store s st :
  submit s st =
  (Ok tt, Some (upsert_rows (sub_judge s) (sub_team_id s) (submitted_row s)
                  (with_header (sub_criteria s) st))).
Proof. destruct st as [[|header data]|]; reflexivity. Qed.

Lemma data_rows_with_header criteria st :
  drop 1 (with_header criteria st) = data_rows st.
Proof. destruct st as [[|header data]|]; reflexivity. Qed.

Lemma submit_data_rows s st :
  data_rows (snd (submit s st)) =
  match list_find (fun r => Is_true (row_matches (sub_judge s) (sub_team_id s) r))
          (data_rows st) with
  | Some (i, _) => <[i := submitted_row s]> (data_rows st)
  | None => data_rows st ++ [submitted_row s]
  end.
Proof.
  rewrite submit_store. simpl.
  rewrite <- (data_rows_with_header (sub_criteria s) st).
  destruct st as [[|header data]|]; simpl; rewrite ?drop_0;
    try (unfold upsert_rows; simpl; reflexivity).
  rewrite upsert_rows_data. simpl. rewrite drop_0. reflexivity.
Qed.

Lemma key_count_submitted s j t :
  key_count j t [submitted_row s]
  = if bool_decide (sub_judge s = j) && bool_decide (sub_team_id s = t) then 1%nat else 0%nat.
Proof.
  unfold key_count. rewrite filter_cons, filter_nil.
  unfold submitted_row at 1. 
  destruct (decide _) as [H|H]; rewrite row_matches_new_row in H;
    destruct (_ && _); simpl in *; tauto.
Qed.

Lemma submit_key_count s st j t :
  key_count j t (data_rows (snd (submit s st))) =
  match list_find (fun r => Is_true (row_matches (sub_judge s) (sub_team_id s) r))
          (data_rows st) with
  | Some _ => key_count j t (data_rows st)
  | None =>
      (key_count j t (data_rows st)
       + if bool_decide (sub_judge s = j) && bool_decide (sub_team_id s = t) then 1 else 0)%nat
  end.
Proof.
  rewrite submit_data_rows.
  destruct (list_find _ (data_rows st)) as [[i r]|] eqn:Hfind.
  - apply list_find_Some in Hfind as (Hi & Hr & _).
    unfold key_count. apply (length_filter_insert _ _ i r); [exact Hi|].
    unfold submitted_row. rewrite row_matches_new_row.
    apply Is_true_true in Hr. split; intros H.
    + apply Is_true_true in H. destruct (row_matches_key _ _ _ _ _ Hr H) as [-> ->].
      rewrite !bool_decide_eq_true_2 by reflexivity. exact I.
    + apply Is_true_true in H. apply andb_true_iff in H as [Hj Ht].
      apply bool_decide_eq_true in Hj, Ht. subst j t. apply Is_true_true. exact Hr.
  - unfold key_count at 1. rewrite filter_app, length_app.
    fold (key_count j t (data_rows st)). fold (key_count j t [submitted_row s]).
    rewrite key_count_submitted. reflexivity.
Qed.

Lemma submit_one_per_pair s st : one_per_pair st -> one_per_pair (snd (submit s st)).
Proof.
  intros Hst j t. rewrite submit_key_count.
  destruct (list_find _ (data_rows st)) as [[i r]|] eqn:Hfind; [apply Hst|].
  destruct (bool_decide (sub_judge s = j) && bool_decide (sub_team_id s = t)) eqn:Hk.
  - apply andb_true_iff in Hk as [Hj Ht]. apply bool_decide_eq_true in Hj, Ht. subst j t.
    apply list_find_None in Hfind. unfold key_count.
    rewrite (length_filter_none _ _ Hfind). simpl. lia.
  - rewrite Nat.add_0_r. apply Hst.
Qed.

Lemma fresh_one_per_pair f : one_per_pair (fresh_store f).
Proof. intros j t. destruct f; simpl; unfold key_count; simpl; lia. Qed.

Lemma run_submissions_one_per_pair subs st :
  one_per_pair st -> one_per_pair (run_submissions subs st).
Proof.
  revert st. induction subs as [|s subs IH]; intros st Hst; simpl; [exact Hst|].
  apply IH, submit_one_per_pair, Hst.
Qed.

Lemma submit_key_count_own s st :
  one_per_pair st ->
  key_count (sub_judge s) (sub_team_id s) (data_rows (snd (submit s st))) = 1%nat.
Proof.
  intros Hst. rewrite submit_key_count.
  destruct (list_find _ (data_rows st)) as [[i r]|] eqn:Hfind.
  - apply list_find_Some in Hfind as (Hi & Hr & _).
    pose proof (Hst (sub_judge s) (sub_team_id s)) as Hle.
    pose proof (filter_lookup_pos
                  (fun r => Is_true (row_matches (sub_judge s) (sub_team_id s) r))
                  _ i r Hi Hr) as Hpos.
    unfold key_count in *. lia.
  - apply list_find_None in Hfind. unfold key_count.
    rewrite (length_filter_none _ _ Hfind).
    rewrite !bool_decide_eq_true_2 by reflexivity. reflexivity.
Qed.

(** C1. Whatever the sequence of submissions to a fresh ledger, the ledger
    holds at most one record for each (judge, team) pair; a further
    submission succeeds and leaves exactly one record for its pair: when a
    record of that pair exists, the first (hence only) one is overwritten at
    its own index by the submitted row, whose first cell is the new
    timestamp, and all other records stay where they are; otherwise the
    submitted row is appended after the last record. *)
Theorem save_scores_one_record_per_pair (f : fresh) (subs : list submission) :
  let st := run_submissions subs (fresh_store f) in
  (forall j t, (key_count j t (data_rows st) <= 1)%nat) /\
  forall s,
    fst (submit s st) = Ok tt /\
    key_count (sub_judge s) (sub_team_id s) (data_rows (snd (submit s st))) = 1%nat /\
    (forall j t, (key_count j t (data_rows (snd (submit s st))) <= 1)%nat) /\
    match list_find (fun r => Is_true (row_matches (sub_judge s) (sub_team_id s) r))
            (data_rows st) with
    | Some (i, _) =>
        data_rows (snd (submit s st)) = <[i := submitted_row s]> (data_rows st) /\
        length (data_rows (snd (submit s st))) = length (data_rows st)
    | None => data_rows (snd (submit s st)) = data_rows st ++ [submitted_row s]
    end.
Proof.
  intros st.
  assert (one_per_pair st) as Hst
    by apply run_submissions_one_per_pair, fresh_one_per_pair.
  split; [exact Hst|]. intros s.
  split; [rewrite submit_store; reflexivity|].
  split; [apply submit_key_count_own, Hst|].
  split; [apply submit_one_per_pair, Hst|].
  rewrite submit_data_rows.
  destruct (list_find _ (data_rows st)) as [[i r]|]; [|reflexivity].
  split; [reflexivity | apply length_insert].
Qed.

(** C9. [init_scores_file] on a missing store creates it with exactly one
    row, the header: the four fixed columns followed by the criterion ids in
    their configured order; on an existing store it changes nothing, whatever
    rows (and whatever header) the store holds. *)
Theorem init_scores_file_creates_or_keeps (criteria : list criterion) :
  init_scores_file criteria None
    = (Ok tt, Some [["timestamp"; "judge"; "team_id"; "team_name"] ++ map crit_id criteria])
  /\ forall rows, init_scores_file criteria (Some rows) = (Ok tt, Some rows).
Proof. split; [reflexivity | intros rows; reflexivity]. Qed.

End Ledger.

(** * Reading the ledger back *)

Section ReadAll.

Variable to_numeric : string -> float.

Lemma get_all_scores_store st : snd (get_all_scores st) = st.
Proof. destruct st; reflexivity. Qed.

Lemma normalize_scores_store criteria st :
  snd (normalize_scores to_numeric criteria st) = st.
Proof.
  unfold normalize_scores, bind.
  pose proof (get_all_scores_store st) as Hst.
  destruct (get_all_scores st) as [[all_scores|e] st']; simpl in Hst; subst st'.
  - destruct all_scores; reflexivity.
  - reflexivity.
Qed.

Lemma normalize_scores_empty criteria st :
  fst (get_all_scores st) = Ok [] ->
  normalize_scores to_numeric criteria st = (Ok [], st).
Proof.
  intros Hall. unfold normalize_scores, bind.
  pose proof (get_all_scores_store st) as Hst.
  destruct (get_all_scores st) as [r st']; simpl in *; subst r st'. reflexivity.
Qed.

(** C10. With no backing store [get_all_scores] returns the empty list and
    raises nothing; [normalize_scores] then returns the empty ranking, as it
    does on every store whose snapshot has no record (a store with no row,
    or with a header alone), and [compute] on the empty snapshot returns the
    empty ranking too. *)
Theorem empty_snapshot_empty_ranking (criteria : list criterion) :
  get_all_scores None = (Ok [], None) /\
  normalize_scores to_numeric criteria None = (Ok [], None) /\
  normalize_scores to_numeric criteria (Some []) = (Ok [], Some []) /\
  (forall header,
     normalize_scores to_numeric criteria (Some [header]) = (Ok [], Some [header])) /\
  compute to_numeric (map crit_id criteria) [] = Ok [] /\
  (forall st, fst (get_all_scores st) = Ok [] ->
     normalize_scores to_numeric criteria st = (Ok [], st)).
Proof.
  repeat split; try reflexivity.
  intros st Hst. apply normalize_scores_empty, Hst.
Qed.

(** C8. [normalize_scores] leaves the store as it found it, so a second
    call with the same criteria and no submission in between reads the same
    snapshot and returns the same result as the first; the result is fixed
    by the snapshot and the criterion ids alone. *)
Theorem normalize_scores_repeatable (criteria : list criterion) (st : store) :
  let first := normalize_scores to_numeric criteria st in
  let second := normalize_scores to_numeric criteria (snd first) in
  snd first = st /\ snd second = st /\ fst second = fst first /\
  forall criteria' st',
    fst (get_all_scores st') = fst (get_all_scores st) ->
    map crit_id criteria' = map crit_id criteria ->
    fst (normalize_scores to_numeric criteria' st') = fst first.
Proof.
  intros first second. subst first second.
  rewrite !normalize_scores_store. repeat split.
  intros criteria' st' Hsnap Hids. unfold normalize_scores, bind.
  destruct (get_all_scores st') as [r' s'], (get_all_scores st) as [r s0].
  simpl in Hsnap. subst r'. destruct r as [[|rec all]|e]; simpl; try reflexivity.
  rewrite Hids. reflexivity.
Qed.

End ReadAll.

(** C7. On a fresh ledger (no file, an empty file, or the file
    [init_scores_file] creates for criteria [c1], [c2]), submitting judge
    ["A"], entry ["T"] with scores [c1 = 5], [c2 = 3] and then reading all
    records gives exactly one record: judge ["A"], entry ["T"], and under
    [c1] and [c2] the decimal texts of 5 and 3, which the engine reads as
    the numbers 5 and 3. *)
Theorem upsert_then_read_all (now team_name n1 n2 : string) (m1 m2 : Z) :
  let criteria := [ {| crit_id := "c1"; crit_name := n1; crit_max_score := m1 |};
                    {| crit_id := "c2"; crit_name := n2; crit_max_score := m2 |} ] in
  let scores : gmap string Z := <["c1" := 5%Z]> (<["c2" := 3%Z]> ∅) in
  let record : dict :=
    <[Some "timestamp" := VStr now]> (<[Some "judge" := VStr "A"]> (
    <[Some "team_id" := VStr "T"]> (<[Some "team_name" := VStr team_name]> (
    <[Some "c1" := VStr "5"]> (<[Some "c2" := VStr "3"]> ∅))))) in
  (forall f, In f [Absent; Blank; Initialised criteria] ->
     let st := snd (save_scores criteria now "A" "T" team_name scores (fresh_store f)) in
     get_all_scores st = (Ok [record], st)) /\
  cell record "judge" = VStr "A" /\
  cell record "team_id" = VStr "T" /\
  cell record "c1" = VStr (str 5) /\
  cell record "c2" = VStr (str 3) /\
  coerce to_numeric_int (cell record "c1") = 5 /\
  coerce to_numeric_int (cell record "c2") = 3.
Proof.
  intros criteria scores record. split.
  - intros f [<-|[<-|[<-|[]]]]; vm_compute; reflexivity.
  - repeat split; vm_compute; reflexivity.
Qed.

(** * Raw totals *)

Section RawTotals.

Variable to_numeric : string -> float.

Implicit Types (df : list dict) (r : dict) (cid k : string).

Lemma coerce_not_nan v : is_nan (coerce to_numeric v) = false.
Proof.
  unfold coerce.
  set (x := match v with VStr s => to_numeric s | VNum x => x | _ => nan end).
  destruct (is_nan x) eqn:Hnan; [reflexivity | exact Hnan].
Qed.

Lemma coerce_idempotent v : coerce to_numeric (VNum (coerce to_numeric v)) = coerce to_numeric v.
Proof.
  unfold coerce at 1. rewrite coerce_not_nan. reflexivity.
Qed.

(** A missing cell and a text that is no number both count 0. *)
Lemma coerce_missing : coerce to_numeric VNone = 0.
Proof. reflexivity. Qed.

Lemma coerce_malformed s : is_nan (to_numeric s) = true -> coerce to_numeric (VStr s) = 0.
Proof. intros H. unfold coerce. rewrite H. reflexivity. Qed.

Lemma cell_insert r cid k v :
  cell (<[Some cid := v]> r) k = if decide (k = cid) then v else cell r k.
Proof.
  unfold cell. destruct (decide (k = cid)) as [->|Hne].
  - rewrite lookup_insert_eq. reflexivity.
  - rewrite lookup_insert_ne by congruence. reflexivity.
Qed.

Lemma has_column_convert df cid k :
  has_column (convert_column to_numeric df cid) k = has_column df k.
Proof.
  unfold convert_column. destruct (has_column df cid) eqn:Hcid; [|reflexivity].
  unfold has_column in *. induction df as [|r df IH]; [reflexivity|].
  simpl in *. destruct (decide (k = cid)) as [->|Hne].
  - rewrite lookup_insert_eq.
    rewrite (bool_decide_eq_true_2 (is_Some (Some _))) by eauto. simpl.
    destruct (bool_decide (is_Some (r !! Some cid))) eqn:Hr; [reflexivity|].
    simpl in *. rewrite <- IH by exact Hcid.
    destruct df; [discriminate|]. simpl. rewrite lookup_insert_eq.
    rewrite (bool_decide_eq_true_2 (is_Some (Some _))) by eauto. reflexivity.
  - rewrite lookup_insert_ne by congruence.
    destruct (bool_decide (is_Some (r !! Some k))); [reflexivity|]. simpl.
    destruct (bool_decide (is_Some (r !! Some cid))) eqn:Hr.
    + clear IH Hcid. induction df as [|r' df IH']; [reflexivity|]. simpl.
      rewrite lookup_insert_ne by congruence. rewrite IH'. reflexivity.
    + simpl in Hcid. apply IH, Hcid.
Qed.

Lemma convert_all criteria_ids df :
  Forall (fun cid => has_column df cid = true) criteria_ids ->
  fold_left (convert_column to_numeric) criteria_ids df
  = map (convert_row to_numeric criteria_ids) df.
Proof.
  revert df. induction criteria_ids as [|cid ids IH]; intros df Hcols; simpl.
  - rewrite map_id. reflexivity.
  - inversion Hcols as [|? ? Hcid Hrest]; subst.
    rewrite IH.
    + unfold convert_column at 1. rewrite Hcid, map_map. reflexivity.
    + eapply Forall_impl; [exact Hrest|]. intros k Hk. simpl in Hk.
      rewrite has_column_convert. exact Hk.
Qed.

Lemma has_column_convert_all criteria_ids df k :
  has_column (fold_left (convert_column to_numeric) criteria_ids df) k = has_column df k.
Proof.
  revert df. induction criteria_ids as [|cid ids IH]; intros df; simpl; [reflexivity|].
  rewrite IH. apply has_column_convert.
Qed.

Lemma cell_convert_row criteria_ids r k :
  cell (convert_row to_numeric criteria_ids r) k
  = if decide (k ∈ criteria_ids) then VNum (coerce to_numeric (cell r k)) else cell r k.
Proof.
  revert r. induction criteria_ids as [|cid ids IH]; intros r.
  - simpl. destruct (decide (k ∈ [])) as [H|H]; [inversion H | reflexivity].
  - unfold convert_row in *. simpl. rewrite IH, cell_insert.
    destruct (decide (k = cid)) as [->|Hne].
    + rewrite coerce_idempotent.
      destruct (decide (cid ∈ ids)), (decide (cid ∈ cid :: ids)) as [|Hn];
        try reflexivity; exfalso; apply Hn; constructor.
    + destruct (decide (k ∈ ids)) as [Hin|Hnin], (decide (k ∈ cid :: ids)) as [Hin'|Hnin'];
        try reflexivity; exfalso.
      * apply Hnin'. constructor. exact Hin.
      * apply elem_of_cons in Hin' as [?|?]; tauto.
Qed.

(** The raw totals, the step of [normalize_scores] that sets [total_raw]:
    when every active criterion id is a column of the snapshot, each record
    gets the sum over the active ids of its coerced cell (0 for a cell the
    record lacks and for a text that is no number) and nothing is raised;
    when some id is no column, the step raises [KeyError] with the ids that
    are missing. *)
Theorem total_raw_of_snapshot (criteria_ids : list string) (df : list dict) :
  add_total_raw criteria_ids (fold_left (convert_column to_numeric) criteria_ids df)
  = match filter (fun cid => has_column df cid = false) criteria_ids with
    | [] =>
        Ok (map (fun r =>
                   {| cells := convert_row to_numeric criteria_ids r;
                      total_raw :=
                        fsum (map (fun cid => coerce to_numeric (cell r cid)) criteria_ids) |})
                df)
    | missing => Raise (KeyError missing)
    end.
Proof.
  unfold add_total_raw.
  assert (filter (fun cid => has_column
                   (fold_left (convert_column to_numeric) criteria_ids df) cid = false)
                 criteria_ids
          = filter (fun cid => has_column df cid = false) criteria_ids) as ->.
  { apply list_filter_iff. intros k. rewrite has_column_convert_all. reflexivity. }
  destruct (filter _ criteria_ids) as [|k missing] eqn:Hmiss; [|reflexivity].
  assert (Forall (fun cid => has_column df cid = true) criteria_ids) as Hcols.
  { apply Forall_forall. intros k Hk.
    destruct (has_column df k) eqn:Hc; [reflexivity|].
    assert (k ∈ filter (fun cid => has_column df cid = false) criteria_ids) as Hin
      by (apply list_elem_of_filter; split; [exact Hc | exact Hk]).
    rewrite Hmiss in Hin. inversion Hin. }
  rewrite convert_all by exact Hcols. rewrite map_map. f_equal.
  apply map_ext. intros r. f_equal. f_equal.
  apply map_ext_in. intros cid Hcid. rewrite cell_convert_row.
  destruct (decide (cid ∈ criteria_ids)) as [_|Hn]; [reflexivity|].
  exfalso. apply Hn, list_elem_of_In, Hcid.
Qed.

End RawTotals.

(** C2. A store created while the only criterion was [c1], one submission,
    and then a ranking computed after the configuration gained the criterion
    [c2]: no record has a column [c2], and instead of counting 0 for it the
    raw-total step raises [KeyError] for [c2]. *)
Theorem raw_total_absent_criterion_raises (to_numeric : string -> float) :
  let c1 := {| crit_id := "c1"; crit_name := "Innovation"; crit_max_score := 10 |} in
  let c2 := {| crit_id := "c2"; crit_name := "Design"; crit_max_score := 10 |} in
  let st0 := snd (init_scores_file [c1] None) in
  let st := snd (save_scores [c1] "2025-01-01T10:00:00" "A" "T" "Team T" {["c1" := 5%Z]} st0) in
  st = Some [["timestamp"; "judge"; "team_id"; "team_name"; "c1"];
             ["2025-01-01T10:00:00"; "A"; "T"; "Team T"; "5"]] /\
  fst (normalize_scores to_numeric [c1; c2] st) = Raise (KeyError ["c2"]).
Proof. split; vm_compute; reflexivity. Qed.

(** * The order of binary64 values *)

Section FloatOrder.

Implicit Types (x y z : float) (u v : spec_float).

Lemma SFcompare_rank u v :
  u <> S754_nan -> v <> S754_nan ->
  match SFcompare u v with
  | Some Lt => lexlt u v
  | Some Eq => lexeq u v
  | Some Gt => lexlt v u
  | None => False
  end.
Proof.
  intros Hu Hv. unfold lexlt, lexeq.
  destruct u as [su|su| |su mu eu], v as [sv|sv| |sv mv ev]; try congruence;
    try (destruct su, sv; simpl; lia).
  simpl. change (Pos.compare_cont Eq mu mv) with (Pos.compare mu mv).
  destruct su, sv; simpl; try lia;
    destruct (Z.compare_spec eu ev), (Pos.compare_spec mu mv); simpl; lia.
Qed.

Lemma lex_trichotomy u v : lexlt u v \/ lexeq u v \/ lexlt v u.
Proof. unfold lexlt, lexeq. lia. Qed.

Lemma ltb_rank x y :
  (x <? y) = true <->
  Prim2SF x <> S754_nan /\ Prim2SF y <> S754_nan /\ lexlt (Prim2SF x) (Prim2SF y).
Proof. rewrite FloatAxioms.ltb_spec. unfold SFltb. by_rank SFcompare_rank. Qed.

Lemma leb_rank x y :
  (x <=? y) = true <->
  Prim2SF x <> S754_nan /\ Prim2SF y <> S754_nan /\
  (lexlt (Prim2SF x) (Prim2SF y) \/ lexeq (Prim2SF x) (Prim2SF y)).
Proof. rewrite FloatAxioms.leb_spec. unfold SFleb. by_rank SFcompare_rank. Qed.

Lemma eqb_rank x y :
  (x =? y) = true <->
  Prim2SF x <> S754_nan /\ Prim2SF y <> S754_nan /\ lexeq (Prim2SF x) (Prim2SF y).
Proof. rewrite FloatAxioms.eqb_spec. unfold SFeqb. by_rank SFcompare_rank. Qed.

Lemma is_nan_rank x : is_nan x = false <-> Prim2SF x <> S754_nan.
Proof.
  unfold is_nan. rewrite negb_false_iff, eqb_rank. unfold lexeq. tauto.
Qed.

Lemma ltb_asym x y : (x <? y) = true -> (y <? x) = false.
Proof.
  intros H. destruct (y <? x) eqn:H'; [|reflexivity].
  apply ltb_rank in H as (_ & _ & H). apply ltb_rank in H' as (_ & _ & H').
  unfold lexlt in *. lia.
Qed.

Lemma ltb_eqb_false x y k :
  (x =? k) = true -> (y =? k) = true -> (x <? y) = false.
Proof.
  intros Hx Hy. destruct (x <? y) eqn:H; [|reflexivity].
  apply eqb_rank in Hx as (_ & _ & Hx). apply eqb_rank in Hy as (_ & _ & Hy).
  apply ltb_rank in H as (_ & _ & H). unfold lexlt, lexeq in *. lia.
Qed.

Lemma leb_trans x y z : (x <=? y) = true -> (y <=? z) = true -> (x <=? z) = true.
Proof.
  rewrite !leb_rank. unfold lexlt, lexeq. intros (? & ? & ?) (? & ? & ?).
  repeat split; try assumption. lia.
Qed.

Lemma leb_total x y :
  is_nan x = false -> is_nan y = false -> (x <? y) = false -> (y <=? x) = true.
Proof.
  rewrite !is_nan_rank. intros Hx Hy Hlt. apply leb_rank.
  repeat split; try assumption.
  destruct (lex_trichotomy (Prim2SF x) (Prim2SF y)) as [H|[H|H]].
  - exfalso. assert ((x <? y) = true) by (apply ltb_rank; auto). congruence.
  - right. unfold lexeq in *. lia.
  - left. exact H.
Qed.

End FloatOrder.

(** * The final sort *)

Section Sort.

Implicit Types (t a b : team_result) (l : list team_result).

Lemma insert_desc_perm t l : Permutation (t :: l) (insert_desc t l).
Proof.
  induction l as [|b l IH]; simpl; [reflexivity|].
  destruct (_ <? _); [|reflexivity].
  rewrite perm_swap. apply perm_skip, IH.
Qed.

Lemma sort_desc_perm l : Permutation l (sort_desc l).
Proof.
  induction l as [|t l IH]; simpl; [reflexivity|].
  etransitivity; [apply perm_skip, IH | apply insert_desc_perm].
Qed.

Lemma insert_desc_hd a t l :
  not_below a t -> HdRel not_below a l -> HdRel not_below a (insert_desc t l).
Proof.
  intros Hat Hal. destruct l as [|b l]; simpl; [constructor; exact Hat|].
  destruct (_ <? _); constructor; [inversion Hal; assumption | exact Hat].
Qed.

Lemma insert_desc_sorted t l : Sorted not_below l -> Sorted not_below (insert_desc t l).
Proof.
  induction 1 as [|b l Hl IH Hb]; simpl; [repeat constructor|].
  destruct (avg_normalized_score t <? avg_normalized_score b) eqn:Hlt.
  - constructor; [exact IH|]. apply insert_desc_hd; [|exact Hb].
    apply ltb_asym, Hlt.
  - repeat constructor; assumption.
Qed.

Lemma sort_desc_sorted l : Sorted not_below (sort_desc l).
Proof.
  induction l as [|t l IH]; simpl; [constructor | apply insert_desc_sorted, IH].
Qed.

(** Elements whose keys equal [k] are never moved past one another. *)
Lemma insert_desc_stable (k : float) t l :
  filter (fun a => Is_true (key a =? k)) (insert_desc t l)
  = filter (fun a => Is_true (key a =? k)) (t :: l).
Proof.
  induction l as [|b l IH]; simpl; [reflexivity|].
  destruct (avg_normalized_score t <? avg_normalized_score b) eqn:Hlt; [|reflexivity].
  rewrite filter_cons, IH, !filter_cons.
  destruct (decide (Is_true (key b =? k))) as [Hb|Hb],
           (decide (Is_true (key t =? k))) as [Ht|Ht]; try reflexivity.
  apply Is_true_true in Hb, Ht.
  pose proof (ltb_eqb_false _ _ _ Ht Hb) as Hfalse.
  unfold key in Hfalse. congruence.
Qed.

Lemma sort_desc_stable (k : float) l :
  filter (fun a => Is_true (key a =? k)) (sort_desc l)
  = filter (fun a => Is_true (key a =? k)) l.
Proof.
  induction l as [|t l IH]; simpl; [reflexivity|].
  rewrite insert_desc_stable, !filter_cons, IH. reflexivity.
Qed.

Lemma at_least_trans a b c : at_least a b -> at_least b c -> at_least a c.
Proof. unfold at_least. intros Hab Hbc. eapply leb_trans; eassumption. Qed.

Lemma sorted_at_least l :
  Forall (fun t => is_nan (key t) = false) l ->
  Sorted not_below l -> StronglySorted at_least l.
Proof.
  intros Hnan Hs. apply Sorted_StronglySorted; [exact at_least_trans|].
  induction Hs as [|a l Hl IH Ha]; constructor.
  - apply IH. inversion Hnan; assumption.
  - inversion Hnan as [|? ? Hka Hkl]; subst.
    destruct Ha as [|b l Hab]; constructor.
    inversion Hkl; subst. apply leb_total; assumption.
Qed.

Lemma sort_desc_not_nan l :
  Forall (fun t => is_nan (key t) = false) l ->
  Forall (fun t => is_nan (key t) = false) (sort_desc l).
Proof.
  intros H. apply Forall_forall. intros t Ht.
  rewrite Forall_forall in H. apply H.
  rewrite (sort_desc_perm l). exact Ht.
Qed.

End Sort.

Section Ranking.

Variable to_numeric : string -> float.

Lemma compute_sorts_grouped criteria_ids all_scores :
  compute to_numeric criteria_ids all_scores
  = result_bind (grouped to_numeric criteria_ids all_scores) (fun l => Ok (sort_desc l)).
Proof.
  unfold compute, grouped.
  destruct (forallb _ all_scores); [reflexivity|]. simpl.
  destruct (add_total_raw _ _) as [scored_df|e]; [|reflexivity]. simpl.
  destruct (judge_frames _) as [[|frame frames]|e]; reflexivity.
Qed.

(** C6. [compute] returns the per-team aggregates of the grouping loop
    sorted by [avg_normalized_score], largest first, by a stable sort: the
    result is a rearrangement of the grouped list in which no aggregate is
    directly followed by one with a larger key, every aggregate follows only
    aggregates with a key at least its own when no key is NaN, and the
    aggregates that share a key value stand in the order the grouping loop
    produced them. When the grouping raises, so does [compute]. *)
Theorem compute_sorted_stable (criteria_ids : list string) (all_scores : list dict) :
  match grouped to_numeric criteria_ids all_scores with
  | Ok pre =>
      exists out,
        compute to_numeric criteria_ids all_scores = Ok out /\
        Permutation pre out /\
        Sorted not_below out /\
        (Forall (fun t => is_nan (key t) = false) pre -> StronglySorted at_least out) /\
        forall k : float,
          filter (fun t => Is_true (key t =? k)) out
          = filter (fun t => Is_true (key t =? k)) pre
  | Raise e => compute to_numeric criteria_ids all_scores = Raise e
  end.
Proof.
  rewrite compute_sorts_grouped.
  destruct (grouped _ _ _) as [pre|e]; simpl; [|reflexivity].
  exists (sort_desc pre). split; [reflexivity|].
  split; [apply sort_desc_perm|].
  split; [apply sort_desc_sorted|].
  split; [|intros k; apply sort_desc_stable].
  intros Hnan. apply sorted_at_least; [apply sort_desc_not_nan, Hnan | apply sort_desc_sorted].
Qed.

End Ranking.

(** * Sums as numpy takes them *)

Section Sums.

Implicit Types (x y : float) (a l rest : list float).

Lemma neg_zero_add x : neg_zero + x = x.
Proof.
  apply Prim2SF_inj. rewrite add_spec.
  change (Prim2SF neg_zero) with (S754_zero true).
  destruct (Prim2SF x) as [[|]|[|]| |s m e]; reflexivity.
Qed.

Lemma pairwise_sum_rec_short fuel a :
  (length a < 8)%nat -> pairwise_sum_rec fuel a = fold_left PrimFloat.add a neg_zero.
Proof.
  intros H. apply Nat.ltb_lt in H. destruct fuel; cbn [pairwise_sum_rec]; rewrite H; reflexivity.
Qed.

Lemma pairwise_sum_rec_block fuel a :
  (8 <= length a <= 128)%nat -> pairwise_sum_rec fuel a = sum_block a.
Proof.
  intros [H8 H128].
  assert ((length a <? 8)%nat = false) as Hlt by (apply Nat.ltb_ge; exact H8).
  apply Nat.leb_le in H128.
  destruct fuel; cbn [pairwise_sum_rec]; rewrite Hlt, H128; reflexivity.
Qed.

Lemma pairwise_sum_rec_split fuel a :
  (128 < length a)%nat ->
  pairwise_sum_rec (S fuel) a
  = let n2 := (length a / 2 - (length a / 2) mod 8)%nat in
    pairwise_sum_rec fuel (take n2 a) + pairwise_sum_rec fuel (drop n2 a).
Proof.
  intros H.
  assert ((length a <? 8)%nat = false) as Hlt by (apply Nat.ltb_ge; lia).
  assert ((length a <=? 128)%nat = false) as Hle by (apply Nat.leb_gt; exact H).
  cbn [pairwise_sum_rec]. rewrite Hlt, Hle. reflexivity.
Qed.

(** Fewer than eight values are added one by one. *)
Lemma np_sum_short x l :
  (length (x :: l) < 8)%nat -> np_sum (x :: l) = fold_left PrimFloat.add l x.
Proof.
  intros Hlen. unfold np_sum, pairwise_sum. rewrite neg_zero_add.
  rewrite pairwise_sum_rec_short by exact Hlen.
  simpl. rewrite neg_zero_add. reflexivity.
Qed.

Lemma add_lanes_chunks (chunks : list (list float)) rest r0 r1 r2 r3 r4 r5 r6 r7 :
  Forall (fun c => length c = 8%nat) chunks ->
  add_lanes (length chunks) [r0; r1; r2; r3; r4; r5; r6; r7] (concat chunks ++ rest)
  = map (fun '(j, r) => fold_left PrimFloat.add (map (fun c => nth j c 0) chunks) r)
      [(0, r0); (1, r1); (2, r2); (3, r3); (4, r4); (5, r5); (6, r6); (7, r7)]%nat.
Proof.
  intros Hall. revert r0 r1 r2 r3 r4 r5 r6 r7.
  induction Hall as [|c chunks Hc _ IH]; intros; [reflexivity|].
  destruct c as [|c0 [|c1 [|c2 [|c3 [|c4 [|c5 [|c6 [|c7 [|]]]]]]]]]; try discriminate.
  simpl length. simpl add_lanes. rewrite IH. reflexivity.
Qed.

Lemma length_concat_chunks (chunks : list (list float)) :
  Forall (fun c => length c = 8%nat) chunks ->
  length (concat chunks) = (8 * length chunks)%nat.
Proof.
  induction 1 as [|c chunks Hc _ IH]; [reflexivity|].
  simpl. rewrite length_app, IH, Hc. lia.
Qed.

(** From 8 to 128 values: eight running sums over the groups of eight,
    added up as a tree, then the values left over one by one. *)
Lemma np_sum_block (c0 : list float) (chunks : list (list float)) rest :
  Forall (fun c => length c = 8%nat) (c0 :: chunks) ->
  (length rest < 8)%nat ->
  (length (concat (c0 :: chunks) ++ rest) <= 128)%nat ->
  let lane j := fold_left PrimFloat.add (map (fun c => nth j c 0) chunks) (nth j c0 0) in
  np_sum (concat (c0 :: chunks) ++ rest)
  = fold_left PrimFloat.add rest
      (((lane 0%nat + lane 1%nat) + (lane 2%nat + lane 3%nat))
       + ((lane 4%nat + lane 5%nat) + (lane 6%nat + lane 7%nat))).
Proof.
  intros Hall Hrest Hmax lane.
  inversion Hall as [|? ? Hc0 Hchunks]; subst.
  pose proof (length_concat_chunks chunks Hchunks) as Hcat.
  set (a := concat (c0 :: chunks) ++ rest) in *.
  assert (length a = (8 * S (length chunks) + length rest)%nat) as Hn
    by (unfold a; simpl; rewrite !length_app, Hcat, Hc0; lia).
  assert (a = c0 ++ (concat chunks ++ rest)) as Ha
    by (unfold a; simpl; rewrite app_assoc; reflexivity).
  unfold np_sum. destruct a as [|x a'] eqn:Heq; [simpl in Hn; lia|].
  rewrite <- Heq in *. clear Heq x a'.
  rewrite neg_zero_add. unfold pairwise_sum.
  rewrite pairwise_sum_rec_block by lia.
  unfold sum_block.
  assert ((length a / 8 - 1)%nat = length chunks) as ->.
  { rewrite Hn. rewrite (Nat.mul_comm 8), Nat.div_add_l by lia.
    rewrite (Nat.div_small (length rest)) by lia. lia. }
  assert ((length a - length a mod 8)%nat = (length c0 + length (concat chunks))%nat) as ->.
  { rewrite Hn, Hcat, Hc0.
    replace (8 * S (length chunks) + length rest)%nat
      with (length rest + S (length chunks) * 8)%nat by lia.
    rewrite Nat.Div0.mod_add, (Nat.mod_small (length rest)) by lia. lia. }
  rewrite Ha. rewrite take_app_length' by (symmetry; exact Hc0).
  rewrite (drop_app_length' c0) by (symmetry; exact Hc0).
  rewrite app_assoc, drop_app_length' by (rewrite length_app; reflexivity).
  destruct c0 as [|r0 [|r1 [|r2 [|r3 [|r4 [|r5 [|r6 [|r7 [|]]]]]]]]]; try discriminate.
  rewrite (add_lanes_chunks chunks rest _ _ _ _ _ _ _ _ Hchunks).
  reflexivity.
Qed.

(** More than 128 values: the array is cut at half its length rounded
    down to a multiple of 8 and the sums of the two parts are added. *)
Lemma pairwise_sum_rec_fuel a : forall fuel fuel',
  (length a <= fuel)%nat -> (length a <= fuel')%nat ->
  pairwise_sum_rec fuel a = pairwise_sum_rec fuel' a.
Proof.
  remember (length a) as n eqn:Hn. revert a Hn.
  induction n as [n IH] using lt_wf_ind. intros a Hn fuel fuel' Hf Hf'.
  destruct (Nat.le_gt_cases (length a) 128) as [Hle|Hgt].
  - destruct (Nat.lt_ge_cases (length a) 8) as [H8|H8].
    + rewrite !pairwise_sum_rec_short by exact H8. reflexivity.
    + rewrite !pairwise_sum_rec_block by lia. reflexivity.
  - destruct fuel as [|fuel]; [lia|]. destruct fuel' as [|fuel']; [lia|].
    rewrite !pairwise_sum_rec_split by exact Hgt. cbv zeta.
    set (n2 := (length a / 2 - (length a / 2) mod 8)%nat).
    assert (n2 <= length a / 2)%nat as Hn2 by (unfold n2; lia).
    assert (length a / 2 < 8 + n2)%nat as Hn2'.
    { unfold n2. pose proof (Nat.mod_upper_bound (length a / 2) 8). lia. }
    assert (2 * (length a / 2) <= length a)%nat as Hhalf by (apply Nat.Div0.mul_div_le).
    assert (length a < 2 * (length a / 2) + 2)%nat as Hhalf'.
    { pose proof (Nat.div_mod_eq (length a) 2). pose proof (Nat.mod_upper_bound (length a) 2). lia. }
    f_equal.
    + apply (IH (length (take n2 a))); rewrite ?length_take; try reflexivity; lia.
    + apply (IH (length (drop n2 a))); rewrite ?length_drop; try reflexivity; lia.
Qed.

Lemma np_sum_nonempty a : a <> [] -> np_sum a = pairwise_sum a.
Proof. destruct a; [contradiction | intros _; apply neg_zero_add]. Qed.

Lemma np_sum_split a :
  (128 < length a)%nat ->
  let n2 := (length a / 2 - (length a / 2) mod 8)%nat in
  np_sum a = np_sum (take n2 a) + np_sum (drop n2 a).
Proof.
  intros Hgt n2.
  assert (n2 <= length a / 2)%nat as Hn2 by (unfold n2; lia).
  assert (length a / 2 < 8 + n2)%nat as Hn2'.
  { unfold n2. pose proof (Nat.mod_upper_bound (length a / 2) 8). lia. }
  assert (2 * (length a / 2) <= length a)%nat as Hhalf by (apply Nat.Div0.mul_div_le).
  assert (length a < 2 * (length a / 2) + 2)%nat as Hhalf'.
  { pose proof (Nat.div_mod_eq (length a) 2). pose proof (Nat.mod_upper_bound (length a) 2). lia. }
  assert (length (take n2 a) = n2) as Htake by (rewrite length_take; lia).
  assert (length (drop n2 a) = (length a - n2)%nat) as Hdrop by apply length_drop.
  rewrite !np_sum_nonempty by (intros E; rewrite E in *; simpl in *; lia).
  unfold pairwise_sum.
  rewrite (pairwise_sum_rec_fuel a (length a) (S (length a))) by lia.
  rewrite pairwise_sum_rec_split by exact Hgt. cbv zeta. fold n2.
  f_equal; apply pairwise_sum_rec_fuel; lia.
Qed.

End Sums.

(** * Z-scores *)

Section ZScores.

Implicit Types (df : list scored_row) (r : scored_row) (zr : z_row).

Lemma judge_z_scores_scored judge_df : map scored (judge_z_scores judge_df) = judge_df.
Proof.
  unfold judge_z_scores.
  destruct (1 <? length judge_df)%nat; [destruct (0 <? _)|];
    rewrite map_map; simpl; apply map_id.
Qed.

Lemma judge_z_scores_many judge_df zr :
  (1 < length judge_df)%nat ->
  zr ∈ judge_z_scores judge_df ->
  z_score zr =
    if 0 <? std (map total_raw judge_df)
    then (total_raw (scored zr) - mean (map total_raw judge_df)) / std (map total_raw judge_df)
    else 0.
Proof.
  intros Hlen. unfold judge_z_scores.
  apply Nat.ltb_lt in Hlen. rewrite Hlen.
  destruct (0 <? std _); intros Hin;
    apply list_elem_of_fmap in Hin as (r & -> & _); reflexivity.
Qed.

Lemma judge_z_scores_single judge_df zr :
  length judge_df = 1%nat -> zr ∈ judge_z_scores judge_df -> z_score zr = 0.
Proof.
  intros Hlen. unfold judge_z_scores. rewrite Hlen. simpl.
  intros Hin. apply list_elem_of_fmap in Hin as (r & -> & _). reflexivity.
Qed.

Lemma unique_from_covers (v : value) seen l :
  v ∈ l ->
  existsb (same_key v) seen = true \/
  exists w, w ∈ unique_from seen l /\ (w = v \/ same_key v w = true).
Proof.
  revert seen. induction l as [|a l IH]; intros seen Hin; [inversion Hin|].
  simpl. apply elem_of_cons in Hin as [->|Hin].
  - destruct (existsb (same_key a) seen) eqn:Hseen; [left; reflexivity|].
    right. exists a. split; [constructor | left; reflexivity].
  - destruct (existsb (same_key a) seen) eqn:Hseen.
    + apply IH, Hin.
    + destruct (IH (a :: seen) Hin) as [Hex|(w & Hw & Hvw)].
      * simpl in Hex. apply orb_true_iff in Hex as [Hva|Hex]; [|left; exact Hex].
        right. exists a. split; [constructor | right; exact Hva].
      * right. exists w. split; [constructor; exact Hw | exact Hvw].
Qed.

Lemma same_key_text s w : same_key (VStr s) w = true -> w = VStr s.
Proof.
  destruct w; simpl; try discriminate.
  intros H. apply bool_decide_eq_true in H. congruence.
Qed.

Lemma unique_text s l : VStr s ∈ l -> VStr s ∈ unique l.
Proof.
  intros Hin. destruct (unique_from_covers _ [] l Hin) as [Hex|(w & Hw & [->|Hk])].
  - discriminate.
  - exact Hw.
  - apply same_key_text in Hk. subst w. exact Hw.
Qed.

(** C3. The judge loop produces one frame per judge of
    [df['judge'].unique()], holding that judge's records in their order.
    With [n] the count of the judge's raw totals that are numbers, [m]
    their sum over [n] (the mean) and [s] the square root of the sum of
    the squares of [m - x] over them, divided by [n - 1] (the sample
    standard deviation; NaN for [n <= 1]): when the judge has more than one
    record, a record's z is its raw total minus [m], over [s], if [s] is
    above 0, and 0 if [s] is 0 (or is not above 0); when the judge has
    exactly one record, its z is 0. Every record whose judge is a text
    belongs to a judge of the loop. Without a [judge] column the loop
    raises.

    The sums are numpy's: nothing gives 0; fewer than eight values are
    added one by one; from 8 to 128 values there are eight running sums
    over the groups of eight, added as a tree, the values left over being
    added last; a longer array is cut in two. On nine totals that are 0
    but for the third, which is 1, this gives mean 0.1111111111111111,
    deviation 0.3333333333333333 and z-scores -0.3333333333333333 and
    2.6666666666666665 (adding the squares one by one would give
    0.33333333333333337); the mean of 50, five times 38.21, 50 and 61.79 is
    44.105. *)
Theorem z_score_of_partition (df : list scored_row) :
  match judge_frames df with
  | Ok frames =>
      let judges := unique (map (fun r => cell (cells r) "judge") df) in
      length frames = length judges /\
      (forall r s, r ∈ df -> cell (cells r) "judge" = VStr s -> VStr s ∈ judges) /\
      forall i judge frame,
        judges !! i = Some judge -> frames !! i = Some frame ->
        let part := filter (fun r => Is_true (py_eq (cell (cells r) "judge") judge)) df in
        let totals := map total_raw part in
        let n := length (filter (fun x => is_nan x = false) totals) in
        let m := np_sum (map (fun x => if is_nan x then 0 else x) totals)
                 / Z2F (Z.of_nat n) in
        let s := if (n <=? 1)%nat then nan
                 else sqrt (np_sum (map (fun x => if is_nan x then 0 else (m - x) * (m - x))
                                      totals)
                            / Z2F (Z.of_nat (n - 1))) in
        map scored frame = part /\
        forall zr, zr ∈ frame ->
          ((1 < length part)%nat -> (0 <? s) = true ->
             z_score zr = (total_raw (scored zr) - m) / s) /\
          ((1 < length part)%nat -> (s =? 0) = true -> z_score zr = 0) /\
          ((1 < length part)%nat -> (0 <? s) = false -> z_score zr = 0) /\
          (length part = 1%nat -> z_score zr = 0)
  | Raise e => has_column (map cells df) "judge" = false /\ e = KeyError ["judge"]
  end /\
  np_sum [] = 0 /\
  (forall x l, (length (x :: l) < 8)%nat -> np_sum (x :: l) = fold_left PrimFloat.add l x) /\
  (forall c0 chunks rest,
     Forall (fun c => length c = 8%nat) (c0 :: chunks) ->
     (length rest < 8)%nat ->
     (length (concat (c0 :: chunks) ++ rest) <= 128)%nat ->
     let lane j := fold_left PrimFloat.add (map (fun c => nth j c 0) chunks) (nth j c0 0) in
     np_sum (concat (c0 :: chunks) ++ rest)
     = fold_left PrimFloat.add rest
         (((lane 0%nat + lane 1%nat) + (lane 2%nat + lane 3%nat))
          + ((lane 4%nat + lane 5%nat) + (lane 6%nat + lane 7%nat)))) /\
  (forall a, (128 < length a)%nat ->
     let n2 := (length a / 2 - (length a / 2) mod 8)%nat in
     np_sum a = np_sum (take n2 a) + np_sum (drop n2 a)) /\
  (let row x := {| cells := <[Some "judge" := VStr "J"]> ∅; total_raw := x |} in
   map z_score (judge_z_scores (map row [0; 0; 1; 0; 0; 0; 0; 0; 0]))
   = [-0.3333333333333333; -0.3333333333333333; 2.6666666666666665;
      -0.3333333333333333; -0.3333333333333333; -0.3333333333333333;
      -0.3333333333333333; -0.3333333333333333; -0.3333333333333333]) /\
  mean [0; 0; 1; 0; 0; 0; 0; 0; 0] = 0.1111111111111111 /\
  std [0; 0; 1; 0; 0; 0; 0; 0; 0] = 0.3333333333333333 /\
  mean [50; 38.21; 38.21; 38.21; 38.21; 38.21; 50; 61.79] = 44.105.
Proof.
  split; [|split; [reflexivity|split; [exact np_sum_short|split; [exact np_sum_block|
          split; [exact np_sum_split | repeat split; vm_compute; reflexivity]]]]].
  unfold judge_frames, column.
  destruct (has_column (map cells df) "judge") eqn:Hcol; simpl; [|auto].
  rewrite map_map.
  split; [apply length_map|].
  split.
  { intros r s Hr Hs. apply unique_text. rewrite <- Hs.
    apply (list_elem_of_fmap_2 (fun r => cell (cells r) "judge")), Hr. }
  intros i judge frame Hjudge Hframe.
  rewrite list_lookup_fmap, Hjudge in Hframe. simpl in Hframe.
  injection Hframe as <-.
  set (part := filter (fun r => Is_true (py_eq (cell (cells r) "judge") judge)) df).
  set (totals := map total_raw part).
  set (n := length (filter (fun x => is_nan x = false) totals)).
  set (m := np_sum (map (fun x => if is_nan x then 0 else x) totals) / Z2F (Z.of_nat n)).
  set (s := if (n <=? 1)%nat then nan else _).
  assert (mean totals = m) as Hmean by reflexivity.
  assert (std totals = s) as Hstd by reflexivity.
  split; [apply judge_z_scores_scored|].
  intros zr Hzr.
  split; [|split; [|split]].
  - intros Hlen Hs. rewrite (judge_z_scores_many part zr Hlen Hzr).
    fold totals. rewrite Hmean, Hstd, Hs. reflexivity.
  - intros Hlen Hs. rewrite (judge_z_scores_many part zr Hlen Hzr).
    fold totals. rewrite Hstd.
    rewrite (ltb_eqb_false 0 s 0); [reflexivity | reflexivity | exact Hs].
  - intros Hlen Hs. rewrite (judge_z_scores_many part zr Hlen Hzr).
    fold totals. rewrite Hstd, Hs. reflexivity.
  - intros Hlen. apply (judge_z_scores_single part zr Hlen Hzr).
Qed.

End ZScores.

(** * The worked examples *)

(** C5. One judge scores Alpha 50 + 30 = 80 and Beta 40 + 20 = 60 on a
    fresh ledger. The engine finds raw totals 80 and 60, mean 70, sample
    standard deviation [sqrt 200] (between 14.14 and 14.15), z-scores
    [10 / sqrt 200] (between 0.707 and 0.7072) and its opposite, and ranks
    Alpha with 61.79 before Beta with 38.21. When the judge gives both
    entries the same total, both z-scores are 0 and both normalized scores
    are 50. *)
Theorem single_judge_two_entries :
  let c1 := {| crit_id := "c1"; crit_name := "Innovation"; crit_max_score := 50 |} in
  let c2 := {| crit_id := "c2"; crit_name := "Design"; crit_max_score := 50 |} in
  let sub t id nm a b :=
    {| sub_criteria := [c1; c2]; sub_now := t; sub_judge := "J";
       sub_team_id := id; sub_team_name := nm;
       sub_scores := <["c1" := a]> (<["c2" := b]> ∅) |} in
  let staged st :=
    result_bind (add_total_raw ["c1"; "c2"]
                   (fold_left (convert_column to_numeric_int) ["c1"; "c2"]
                      (DictReader (default [] st))))
      (fun df => result_bind (judge_frames df)
         (fun frames =>
            Ok (map (fun r => (total_raw (scored r), z_score r)) (concat frames)))) in
  let st := run_submissions [sub "t1" "alpha" "Alpha" 50%Z 30%Z;
                             sub "t2" "beta" "Beta" 40%Z 20%Z] None in
  let st' := run_submissions [sub "t1" "alpha" "Alpha" 40%Z 40%Z;
                              sub "t2" "beta" "Beta" 55%Z 25%Z] None in
  mean [80; 60] = 70 /\
  std [80; 60] = sqrt 200 /\
  (14.14 <? std [80; 60]) = true /\ (std [80; 60] <? 14.15) = true /\
  staged st = Ok [(80, (80 - 70) / sqrt 200); (60, (60 - 70) / sqrt 200)] /\
  (0.707 <? (80 - 70) / sqrt 200) = true /\ ((80 - 70) / sqrt 200 <? 0.7072) = true /\
  (-0.7072 <? (60 - 70) / sqrt 200) = true /\ ((60 - 70) / sqrt 200 <? -0.707) = true /\
  normalize_z ((80 - 70) / sqrt 200) = 61.79 /\
  normalize_z ((60 - 70) / sqrt 200) = 38.21 /\
  fst (normalize_scores to_numeric_int [c1; c2] st) =
    Ok [ {| team_id := VStr "alpha"; team_name := VStr "Alpha";
            avg_raw_score := 80; avg_normalized_score := 61.79; num_judges := 1;
            judge_scores := [ {| js_judge := VStr "J"; js_raw_score := 80;
                                 js_normalized_score := 61.79 |} ] |};
         {| team_id := VStr "beta"; team_name := VStr "Beta";
            avg_raw_score := 60; avg_normalized_score := 38.21; num_judges := 1;
            judge_scores := [ {| js_judge := VStr "J"; js_raw_score := 60;
                                 js_normalized_score := 38.21 |} ] |} ] /\
  staged st' = Ok [(80, 0); (80, 0)] /\
  map (fun t => (team_id t, map js_normalized_score (judge_scores t)))
      (match fst (normalize_scores to_numeric_int [c1; c2] st') with
       | Ok l => l
       | Raise _ => []
       end)
  = [(VStr "alpha", [50]); (VStr "beta", [50])].
Proof. repeat split; vm_compute; reflexivity. Qed.

(** * Rounding: the range of the normalized score *)

Section ShiftAndRound.

Local Open Scope Z_scope.

Lemma digits2_pos_bounds (m : positive) :
  2 ^ (Z.pos (digits2_pos m) - 1) <= Z.pos m < 2 ^ Z.pos (digits2_pos m).
Proof.
  induction m as [m IH|m IH|]; simpl digits2_pos.
  - rewrite Pos2Z.inj_succ, Z.pow_succ_r by lia.
    replace (Z.succ (Z.pos (digits2_pos m)) - 1) with (Z.succ (Z.pos (digits2_pos m) - 1)) by lia.
    rewrite Z.pow_succ_r by lia. lia.
  - rewrite Pos2Z.inj_succ, Z.pow_succ_r by lia.
    replace (Z.succ (Z.pos (digits2_pos m)) - 1) with (Z.succ (Z.pos (digits2_pos m) - 1)) by lia.
    rewrite Z.pow_succ_r by lia. lia.
  - simpl. lia.
Qed.

(** shr_1 halves the mantissa. *)
Lemma shr_1_m mrs : 0 <= shr_m mrs -> shr_m (shr_1 mrs) = shr_m mrs / 2.
Proof.
  destruct mrs as [m r s]. simpl. intros Hm.
  rewrite <- Z.div2_div.
  destruct m as [|[p|p|]|p]; try reflexivity; lia.
Qed.

Lemma shr_1_r mrs : 0 <= shr_m mrs -> shr_r (shr_1 mrs) = Z.odd (shr_m mrs).
Proof.
  destruct mrs as [m r s]. simpl. intros Hm.
  destruct m as [|[p|p|]|p]; try reflexivity; lia.
Qed.

Lemma shr_1_s mrs : shr_s (shr_1 mrs) = shr_r mrs || shr_s mrs.
Proof.
  destruct mrs as [m r s]. simpl.
  destruct m as [|[p|p|]|[p|p|]]; reflexivity.
Qed.

Lemma shifted_step mx j mrs :
  0 <= mx -> 0 <= j -> shifted mx j mrs -> shifted mx (j + 1) (shr_1 mrs).
Proof.
  intros Hmx Hj [Hm Hrs].
  assert (0 < 2 ^ j) as Hpow by (apply Z.pow_pos_nonneg; lia).
  assert (0 <= shr_m mrs) as Hnn by (rewrite Hm; apply Z.div_pos; lia).
  assert (2 ^ (j + 1) = 2 ^ j * 2) as Hsucc by (rewrite Z.pow_add_r by lia; reflexivity).
  split.
  - rewrite shr_1_m by exact Hnn. rewrite Hm, Hsucc.
    rewrite Z.div_div by lia. reflexivity.
  - intros Hmod. rewrite Hsucc in Hmod.
    apply Z.div_exact in Hmod; [|lia].
    assert (mx = 2 ^ j * (2 * (mx / (2 ^ j * 2)))) as Hmx2 by lia.
    assert (mx mod 2 ^ j = 0) as Hmodj.
    { rewrite Hmx2, Z.mul_comm. apply Z.mod_mul. lia. }
    destruct (Hrs Hmodj) as [Hr Hs].
    rewrite shr_1_r by exact Hnn. rewrite shr_1_s, Hr, Hs. split; [|reflexivity].
    rewrite Hm. rewrite Hmx2 at 1. rewrite Z.mul_comm, Z.div_mul by lia.
    rewrite Z.odd_mul. reflexivity.
Qed.

Lemma shifted_iter mx p : 
  0 <= mx -> forall j mrs, 0 <= j -> shifted mx j mrs ->
  shifted mx (j + Z.pos p) (SpecFloat.iter_pos shr_1 p mrs).
Proof.
  intros Hmx. induction p as [p IH|p IH|]; intros j mrs Hj Hs; simpl.
  - replace (j + Z.pos p~1) with (((j + 1) + Z.pos p) + Z.pos p) by lia.
    apply IH; [lia|]. apply IH; [lia|]. apply shifted_step; assumption.
  - replace (j + Z.pos p~0) with ((j + Z.pos p) + Z.pos p) by lia.
    apply IH; [lia|]. apply IH; assumption.
  - apply shifted_step; assumption.
Qed.

Lemma shifted_start mx : shifted mx 0 (shr_record_of_loc mx loc_Exact).
Proof.
  split; simpl; [rewrite Z.div_1_r; reflexivity | auto].
Qed.

(** shr_fexp from an exact location. *)
Lemma shr_fexp_exact mx ex :
  0 <= mx ->
  let k := fexp prec emax (Zdigits2 mx + ex) - ex in
  exists mrs,
    shr_fexp prec emax mx ex loc_Exact = (mrs, if 0 <? k then ex + k else ex) /\
    shifted mx (if 0 <? k then k else 0) mrs.
Proof.
  intros Hmx k. unfold shr_fexp. fold k. unfold shr.
  destruct k as [|p|p] eqn:Hk; simpl.
  - eexists. split; [reflexivity | apply shifted_start].
  - eexists. split; [reflexivity|].
    apply (shifted_iter mx p Hmx 0); [lia | apply shifted_start].
  - eexists. split; [reflexivity | apply shifted_start].
Qed.

Lemma round_nearest_even_bounds m l :
  m <= round_nearest_even m l <= m + 1 /\
  (l = loc_Exact -> round_nearest_even m l = m).
Proof.
  destruct l as [|[| |]]; simpl; try destruct (Z.even m); split; try lia; auto; discriminate.
Qed.

Lemma loc_exact mrs :
  shr_r mrs = false -> shr_s mrs = false -> loc_of_shr_record mrs = loc_Exact.
Proof. destruct mrs as [m r s]; simpl; intros -> ->; reflexivity. Qed.

Lemma fexp_64 x : fexp prec emax x = Z.max (x - 53) (-1074).
Proof. reflexivity. Qed.

Lemma shift_round_le mx k T mrs :
  0 <= mx -> 0 <= k -> shifted mx k mrs -> mx <= T * 2 ^ k ->
  0 <= shr_m mrs <= T /\
  0 <= round_nearest_even (shr_m mrs) (loc_of_shr_record mrs) <= T.
Proof.
  intros Hmx Hk [Hm Hrs] Hle.
  assert (0 < 2 ^ k) as Hpow by (apply Z.pow_pos_nonneg; lia).
  pose proof (Z.mul_div_le mx (2 ^ k) Hpow) as Hq.
  assert (0 <= mx / 2 ^ k) as Hq0 by (apply Z.div_pos; lia).
  assert (mx / 2 ^ k <= T) as HqT by (apply Z.div_le_upper_bound; lia).
  rewrite Hm. split; [lia|].
  destruct (round_nearest_even_bounds (mx / 2 ^ k) (loc_of_shr_record mrs)) as [Hb Hex].
  destruct (Z.eq_dec (mx / 2 ^ k) T) as [HeqT|Hne]; [|lia].
  rewrite Hex; [lia|].
  assert (mx = T * 2 ^ k) as Hmxeq by (rewrite HeqT in Hq; lia).
  destruct Hrs as [Hr Hs]; [rewrite Hmxeq; apply Z.mod_mul; lia|].
  apply loc_exact; assumption.
Qed.

Lemma Zdigits2_le mx ex :
  0 <= mx -> ex <= -39 -> mx <= 10000 * 2 ^ (- ex) -> Zdigits2 mx + ex <= 14.
Proof.
  intros Hmx Hex Hle. destruct mx as [|p|p]; [simpl; lia| |lia].
  unfold Zdigits2.
  destruct (digits2_pos_bounds p) as [Hlo _].
  assert (2 ^ (Z.pos (digits2_pos p) - 1) < 2 ^ (14 - ex)) as Hlt.
  { eapply Z.le_lt_trans; [exact Hlo|]. eapply Z.le_lt_trans; [exact Hle|].
    replace (14 - ex) with (14 + - ex) by lia. rewrite Z.pow_add_r by lia.
    assert (0 < 2 ^ (- ex)) by (apply Z.pow_pos_nonneg; lia).
    change (2 ^ 14) with 16384. lia. }
  apply Z.pow_lt_mono_r_iff in Hlt; lia.
Qed.

(** One normalisation of an exact mantissa that stands for at most 10000. *)
Lemma shr_fexp_le mx ex :
  0 <= mx -> ex <= -39 -> mx <= 10000 * 2 ^ (- ex) ->
  exists mrs e',
    shr_fexp prec emax mx ex loc_Exact = (mrs, e') /\
    e' <= -39 /\
    0 <= shr_m mrs <= 10000 * 2 ^ (- e') /\
    0 <= round_nearest_even (shr_m mrs) (loc_of_shr_record mrs) <= 10000 * 2 ^ (- e').
Proof.
  intros Hmx Hex Hle.
  pose proof (Zdigits2_le mx ex Hmx Hex Hle) as Hd.
  destruct (shr_fexp_exact mx ex Hmx) as (mrs & Heq & Hsh).
  rewrite fexp_64 in Heq, Hsh.
  set (k := Z.max (Zdigits2 mx + ex - 53) (-1074) - ex) in *.
  exists mrs. eexists. split; [exact Heq|].
  destruct (0 <? k) eqn:Hk.
  - apply Z.ltb_lt in Hk. split; [lia|].
    apply (shift_round_le mx k); [lia | lia | exact Hsh |].
    replace (- ex) with (- (ex + k) + k) in Hle by lia.
    rewrite Z.pow_add_r, Z.mul_assoc in Hle by lia. exact Hle.
  - split; [lia|].
    apply (shift_round_le mx 0); [lia | lia | exact Hsh | rewrite Z.pow_0_r; lia].
Qed.

Lemma binary_round_aux_le mx ex :
  0 <= mx -> ex <= -39 -> mx <= 10000 * 2 ^ (- ex) ->
  binary_round_aux prec emax false mx ex loc_Exact = S754_zero false \/
  exists m e,
    binary_round_aux prec emax false mx ex loc_Exact = S754_finite false m e /\
    e <= -39 /\ Z.pos m <= 10000 * 2 ^ (- e).
Proof.
  intros Hmx Hex Hle. unfold binary_round_aux.
  destruct (shr_fexp_le mx ex Hmx Hex Hle) as (mrs' & e' & -> & He' & _ & Hrne).
  destruct (shr_fexp_le _ e' (proj1 Hrne) He' (proj2 Hrne))
    as (mrs'' & e'' & -> & He'' & Hm'' & _).
  destruct (shr_m mrs'') as [|m|m]; [left; reflexivity | | lia].
  right. exists m, e''.
  assert ((e'' <=? emax - prec) = true) as -> by (apply Z.leb_le; change (emax - prec) with 971; lia).
  split; [reflexivity|]. split; [exact He'' | lia].
Qed.

Lemma round_half_even_le m k :
  0 <= m -> 0 < k -> m <= 10000 * 2 ^ k -> 0 <= round_half_even m k <= 10000.
Proof.
  intros Hm Hk Hle. unfold round_half_even.
  rewrite Z.shiftr_div_pow2, !Z.shiftl_mul_pow2 by lia.
  assert (0 < 2 ^ k) as Hpow by (apply Z.pow_pos_nonneg; lia).
  assert (0 < 2 ^ (k - 1)) as Hhalf by (apply Z.pow_pos_nonneg; lia).
  pose proof (Z.mul_div_le m (2 ^ k) Hpow) as Hq.
  assert (0 <= m / 2 ^ k) as Hq0 by (apply Z.div_pos; lia).
  assert (m / 2 ^ k <= 10000) as HqT by (apply Z.div_le_upper_bound; lia).
  destruct (Z.eq_dec (m / 2 ^ k) 10000) as [Heq|Hne].
  - rewrite Heq in *. assert (m - 10000 * 2 ^ k = 0) as -> by lia.
    rewrite Z.mul_1_l. 
    destruct (Z.compare_spec 0 (2 ^ (k - 1))); lia.
  - destruct (_ ?= _); try destruct (Z.even _); lia.
Qed.

Lemma iter_shr_1_nonneg p : forall mrs, 0 <= shr_m mrs -> 0 <= shr_m (SpecFloat.iter_pos shr_1 p mrs).
Proof.
  assert (forall mrs, 0 <= shr_m mrs -> 0 <= shr_m (shr_1 mrs)) as Hstep.
  { intros mrs H. rewrite shr_1_m by exact H. apply Z.div_pos; lia. }
  induction p as [p IH|p IH|]; intros mrs H; simpl; auto.
Qed.

Lemma shr_fexp_nonneg m e l :
  0 <= m -> 0 <= shr_m (fst (shr_fexp prec emax m e l)).
Proof.
  intros Hm. unfold shr_fexp, shr.
  assert (shr_m (shr_record_of_loc m l) = m) as Hstart
    by (destruct l as [|[| |]]; reflexivity).
  destruct (fexp _ _ _ - e); simpl; rewrite ?Hstart; try exact Hm.
  apply iter_shr_1_nonneg. rewrite Hstart. exact Hm.
Qed.

Lemma binary_round_aux_not_nan s mx ex lx :
  0 <= mx -> binary_round_aux prec emax s mx ex lx <> S754_nan.
Proof.
  intros Hmx. unfold binary_round_aux.
  pose proof (shr_fexp_nonneg mx ex lx Hmx) as H1.
  destruct (shr_fexp prec emax mx ex lx) as [mrs' e']. simpl in H1.
  pose proof (round_nearest_even_bounds (shr_m mrs') (loc_of_shr_record mrs')) as [Hb _].
  pose proof (shr_fexp_nonneg (round_nearest_even (shr_m mrs') (loc_of_shr_record mrs'))
                e' loc_Exact ltac:(lia)) as H2.
  destruct (shr_fexp prec emax _ e' loc_Exact) as [mrs'' e'']. simpl in H2.
  destruct (shr_m mrs'') as [|m|m]; [discriminate | | lia].
  destruct (_ <=? _); discriminate.
Qed.

Lemma binary_normalize_not_nan m e sz : binary_normalize prec emax m e sz <> S754_nan.
Proof.
  unfold binary_normalize, binary_round.
  destruct m as [|m|m]; [discriminate| |];
    destruct (shl_align _ _ _) as [mz ez]; apply binary_round_aux_not_nan; lia.
Qed.

Lemma SFadd_not_nan u s m e :
  u <> S754_nan -> SFadd prec emax u (S754_finite s m e) <> S754_nan.
Proof.
  intros Hu. destruct u as [su|su| |su mu eu]; simpl; try discriminate; try congruence.
  apply binary_normalize_not_nan.
Qed.

Lemma SFmul_not_nan u s m e :
  u <> S754_nan -> SFmul prec emax u (S754_finite s m e) <> S754_nan.
Proof.
  intros Hu. destruct u as [su|su| |su mu eu]; simpl; try discriminate; try congruence.
  apply binary_round_aux_not_nan. lia.
Qed.

Lemma SFdiv_not_nan u s m e :
  u <> S754_nan -> SFdiv prec emax u (S754_finite s m e) <> S754_nan.
Proof.
  intros Hu. destruct u as [su|su| |su mu eu]; simpl; try discriminate; try congruence.
  unfold SFdiv_core_binary.
  set (m' := match _ - _ - _ with Z.pos _ => _ | Z0 => _ | Z.neg _ => _ end).
  assert (0 <= m') as Hm'.
  { subst m'. destruct (_ - _ - _); try lia. apply Z.shiftl_nonneg. lia. }
  pose proof (Z.div_pos m' (Z.pos m) Hm' ltac:(lia)) as Hq.
  unfold Z.div in Hq. destruct (Z.div_eucl m' (Z.pos m)) as [q r]. simpl in Hq.
  apply binary_round_aux_not_nan. exact Hq.
Qed.

End ShiftAndRound.

Section NormalizedRange.

Implicit Types (c x z : float).

Lemma hundredths_in_range : forallb hundredth_in_range (seq 0 (Z.to_nat 10001)) = true.
Proof. vm_compute. reflexivity. Qed.

Lemma hundredth_range (n : Z) :
  (0 <= n <= 10000)%Z ->
  (0 <=? Z2F n / 100) = true /\ (Z2F n / 100 <=? 100) = true.
Proof.
  intros Hn.
  pose proof hundredths_in_range as Hall.
  rewrite forallb_forall in Hall.
  specialize (Hall (Z.to_nat n)).
  unfold hundredth_in_range in Hall. rewrite Z2Nat.id in Hall by lia.
  apply andb_true_iff, Hall. apply in_seq. lia.
Qed.

Lemma Prim2SF_0 : Prim2SF 0 = S754_zero false.
Proof. reflexivity. Qed.

Lemma Prim2SF_100 : Prim2SF 100 = S754_finite false 7036874417766400 (-46).
Proof. vm_compute. reflexivity. Qed.

Lemma valid_mantissa_53 s m e :
  valid_binary (S754_finite s m e) = true -> (Z.pos m < 2 ^ 53)%Z.
Proof.
  simpl. unfold bounded, canonical_mantissa. rewrite fexp_64.
  intros H. apply andb_true_iff in H as [H _]. apply Z.eqb_eq in H.
  destruct (digits2_pos_bounds m) as [_ Hhi].
  eapply Z.lt_le_trans; [exact Hhi|].
  apply Z.pow_le_mono_r; lia.
Qed.

(** A binary64 value between 0 and 100 is a zero or a positive finite value
    of at most 100. *)
Lemma between_0_100 c :
  (0 <=? c) = true -> (c <=? 100) = true ->
  (exists s, Prim2SF c = S754_zero s) \/
  exists m e, Prim2SF c = S754_finite false m e /\
              (e <= -46)%Z /\ (Z.pos m <= 100 * 2 ^ (- e))%Z.
Proof.
  intros H0 H100.
  pose proof (Prim2SF_valid c) as Hval.
  apply leb_rank in H0 as (_ & _ & H0). apply leb_rank in H100 as (Hnn & _ & H100).
  rewrite Prim2SF_0 in H0. rewrite Prim2SF_100 in H100.
  unfold lexlt, lexeq in *.
  destruct (Prim2SF c) as [s|s| |s m e]; simpl in H0, H100.
  - left. eauto.
  - destruct s; lia.
  - congruence.
  - destruct s; [lia|]. right. exists m, e. split; [reflexivity|].
    apply valid_mantissa_53 in Hval.
    assert (e = -46 /\ Z.pos m <= 7036874417766400 \/ e < -46)%Z as [[-> Hm]|He] by lia.
    + split; [lia|]. change (2 ^ (- -46))%Z with 70368744177664%Z. lia.
    + split; [lia|].
      assert (2 ^ 47 <= 2 ^ (- e))%Z as Hpow by (apply Z.pow_le_mono_r; lia).
      change (2 ^ 47)%Z with 140737488355328%Z in Hpow.
      change (2 ^ 53)%Z with 9007199254740992%Z in Hval. lia.
Qed.

Lemma round2_in_range c :
  (0 <=? c) = true -> (c <=? 100) = true ->
  (0 <=? round2 c) = true /\ (round2 c <=? 100) = true.
Proof.
  intros H0 H100.
  destruct (between_0_100 c H0 H100) as [[s Hc]|(m & e & Hc & He & Hm)].
  - rewrite <- (SF2Prim_Prim2SF c), Hc. destruct s; vm_compute; auto.
  - assert (Prim2SF (c * 100)
            = binary_round_aux prec emax false (Z.pos (m * 7036874417766400)) (e + -46)
                loc_Exact) as Hy.
    { rewrite mul_spec, Hc, Prim2SF_100. reflexivity. }
    destruct (binary_round_aux_le (Z.pos (m * 7036874417766400)) (e + -46))
      as [Hz|(m' & e' & Hf & He' & Hm')]; try lia.
    { rewrite Pos2Z.inj_mul.
      replace (- (e + -46))%Z with (- e + 46)%Z by lia.
      rewrite Z.pow_add_r by lia. change (2 ^ 46)%Z with 70368744177664%Z. lia. }
    + rewrite Hz in Hy. unfold round2, rint. rewrite Hy.
      rewrite <- (SF2Prim_Prim2SF (c * 100)), Hy. vm_compute. auto.
    + rewrite Hf in Hy. unfold round2, rint. rewrite Hy.
      assert ((0 <=? e')%Z = false) as -> by (apply Z.leb_gt; lia).
      apply (hundredth_range (round_half_even (Z.pos m') (- e'))).
      apply round_half_even_le; lia.
Qed.

Lemma Prim2SF_3 : Prim2SF 3 = S754_finite false 6755399441055744 (-51).
Proof. vm_compute. reflexivity. Qed.

Lemma Prim2SF_6 : Prim2SF 6 = S754_finite false 6755399441055744 (-50).
Proof. vm_compute. reflexivity. Qed.

Lemma scaled_not_nan z : is_nan z = false -> is_nan ((z + 3) / 6 * 100) = false.
Proof.
  rewrite !is_nan_rank. intros Hz.
  rewrite mul_spec, div_spec, add_spec, Prim2SF_3, Prim2SF_6, Prim2SF_100.
  apply SFmul_not_nan, SFdiv_not_nan, SFadd_not_nan, Hz.
Qed.

Lemma clip_range x :
  is_nan x = false -> (0 <=? clip x 0 100) = true /\ (clip x 0 100 <=? 100) = true.
Proof.
  intros Hx. unfold clip. rewrite Hx.
  destruct (0 <=? x) eqn:H0.
  - destruct (x <=? 100) eqn:H100; [auto|]. split; reflexivity.
  - change (0 <=? 100) with true. cbv iota. split; reflexivity.
Qed.

Lemma normalize_z_range z :
  is_nan z = false ->
  (0 <=? normalize_z z) = true /\ (normalize_z z <=? 100) = true.
Proof.
  intros Hz. unfold normalize_z.
  destruct (clip_range _ (scaled_not_nan z Hz)) as [H0 H100].
  apply round2_in_range; assumption.
Qed.

Lemma normalize_z_zero z : (z =? 0) = true -> normalize_z z = 50.
Proof.
  intros Hz. apply eqb_rank in Hz as (Hnn & _ & Hz).
  rewrite Prim2SF_0 in Hz. unfold lexeq in Hz.
  rewrite <- (SF2Prim_Prim2SF z).
  destruct (Prim2SF z) as [s|s| |s m e]; simpl in Hz.
  - destruct s; vm_compute; reflexivity.
  - destruct s; lia.
  - congruence.
  - destruct s; lia.
Qed.

End NormalizedRange.

Section Hundredths.

Lemma round_half_even_nearest (m j : Z) :
  (0 <= m)%Z -> (0 < j)%Z ->
  (2 * Z.abs (round_half_even m j * 2 ^ j - m) < 2 ^ j)%Z \/
  ((2 * Z.abs (round_half_even m j * 2 ^ j - m) = 2 ^ j)%Z /\
   Z.even (round_half_even m j) = true).
Proof.
  intros Hm Hj. unfold round_half_even.
  rewrite Z.shiftr_div_pow2, !Z.shiftl_mul_pow2 by lia.
  assert (0 < 2 ^ (j - 1))%Z as Hhalf by (apply Z.pow_pos_nonneg; lia).
  assert (2 ^ j = 2 * 2 ^ (j - 1))%Z as Hpow.
  { replace j with (Z.succ (j - 1)) at 1 by lia. apply Z.pow_succ_r. lia. }
  pose proof (Z.div_mod m (2 ^ j) ltac:(lia)) as Hdiv.
  pose proof (Z.mod_pos_bound m (2 ^ j) ltac:(lia)) as Hmod.
  set (q := (m / 2 ^ j)%Z) in *. set (r := (m mod 2 ^ j)%Z) in *.
  assert (m - q * 2 ^ j = r)%Z as -> by lia.
  rewrite Z.mul_1_l.
  destruct (Z.compare_spec r (2 ^ (j - 1))) as [Heq|Hlt|Hgt].
  - right. destruct (Z.even q) eqn:Hq.
    + split; [lia | exact Hq].
    + split; [lia|]. rewrite Z.even_add, Hq. reflexivity.
  - left. lia.
  - left. lia.
Qed.

Lemma leb_eqb_refl (x y : float) : (x <=? y) = true -> (y =? y) = true.
Proof.
  intros H. apply leb_rank in H as (_ & Hy & _). apply eqb_rank.
  unfold lexeq. auto.
Qed.

(** [round2] of a value between 0 and 100 is a hundredth: the integer
    nearest to the value times 100, over 100. *)
Lemma round2_hundredth (c : float) :
  (0 <=? c) = true -> (c <=? 100) = true ->
  exists k : Z,
    (0 <= k <= 10000)%Z /\
    nearest_integer k (Prim2SF (c * 100)) /\
    (round2 c =? Z2F k / 100) = true.
Proof.
  intros H0 H100.
  destruct (between_0_100 c H0 H100) as [[s Hc]|(m & e & Hc & He & Hm)].
  - exists 0%Z. split; [lia|]. split.
    + rewrite mul_spec, Hc, Prim2SF_100. destruct s; reflexivity.
    + rewrite <- (SF2Prim_Prim2SF c), Hc. destruct s; vm_compute; reflexivity.
  - assert (Prim2SF (c * 100)
            = binary_round_aux prec emax false (Z.pos (m * 7036874417766400)) (e + -46)
                loc_Exact) as Hy.
    { rewrite mul_spec, Hc, Prim2SF_100. reflexivity. }
    destruct (binary_round_aux_le (Z.pos (m * 7036874417766400)) (e + -46))
      as [Hz|(m' & e' & Hf & He' & Hm')]; try lia.
    { rewrite Pos2Z.inj_mul.
      replace (- (e + -46))%Z with (- e + 46)%Z by lia.
      rewrite Z.pow_add_r by lia. change (2 ^ 46)%Z with 70368744177664%Z. lia. }
    + rewrite Hz in Hy. exists 0%Z. split; [lia|]. split.
      * rewrite Hy. reflexivity.
      * unfold round2, rint. rewrite Hy.
        rewrite <- (SF2Prim_Prim2SF (c * 100)), Hy. vm_compute. reflexivity.
    + rewrite Hf in Hy.
      exists (round_half_even (Z.pos m') (- e')).
      assert (0 <= round_half_even (Z.pos m') (- e') <= 10000)%Z as Hk
        by (apply round_half_even_le; lia).
      split; [exact Hk|]. split.
      * rewrite Hy. unfold nearest_integer.
        assert ((0 <=? e')%Z = false) as -> by (apply Z.leb_gt; lia).
        apply round_half_even_nearest; lia.
      * unfold round2, rint. rewrite Hy.
        assert ((0 <=? e')%Z = false) as -> by (apply Z.leb_gt; lia).
        apply (leb_eqb_refl 0). apply (hundredth_range _ Hk).
Qed.

Lemma normalize_z_hundredth (z : float) :
  is_nan z = false ->
  exists k : Z,
    (0 <= k <= 10000)%Z /\
    nearest_integer k (Prim2SF (clip ((z + 3) / 6 * 100) 0 100 * 100)) /\
    (normalize_z z =? Z2F k / 100) = true.
Proof.
  intros Hz. unfold normalize_z.
  destruct (clip_range _ (scaled_not_nan z Hz)) as [H0 H100].
  apply round2_hundredth; assumption.
Qed.

End Hundredths.



(** * Records read back from the ledger *)

Section DictReaderLaws.

Implicit Types (d : dict) (k : string) (r : row).

Lemma foldl_pairs_other (l : list (string * string)) d k :
  k ∉ map fst l ->
  foldl (fun d kv => <[Some (fst kv) := VStr (snd kv)]> d) d l !! Some k = d !! Some k.
Proof.
  revert d. induction l as [|[k' v] l IH]; intros d Hk; simpl; [reflexivity|].
  simpl in Hk. apply not_elem_of_cons in Hk as [Hne Hk].
  rewrite IH by exact Hk. rewrite lookup_insert_ne by congruence. reflexivity.
Qed.

Lemma foldl_none_other (ks : list string) d k :
  k ∉ ks -> foldl (fun d k => <[Some k := VNone]> d) d ks !! Some k = d !! Some k.
Proof.
  revert d. induction ks as [|k' ks IH]; intros d Hk; simpl; [reflexivity|].
  apply not_elem_of_cons in Hk as [Hne Hk].
  rewrite IH by exact Hk. rewrite lookup_insert_ne by congruence. reflexivity.
Qed.

Lemma foldl_none_in (ks : list string) d k :
  k ∈ ks -> foldl (fun d k => <[Some k := VNone]> d) d ks !! Some k = Some VNone.
Proof.
  revert d. induction ks as [|k' ks IH]; intros d Hk; simpl; [inversion Hk|].
  destruct (decide (k ∈ ks)) as [Hin|Hnin]; [apply IH, Hin|].
  apply elem_of_cons in Hk as [->|Hk]; [|contradiction].
  rewrite foldl_none_other by exact Hnin. apply lookup_insert_eq.
Qed.

Lemma zip_fst_sub (ks : list string) (vs : list string) k :
  k ∈ map fst (zip ks vs) -> k ∈ ks.
Proof.
  revert vs. induction ks as [|k' ks IH]; intros [|v vs]; simpl; try (intros H; inversion H; fail).
  intros H. apply elem_of_cons in H as [->|H]; [constructor|].
  constructor. eapply IH, H.
Qed.

Lemma drop_sub {A} (l : list A) n x : x ∈ drop n l -> x ∈ l.
Proof.
  intros H. apply list_elem_of_lookup in H as [i Hi].
  rewrite lookup_drop in Hi. eapply list_elem_of_lookup_2, Hi.
Qed.

(** The law of [DictReader]: a field name that does not occur again further
    right names the cell at its own index, and [None] when the row is too
    short. *)
Lemma dict_of_row_lookup (h1 : list string) k (h2 : list string) r :
  k ∉ h2 ->
  dict_of_row (h1 ++ k :: h2) r !! Some k
  = Some (match r !! length h1 with Some v => VStr v | None => VNone end).
Proof.
  intros Hk. unfold dict_of_row.
  destruct (r !! length h1) as [v|] eqn:Hv.
  - assert (r = take (length h1) r ++ v :: drop (S (length h1)) r) as Hr.
    { rewrite <- (take_drop (length h1) r) at 1. f_equal.
      erewrite drop_S by exact Hv. reflexivity. }
    pose proof (lookup_lt_Some _ _ _ Hv) as Hlt.
    assert (length (take (length h1) r) = length h1) as Hlen
      by (rewrite length_take; lia).
    set (r1 := take (length h1) r) in *. set (r2 := drop (S (length h1)) r) in *.
    rewrite Hr. rewrite (zip_with_app pair h1 (k :: h2) r1 (v :: r2)) by (symmetry; exact Hlen).
    simpl. rewrite foldl_app. simpl.
    assert (forall d0 : dict,
              foldl (fun d kv => <[Some (fst kv) := VStr (snd kv)]> d)
                (<[Some k := VStr v]> d0) (zip_with pair h2 r2) !! Some k
              = Some (VStr v)) as Hbase.
    { intros d0. rewrite foldl_pairs_other; [apply lookup_insert_eq|].
      intros Hin. apply Hk. eapply zip_fst_sub, Hin. }
    destruct (_ <? _)%nat eqn:Hcmp.
    + rewrite lookup_insert_ne by discriminate. apply Hbase.
    + rewrite foldl_none_other; [apply Hbase|].
      intros Hin. apply Hk.
      apply list_elem_of_lookup in Hin as [i Hi].
      rewrite lookup_drop in Hi.
      rewrite !length_app in Hi. simpl in Hi.
      rewrite lookup_app_r in Hi by lia.
      replace (length r1 + S (length r2) + i - length h1)%nat
        with (S (length r2 + i)) in Hi by lia.
      simpl in Hi. eapply list_elem_of_lookup_2, Hi.
  - apply lookup_ge_None in Hv.
    assert ((length (h1 ++ k :: h2) <? length r)%nat = false) as ->
      by (apply Nat.ltb_ge; rewrite length_app; simpl; lia).
    apply foldl_none_in.
    apply list_elem_of_lookup. exists (length h1 - length r)%nat.
    rewrite lookup_drop. rewrite lookup_app_r by lia.
    replace (length r + (length h1 - length r) - length h1)%nat with 0%nat by lia.
    reflexivity.
Qed.

End DictReaderLaws.

Section LedgerRecords.

Implicit Types (st : store) (r : row) (s : submission) (ids : list string) (j t J : string).

Lemma ids_ok_not_in ids k : ids_ok ids -> k ∈ fixed_columns -> k ∉ ids.
Proof. intros Hok Hk. unfold ids_ok in Hok. rewrite Forall_forall in Hok. auto. Qed.

Lemma cell_judge ids r :
  ids_ok ids ->
  cell (dict_of_row (fixed_columns ++ ids) r) "judge"
  = match r !! 1%nat with Some v => VStr v | None => VNone end.
Proof.
  intros Hok. unfold cell.
  change (fixed_columns ++ ids)
    with (["timestamp"] ++ "judge" :: ["team_id"; "team_name"] ++ ids).
  rewrite dict_of_row_lookup; [reflexivity|].
  intros Hin. apply elem_of_app in Hin as [Hin|Hin].
  - repeat (apply elem_of_cons in Hin as [Hin|Hin]; [discriminate Hin|]). inversion Hin.
  - revert Hin. apply ids_ok_not_in; [exact Hok | repeat constructor].
Qed.

Lemma cell_team_id ids r :
  ids_ok ids ->
  cell (dict_of_row (fixed_columns ++ ids) r) "team_id"
  = match r !! 2%nat with Some v => VStr v | None => VNone end.
Proof.
  intros Hok. unfold cell.
  change (fixed_columns ++ ids)
    with (["timestamp"; "judge"] ++ "team_id" :: ["team_name"] ++ ids).
  rewrite dict_of_row_lookup; [reflexivity|].
  intros Hin. apply elem_of_app in Hin as [Hin|Hin].
  - repeat (apply elem_of_cons in Hin as [Hin|Hin]; [discriminate Hin|]). inversion Hin.
  - revert Hin. apply ids_ok_not_in; [exact Hok | repeat constructor].
Qed.

Lemma cell_team_name ids r :
  ids_ok ids ->
  cell (dict_of_row (fixed_columns ++ ids) r) "team_name"
  = match r !! 3%nat with Some v => VStr v | None => VNone end.
Proof.
  intros Hok. unfold cell.
  change (fixed_columns ++ ids)
    with (["timestamp"; "judge"; "team_id"] ++ "team_name" :: ids).
  rewrite dict_of_row_lookup; [reflexivity|].
  apply ids_ok_not_in; [exact Hok | repeat constructor].
Qed.

Lemma cell_timestamp ids r :
  ids_ok ids ->
  cell (dict_of_row (fixed_columns ++ ids) r) "timestamp"
  = match r !! 0%nat with Some v => VStr v | None => VNone end.
Proof.
  intros Hok. unfold cell.
  change (fixed_columns ++ ids)
    with ([] ++ "timestamp" :: ["judge"; "team_id"; "team_name"] ++ ids).
  rewrite dict_of_row_lookup; [reflexivity|].
  intros Hin. apply elem_of_app in Hin as [Hin|Hin].
  - repeat (apply elem_of_cons in Hin as [Hin|Hin]; [discriminate Hin|]). inversion Hin.
  - revert Hin. apply ids_ok_not_in; [exact Hok | repeat constructor].
Qed.

(** Under a well-formed header a record is one of the pair exactly when its
    row is. *)
Lemma rec_matches_row ids j t r :
  ids_ok ids ->
  rec_matches j t (dict_of_row (fixed_columns ++ ids) r) = row_matches j t r.
Proof.
  intros Hok. unfold rec_matches. rewrite cell_judge, cell_team_id by exact Hok.
  destruct r as [|c0 [|c1 [|c2 r]]]; simpl; try reflexivity.
  apply andb_false_r.
Qed.

Lemma row_matches_nonblank j t r : row_matches j t r = true -> r <> [].
Proof. destruct r; [discriminate | discriminate]. Qed.


Lemma get_all_scores_eq st : get_all_scores st = (Ok (DictReader (default [] st)), st).
Proof. destruct st as [rows|]; reflexivity. Qed.

Lemma get_judge_scores_eq J st :
  get_judge_scores J st
  = (Ok (filter (fun d => Is_true (py_eq (cell d "judge") (VStr J)))
           (DictReader (default [] st))), st).
Proof. unfold get_judge_scores, bind. rewrite get_all_scores_eq. reflexivity. Qed.

Lemma filter_team_judge j t (l : list dict) :
  filter (fun d => Is_true (py_eq (cell d "team_id") (VStr t)))
    (filter (fun d => Is_true (py_eq (cell d "judge") (VStr j))) l)
  = filter (fun d => Is_true (rec_matches j t d)) l.
Proof.
  rewrite list_filter_filter. apply list_filter_iff. intros d.
  unfold rec_matches. rewrite andb_True. tauto.
Qed.

Lemma get_team_score_by_judge_eq j t st :
  get_team_score_by_judge j t st
  = (Ok (head (filter (fun d => Is_true (rec_matches j t d))
                 (DictReader (default [] st)))), st).
Proof.
  unfold get_team_score_by_judge, bind. rewrite get_judge_scores_eq.
  unfold ret. rewrite filter_team_judge. reflexivity.
Qed.

Lemma filter_rec_rows ids j t (rows : list row) :
  ids_ok ids ->
  filter (fun d => Is_true (rec_matches j t d)) (map (dict_of_row (fixed_columns ++ ids)) rows)
  = map (dict_of_row (fixed_columns ++ ids))
      (filter (fun r => Is_true (row_matches j t r)) rows).
Proof.
  intros Hok. induction rows as [|r rows IH]; [reflexivity|].
  rewrite map_cons, !filter_cons, IH.
  rewrite (rec_matches_row ids j t r Hok).
  destruct (decide (Is_true (row_matches j t r))); reflexivity.
Qed.

Lemma filter_rows_nonblank j t (rows : list row) :
  filter (fun r => Is_true (row_matches j t r)) (filter (fun r => r <> []) rows)
  = filter (fun r => Is_true (row_matches j t r)) rows.
Proof.
  rewrite list_filter_filter. apply list_filter_iff. intros r. split; [tauto|].
  intros H. split; [exact H|]. apply (row_matches_nonblank j t), Is_true_true, H.
Qed.

(** The records of a pair, read back from a store with a well-formed
    header, are the decoded rows of that pair. *)
Lemma records_of_pair ids j t (data : list row) :
  ids_ok ids ->
  filter (fun d => Is_true (rec_matches j t d)) (DictReader ((fixed_columns ++ ids) :: data))
  = map (dict_of_row (fixed_columns ++ ids))
      (filter (fun r => Is_true (row_matches j t r)) data).
Proof.
  intros Hok. unfold DictReader.
  rewrite (filter_rec_rows ids j t _ Hok), filter_rows_nonblank. reflexivity.
Qed.

Lemma submit_header_ok s st :
  header_ok st -> ids_ok (map crit_id (sub_criteria s)) -> header_ok (snd (submit s st)).
Proof.
  intros Hst Hids. rewrite submit_store. simpl.
  destruct st as [[|header data]|]; simpl.
  - unfold upsert_rows. simpl. eexists. split; [reflexivity | exact Hids].
  - rewrite upsert_rows_data. exact Hst.
  - unfold upsert_rows. simpl. eexists. split; [reflexivity | exact Hids].
Qed.

Lemma run_submissions_header_ok subs st :
  header_ok st -> Forall (fun s => ids_ok (map crit_id (sub_criteria s))) subs ->
  header_ok (run_submissions subs st).
Proof.
  revert st. induction subs as [|s subs IH]; intros st Hst Hall; simpl; [exact Hst|].
  inversion Hall; subst. apply IH; [apply submit_header_ok|]; assumption.
Qed.

Lemma fresh_header_ok f : fresh_ok f -> header_ok (fresh_store f).
Proof.
  destruct f as [| |criteria]; simpl; auto.
  intros Hok. eexists. split; [reflexivity | exact Hok].
Qed.

Lemma rec_count_rows st j t :
  header_ok st ->
  length (filter (fun d => Is_true (rec_matches j t d)) (DictReader (default [] st)))
  = key_count j t (data_rows st).
Proof.
  intros Hst. destruct st as [[|header data]|]; try reflexivity.
  destruct Hst as (ids & -> & Hok).
  change (default [] (Some ((fixed_columns ++ ids) :: data)))
    with ((fixed_columns ++ ids) :: data).
  rewrite (records_of_pair ids j t data Hok), length_map. reflexivity.
Qed.

(** X1. Whatever the sequence of submissions to a fresh ledger whose
    criterion ids are no fixed column names, [get_all_scores] returns, and
    for every judge and team the records it returns for the pair are as
    many as the rows of the pair in the file: at most one. *)
Theorem get_all_scores_one_record_per_pair (f : fresh) (subs : list submission)
    (j t : string) :
  fresh_ok f ->
  Forall (fun s => ids_ok (map crit_id (sub_criteria s))) subs ->
  let st := run_submissions subs (fresh_store f) in
  exists records,
    get_all_scores st = (Ok records, st) /\
    length (filter (fun d => Is_true (rec_matches j t d)) records)
      = key_count j t (data_rows st) /\
    (length (filter (fun d => Is_true (rec_matches j t d)) records) <= 1)%nat.
Proof.
  intros Hf Hsubs st. exists (DictReader (default [] st)).
  split; [apply get_all_scores_eq|].
  assert (header_ok st) as Hst
    by (apply run_submissions_header_ok; [apply fresh_header_ok, Hf | exact Hsubs]).
  rewrite (rec_count_rows st j t Hst). split; [reflexivity|].
  apply run_submissions_one_per_pair, fresh_one_per_pair.
Qed.

End LedgerRecords.

(** * Looking up the records of a judge *)

Section Lookups.

Implicit Types (st : store) (r : row) (s : submission) (ids : list string) (j t J : string).

Lemma py_eq_text v (txt : string) : py_eq v (VStr txt) = true -> v = VStr txt.
Proof.
  destruct v; simpl; try discriminate.
  intros H. apply bool_decide_eq_true in H. congruence.
Qed.

Lemma submit_shape s st :
  snd (submit s st)
  = Some (header_after (sub_criteria s) st :: data_rows (snd (submit s st))).
Proof.
  rewrite submit_store. simpl.
  destruct st as [[|header data]|]; simpl; rewrite ?drop_0;
    try (unfold upsert_rows; simpl; reflexivity).
  rewrite upsert_rows_data. simpl. rewrite drop_0. reflexivity.
Qed.

Lemma header_after_ok s st :
  header_ok st -> ids_ok (map crit_id (sub_criteria s)) ->
  exists ids, header_after (sub_criteria s) st = fixed_columns ++ ids /\ ids_ok ids.
Proof.
  intros Hst Hids. destruct st as [[|header data]|]; simpl; eauto.
Qed.

(** X4. On a ledger with a well-formed header
    [get_team_score_by_judge(judge, team_id)] returns without raising; it
    returns [None] exactly when the file holds no row of the pair, and a
    record it returns carries that judge and that team id. *)
Theorem get_team_score_by_judge_reflects_rows (st : store) (j t : string) :
  header_ok st ->
  exists found,
    get_team_score_by_judge j t st = (Ok found, st) /\
    (found = None <-> key_count j t (data_rows st) = 0%nat) /\
    forall d, found = Some d -> cell d "judge" = VStr j /\ cell d "team_id" = VStr t.
Proof.
  intros Hst. rewrite get_team_score_by_judge_eq. eexists. split; [reflexivity|].
  split.
  - rewrite head_None. rewrite <- (rec_count_rows st j t Hst).
    split; [intros ->; reflexivity | apply length_zero_iff_nil].
  - intros d Hd. apply head_Some_elem_of in Hd.
    apply list_elem_of_filter in Hd as [Hd _]. apply Is_true_true in Hd.
    unfold rec_matches in Hd. apply andb_true_iff in Hd as [Hj Ht].
    split; apply py_eq_text; assumption.
Qed.

Lemma judge_records_app J header (l1 l2 : list row) :
  judge_records J header (l1 ++ l2) = judge_records J header l1 ++ judge_records J header l2.
Proof. unfold judge_records. rewrite filter_app, map_app, filter_app. reflexivity. Qed.

Lemma judge_records_other J ids r v :
  ids_ok ids -> r !! 1%nat = Some v -> v <> J ->
  judge_records J (fixed_columns ++ ids) [r] = [].
Proof.
  intros Hok Hv Hne. unfold judge_records.
  rewrite filter_cons, filter_nil.
  destruct (decide (r <> [])); [|reflexivity].
  rewrite map_cons, filter_cons. simpl map. rewrite filter_nil.
  rewrite (cell_judge ids r Hok), Hv.
  destruct (decide _) as [H|H]; [|reflexivity].
  simpl in H. apply Is_true_true, bool_decide_eq_true in H. congruence.
Qed.

Lemma row_matches_judge j t r : row_matches j t r = true -> r !! 1%nat = Some j.
Proof.
  destruct r as [|c0 [|c1 [|c2 r]]]; simpl; try discriminate.
  intros H. apply andb_true_iff in H as [H _]. apply bool_decide_eq_true in H. congruence.
Qed.

Lemma get_judge_scores_rows J st header data :
  st = Some (header :: data) ->
  fst (get_judge_scores J st) = Ok (judge_records J header data).
Proof. intros ->. rewrite get_judge_scores_eq. reflexivity. Qed.

(** X3. A submission of one judge leaves what [get_judge_scores] returns
    for every other judge as it was: the same records in the same order. *)
Theorem get_judge_scores_other_judge (st : store) (s : submission) (J : string) :
  header_ok st ->
  ids_ok (map crit_id (sub_criteria s)) ->
  sub_judge s <> J ->
  fst (get_judge_scores J (snd (submit s st))) = fst (get_judge_scores J st).
Proof.
  intros Hst Hids Hne.
  destruct (header_after_ok s st Hst Hids) as (ids & Hh & Hok).
  rewrite (get_judge_scores_rows J _ _ _ (submit_shape s st)).
  rewrite Hh, submit_data_rows.
  assert (judge_records J (fixed_columns ++ ids) [submitted_row s] = []) as Hnew
    by (apply (judge_records_other J ids _ (sub_judge s)); [exact Hok | reflexivity | exact Hne]).
  assert (fst (get_judge_scores J st)
          = Ok (judge_records J (fixed_columns ++ ids) (data_rows st))) as ->.
  { destruct st as [[|header data]|]; try reflexivity.
    simpl in Hh. subst header. rewrite get_judge_scores_eq. simpl.
    rewrite drop_0. reflexivity. }
  f_equal.
  destruct (list_find _ (data_rows st)) as [[i old]|] eqn:Hfind.
  - apply list_find_Some in Hfind as (Hi & Hold & _).
    apply Is_true_true, row_matches_judge in Hold.
    rewrite insert_take_drop by (eapply lookup_lt_Some, Hi).
    rewrite <- (take_drop_middle _ _ _ Hi) at 3.
    rewrite !judge_records_app.
    change (submitted_row s :: drop (S i) (data_rows st))
      with ([submitted_row s] ++ drop (S i) (data_rows st)).
    change (old :: drop (S i) (data_rows st)) with ([old] ++ drop (S i) (data_rows st)).
    rewrite !judge_records_app, Hnew.
    rewrite (judge_records_other J ids old (sub_judge s) Hok Hold Hne). reflexivity.
  - rewrite judge_records_app, Hnew, app_nil_r. reflexivity.
Qed.

End Lookups.

(** * Saving and reading back *)

Section RoundTrip.

Implicit Types (st : store) (r : row) (s : submission) (ids : list string) (j t J : string).

(** After [save_scores] the first row of the pair is the submitted one. *)
Lemma head_filter_submit s st :
  head (filter (fun r => Is_true (row_matches (sub_judge s) (sub_team_id s) r))
          (data_rows (snd (submit s st))))
  = Some (submitted_row s).
Proof.
  rewrite submit_data_rows.
  assert (Is_true (row_matches (sub_judge s) (sub_team_id s) (submitted_row s))) as Hnew.
  { unfold submitted_row. rewrite row_matches_new_row.
    rewrite !bool_decide_eq_true_2 by reflexivity. exact I. }
  destruct (list_find _ (data_rows st)) as [[i old]|] eqn:Hfind.
  - apply list_find_Some in Hfind as (Hi & _ & Hbefore).
    rewrite insert_take_drop by (eapply lookup_lt_Some, Hi).
    rewrite filter_app.
    assert (filter (fun r => Is_true (row_matches (sub_judge s) (sub_team_id s) r))
              (take i (data_rows st)) = []) as ->.
    { apply length_zero_iff_nil, length_filter_none, Forall_forall.
      intros r Hr. apply list_elem_of_lookup in Hr as [k Hk].
      pose proof (lookup_lt_Some _ _ _ Hk) as Hlt. rewrite length_take in Hlt.
      rewrite lookup_take_lt in Hk by lia. apply (Hbefore k r Hk). lia. }
    rewrite filter_cons. destruct (decide _); [reflexivity | contradiction].
  - apply list_find_None in Hfind.
    rewrite filter_app.
    assert (filter (fun r => Is_true (row_matches (sub_judge s) (sub_team_id s) r))
              (data_rows st) = []) as ->
      by (apply length_zero_iff_nil, length_filter_none, Hfind).
    rewrite filter_cons. destruct (decide _); [reflexivity | contradiction].
Qed.

Lemma header_after_is criteria st :
  header_is criteria st -> header_after criteria st = headers criteria.
Proof. destruct st as [[|header data]|]; simpl; auto. Qed.

(** The cell under a criterion id in the record of a row written for the
    same criteria. *)
Lemma cell_criterion (criteria : list criterion) now j t nm (scores : gmap string Z) cr :
  cr ∈ criteria ->
  cell (dict_of_row (headers criteria) (new_row criteria now j t nm scores)) (crit_id cr)
  = VStr (str (default 0%Z (scores !! crit_id cr))).
Proof.
  intros Hcr.
  assert (crit_id cr ∈ map crit_id criteria) as Hin
    by (apply list_elem_of_In, in_map, list_elem_of_In, Hcr).
  apply list_elem_of_split_r in Hin as (i1 & i2 & Hids & Hlast).
  pose proof Hids as Hsplit.
  apply map_eq_app in Hsplit as (c1 & c2' & -> & Hc1 & Hc2).
  apply map_eq_cons in Hc2 as (cr' & c2 & -> & Hcr' & Hc2).
  unfold cell, headers. rewrite Hids.
  rewrite (app_assoc fixed_columns i1 (crit_id cr :: i2)).
  rewrite dict_of_row_lookup by exact Hlast.
  unfold new_row. rewrite map_app, map_cons.
  set (g := fun c => str (default 0%Z (scores !! crit_id c))).
  change (str (default 0%Z (scores !! crit_id cr'))) with (g cr').
  assert (lookup (M:=row) (length (fixed_columns ++ i1))
            ([now; j; t; nm] ++ map g c1 ++ g cr' :: map g c2)
          = Some (g cr')) as ->.
  { rewrite app_assoc.
    replace (length (fixed_columns ++ i1)) with (length ([now; j; t; nm] ++ map g c1))
      by (rewrite !length_app, length_map, <- Hc1, length_map; reflexivity).
    apply list_lookup_middle. reflexivity. }
  simpl. unfold g. rewrite Hcr'. reflexivity.
Qed.

(** The record [get_team_score_by_judge] finds right after [save_scores],
    whatever header the file had. *)
Lemma submit_then_found s st :
  header_ok st -> ids_ok (map crit_id (sub_criteria s)) ->
  get_team_score_by_judge (sub_judge s) (sub_team_id s) (snd (submit s st))
  = (Ok (Some (dict_of_row (header_after (sub_criteria s) st) (submitted_row s))),
     snd (submit s st)).
Proof.
  intros Hst Hids.
  destruct (header_after_ok s st Hst Hids) as (ids & Hh & Hok).
  rewrite get_team_score_by_judge_eq. f_equal. f_equal.
  rewrite (submit_shape s st) at 1. rewrite Hh.
  change (default [] (Some ((fixed_columns ++ ids) :: ?l))) with ((fixed_columns ++ ids) :: l).
  rewrite (records_of_pair _ _ _ _ Hok).
  pose proof (head_filter_submit s st) as Hhead.
  destruct (filter _ (data_rows (snd (submit s st)))) as [|r rows]; [discriminate|].
  simpl in Hhead. injection Hhead as ->. reflexivity.
Qed.

Lemma header_is_ok criteria st :
  header_is criteria st -> ids_ok (map crit_id criteria) -> header_ok st.
Proof.
  destruct st as [[|header data]|]; simpl; auto.
  intros -> Hok. exists (map crit_id criteria). split; [reflexivity | exact Hok].
Qed.

(** X2. Round trip. On a ledger whose header, if any, is the one of the
    criteria in force, [get_team_score_by_judge(judge, team_id)] right after
    [save_scores(judge, team_id, team_name, scores)] finds the record just
    written: its timestamp, judge, team id and team name are the
    arguments, and under every criterion id it holds the decimal text of
    [scores.get(id, 0)]. *)
Theorem save_scores_then_lookup (st : store) (s : submission) :
  header_is (sub_criteria s) st ->
  ids_ok (map crit_id (sub_criteria s)) ->
  let st' := snd (submit s st) in
  let d := dict_of_row (headers (sub_criteria s)) (submitted_row s) in
  get_team_score_by_judge (sub_judge s) (sub_team_id s) st' = (Ok (Some d), st') /\
  cell d "timestamp" = VStr (sub_now s) /\
  cell d "judge" = VStr (sub_judge s) /\
  cell d "team_id" = VStr (sub_team_id s) /\
  cell d "team_name" = VStr (sub_team_name s) /\
  forall cr, cr ∈ sub_criteria s ->
    cell d (crit_id cr) = VStr (str (default 0%Z (sub_scores s !! crit_id cr))).
Proof.
  intros Hst Hids st' d. subst st' d.
  split; [|split; [|split; [|split; [|split]]]].
  - rewrite (submit_then_found s st (header_is_ok _ _ Hst Hids) Hids).
    rewrite (header_after_is _ _ Hst). reflexivity.
  - unfold headers. rewrite (cell_timestamp _ _ Hids). reflexivity.
  - unfold headers. rewrite (cell_judge _ _ Hids). reflexivity.
  - unfold headers. rewrite (cell_team_id _ _ Hids). reflexivity.
  - unfold headers. rewrite (cell_team_name _ _ Hids). reflexivity.
  - intros cr Hcr. apply cell_criterion, Hcr.
Qed.

End RoundTrip.

(** * One entry per team *)

Section Teams.

Variable to_numeric : string -> float.

Lemma eqb_sym (x y : float) : (x =? y)%float = (y =? x)%float.
Proof.
  destruct (x =? y)%float eqn:Hxy, (y =? x)%float eqn:Hyx; try reflexivity.
  - apply eqb_rank in Hxy as (? & ? & Heq).
    assert ((y =? x)%float = true) by (apply eqb_rank; unfold lexeq in *; intuition lia).
    congruence.
  - apply eqb_rank in Hyx as (? & ? & Heq).
    assert ((x =? y)%float = true) by (apply eqb_rank; unfold lexeq in *; intuition lia).
    congruence.
Qed.

Lemma same_key_sym (a b : value) : same_key a b = same_key b a.
Proof.
  destruct a as [|s|l|x], b as [|s'|l'|y]; simpl; try reflexivity.
  - apply bool_decide_ext. split; congruence.
  - rewrite (eqb_sym x y), (andb_comm (is_nan x)). reflexivity.
Qed.

Lemma unique_from_distinct seen l :
  Forall (fun w => existsb (same_key w) seen = false) (unique_from seen l) /\
  distinct_keys (unique_from seen l).
Proof.
  revert seen. induction l as [|v l IH]; intros seen; simpl.
  - split; constructor.
  - destruct (existsb (same_key v) seen) eqn:Hseen; [apply IH|].
    destruct (IH (v :: seen)) as [Hall Hd].
    split.
    + constructor; [exact Hseen|].
      eapply Forall_impl; [exact Hall|]. intros w Hw. simpl in Hw.
      apply orb_false_iff in Hw. tauto.
    + constructor; [|exact Hd].
      eapply Forall_impl; [exact Hall|]. intros w Hw. simpl in Hw.
      apply orb_false_iff in Hw as [Hwv _].
      split; [rewrite same_key_sym|]; exact Hwv.
Qed.

Lemma unique_distinct l : distinct_keys (unique l).
Proof. apply unique_from_distinct. Qed.

Lemma distinct_keys_perm l l' : Permutation l l' -> distinct_keys l -> distinct_keys l'.
Proof.
  induction 1 as [|v l l' Hperm IH|v w l|l1 l2 l3 _ IH1 _ IH2]; intros Hd.
  - exact Hd.
  - inversion Hd as [|? ? Hall Hd']; subst. constructor; [|apply IH, Hd'].
    rewrite <- Hperm. exact Hall.
  - inversion Hd as [|? ? Hall Hd']; subst.
    inversion Hd' as [|? ? Hall' Hd'']; subst.
    inversion Hall as [|? ? Hvw Hall'']; subst.
    constructor; [constructor; [tauto | exact Hall'] |].
    constructor; assumption.
  - auto.
Qed.

Lemma result_mapM_Ok {A B} (f : A -> result B) (l : list A) (ys : list B) :
  result_mapM f l = Ok ys -> Forall2 (fun x y => f x = Ok y) l ys.
Proof.
  revert ys. induction l as [|x l IH]; intros ys; simpl.
  - intros H. injection H as <-. constructor.
  - destruct (f x) as [y|e] eqn:Hx; simpl; [|discriminate].
    destruct (result_mapM f l) as [ys'|e]; simpl; [|discriminate].
    intros H. injection H as <-. constructor; [exact Hx | apply IH; reflexivity].
Qed.

Lemma team_aggregate_Ok df result_df tid t :
  team_aggregate df result_df tid = Ok t ->
  team_id t = tid /\ (1 <= num_judges t)%nat /\ num_judges t = length (judge_scores t).
Proof.
  unfold team_aggregate. destruct (column df "team_name"); simpl; [|discriminate].
  destruct (filter _ result_df) as [|first rest]; [discriminate|].
  intros H. injection H as <-. simpl. rewrite length_map. repeat split. lia.
Qed.

Lemma team_results_Ok df result_df pre :
  team_results df result_df = Ok pre ->
  map team_id pre = unique (map (fun r => cell (row_cells r) "team_id") result_df) /\
  Forall (fun t => (1 <= num_judges t)%nat /\ num_judges t = length (judge_scores t)) pre.
Proof.
  unfold team_results. destruct (column df "team_id"); simpl; [|discriminate].
  intros H. apply result_mapM_Ok in H.
  induction H as [|tid t tids pre Ht _ IH]; [split; constructor|].
  apply team_aggregate_Ok in Ht as (Hid & Hn).
  destruct IH as [IHid IHall]. split; [simpl; congruence | constructor; assumption].
Qed.

Lemma grouped_Ok criteria_ids all_scores pre :
  grouped to_numeric criteria_ids all_scores = Ok pre ->
  distinct_keys (map team_id pre) /\
  Forall (fun t => (1 <= num_judges t)%nat /\ num_judges t = length (judge_scores t)) pre.
Proof.
  unfold grouped. destruct (forallb _ all_scores).
  { intros H. injection H as <-. split; constructor. }
  simpl. destruct (add_total_raw _ _) as [scored_df|e]; simpl; [|discriminate].
  destruct (judge_frames scored_df) as [[|frame frames]|e]; simpl; try discriminate.
  { intros H. injection H as <-. split; constructor. }
  intros H. apply team_results_Ok in H as [Hids Hall].
  split; [rewrite Hids; apply unique_distinct | exact Hall].
Qed.

(** X6. Whenever the computation of the ranking returns, no two entries
    of the ranking have the same team id, and every entry counts at least
    one judge and lists as many judge scores as it counts judges. *)
Theorem ranking_lists_each_team_once (criteria_ids : list string) (all_scores : list dict) :
  match compute to_numeric criteria_ids all_scores with
  | Ok out =>
      distinct_keys (map team_id out) /\
      Forall (fun t => (1 <= num_judges t)%nat /\ num_judges t = length (judge_scores t)) out
  | Raise _ => True
  end.
Proof.
  rewrite compute_sorts_grouped.
  destruct (grouped _ _ _) as [pre|e] eqn:Hpre; simpl; [|exact I].
  apply grouped_Ok in Hpre as [Hd Hall].
  pose proof (sort_desc_perm pre) as Hperm.
  split.
  - eapply distinct_keys_perm; [|exact Hd]. apply Permutation_map, Hperm.
  - rewrite <- Hperm. exact Hall.
Qed.

End Teams.

(** * When the ranking is computed without an error *)

Section NoRaise.

Variable to_numeric : string -> float.

Implicit Types (df all : list dict) (d : dict) (k : string) (ids : list string).

Lemma unique_from_sub seen (l : list value) v : v ∈ unique_from seen l -> v ∈ l.
Proof.
  revert seen. induction l as [|a l IH]; intros seen; simpl; [tauto|].
  destruct (existsb _ seen).
  - intros H. constructor. eapply IH, H.
  - intros H. apply elem_of_cons in H as [->|H]; [constructor|].
    constructor. eapply IH, H.
Qed.

Lemma result_mapM_all_Ok {A B} (f : A -> result B) (l : list A) :
  Forall (fun x => exists y, f x = Ok y) l -> exists ys, result_mapM f l = Ok ys.
Proof.
  induction 1 as [|x l [y Hy] _ [ys IH]]; simpl; [eauto|].
  rewrite Hy, IH. simpl. eauto.
Qed.

Lemma judge_frames_rows (scored_df : list scored_row) frames zr :
  judge_frames scored_df = Ok frames -> zr ∈ concat frames -> scored zr ∈ scored_df.
Proof.
  unfold judge_frames. destruct (column _ "judge") as [judges|e]; simpl; [|discriminate].
  intros H. injection H as <-. intros Hzr.
  apply list_elem_of_In, in_concat in Hzr as (frame & Hframe & Hzr).
  apply in_map_iff in Hframe as (judge & <- & _).
  assert (scored zr ∈ map scored (judge_z_scores
            (filter (fun r => Is_true (py_eq (cell (cells r) "judge") judge)) scored_df)))
    as Hin by (apply list_elem_of_In, in_map, Hzr).
  rewrite judge_z_scores_scored in Hin.
  apply list_elem_of_filter in Hin. tauto.
Qed.

(** What suffices for [compute] to return: the columns it reads exist and
    no record is left with a team id that equals nothing. *)
Lemma compute_returns ids all :
  Forall (fun k => has_column all k = true) ids ->
  has_column all "judge" = true ->
  has_column all "team_id" = true ->
  has_column all "team_name" = true ->
  Forall (fun d =>
            let v := cell (convert_row to_numeric ids d) "team_id" in py_eq v v = true) all ->
  exists out, compute to_numeric ids all = Ok out.
Proof.
  intros Hids Hjudge Hteam Hname Hcmp. unfold compute.
  destruct (forallb _ all); [eauto|].
  cbv zeta.
  set (df := fold_left (convert_column to_numeric) ids all).
  assert (forall k, has_column df k = has_column all k) as Hcol
    by (intros k; apply has_column_convert_all).
  assert (df = map (convert_row to_numeric ids) all) as Hdf
    by (apply convert_all, Hids).
  unfold add_total_raw.
  assert (filter (fun cid => has_column df cid = false) ids = []) as ->.
  { apply length_zero_iff_nil, length_filter_none.
    eapply Forall_impl; [exact Hids|]. intros k Hk. simpl in Hk.
    rewrite Hcol, Hk. discriminate. }
  cbn [result_bind].
  set (scored_df := map (fun r => {| cells := r; total_raw := _ |}) df).
  assert (map cells scored_df = df) as Hcells
    by (unfold scored_df; rewrite map_map; apply map_id).
  destruct (judge_frames scored_df) as [frames|e] eqn:Hframes.
  2:{ unfold judge_frames, column in Hframes. rewrite Hcells, Hcol, Hjudge in Hframes.
      discriminate. }
  cbn [result_bind]. destruct frames as [|frame frames']; [eauto|].
  set (frames := frame :: frames') in *.
  unfold team_results, column. rewrite Hcol, Hteam. cbn [result_bind].
  destruct (result_mapM_all_Ok
              (team_aggregate df (add_normalized (concat frames)))
              (unique (map (fun r => cell (row_cells r) "team_id")
                         (add_normalized (concat frames))))) as [pre Hpre].
  2:{ rewrite Hpre. simpl. eauto. }
  apply Forall_forall. intros tid Htid.
  apply unique_from_sub in Htid.
  apply list_elem_of_In, in_map_iff in Htid as (r & Hr & Hin).
  unfold team_aggregate, column. rewrite Hcol, Hname. cbn [result_bind].
  assert (r ∈ filter (fun r => Is_true (py_eq (cell (row_cells r) "team_id") tid))
                (add_normalized (concat frames))) as Hmem.
  { apply list_elem_of_filter. split; [|apply list_elem_of_In, Hin].
    apply Is_true_true. rewrite <- Hr.
    unfold add_normalized in Hin. apply in_map_iff in Hin as (zr & <- & Hzr).
    apply list_elem_of_In in Hzr.
    pose proof (judge_frames_rows _ _ _ Hframes Hzr) as Hrow.
    unfold scored_df in Hrow.
    apply list_elem_of_In, in_map_iff in Hrow as (d' & Hd' & Hd'in).
    unfold row_cells. simpl. rewrite <- Hd'. simpl.
    rewrite Hdf in Hd'in. apply in_map_iff in Hd'in as (d & <- & Hd).
    rewrite Forall_forall in Hcmp. apply (Hcmp d). apply list_elem_of_In, Hd. }
  destruct (filter _ (add_normalized (concat frames))) as [|first rest];
    [inversion Hmem | eauto].
Qed.

End NoRaise.

(** * Ledgers written under unchanged criteria *)

Section UniformLedger.

Variable to_numeric : string -> float.

Implicit Types (st : store) (r : row) (s : submission) (d : dict) (k : string).

Lemma length_submitted_row s : length (submitted_row s) = length (headers (sub_criteria s)).
Proof.
  unfold submitted_row, new_row, headers. rewrite !length_app, !length_map. reflexivity.
Qed.

Lemma submit_uniform criteria s st :
  uniform criteria st -> sub_criteria s = criteria -> uniform criteria (snd (submit s st)).
Proof.
  intros Hst Hc. rewrite (submit_shape s st). unfold uniform.
  assert (header_after (sub_criteria s) st = headers criteria) as ->.
  { destruct st as [[|header data]|]; simpl in *; [congruence | tauto | congruence]. }
  split; [reflexivity|].
  assert (Forall (fun r => length r = length (headers criteria)) (data_rows st)) as Hdata.
  { destruct st as [[|header data]|]; simpl in *; try constructor.
    rewrite drop_0. destruct Hst as [-> Hall]. exact Hall. }
  assert (length (submitted_row s) = length (headers criteria)) as Hnew
    by (rewrite length_submitted_row, Hc; reflexivity).
  rewrite submit_data_rows.
  destruct (list_find _ (data_rows st)) as [[i old]|].
  - apply Forall_insert; assumption.
  - apply Forall_app. split; [exact Hdata | repeat constructor; exact Hnew].
Qed.

Lemma run_submissions_uniform criteria subs st :
  uniform criteria st -> Forall (fun s => sub_criteria s = criteria) subs ->
  uniform criteria (run_submissions subs st).
Proof.
  revert st. induction subs as [|s subs IH]; intros st Hst Hall; simpl; [exact Hst|].
  inversion Hall; subst. apply IH; [apply submit_uniform; [exact Hst | reflexivity]|].
  assumption.
Qed.

Lemma fresh_uniform criteria f : fresh_with criteria f -> uniform criteria (fresh_store f).
Proof.
  destruct f as [| |c]; simpl; auto. intros ->. split; [reflexivity | constructor].
Qed.

(** A row with one cell per column gives a record with a text under every
    field name. *)
Lemma record_has_text (header : list string) r k :
  length r = length header -> k ∈ header ->
  exists v, dict_of_row header r !! Some k = Some (VStr v).
Proof.
  intros Hlen Hk.
  apply list_elem_of_split_r in Hk as (h1 & h2 & -> & Hlast).
  rewrite dict_of_row_lookup by exact Hlast.
  destruct (r !! length h1) as [v|] eqn:Hv; [eauto|].
  apply lookup_ge_None in Hv. rewrite length_app in Hlen. simpl in Hlen. lia.
Qed.

Lemma has_column_first (all : list dict) d k :
  is_Some (d !! Some k) -> has_column (d :: all) k = true.
Proof.
  intros H. unfold has_column. simpl.
  rewrite bool_decide_eq_true_2 by exact H. reflexivity.
Qed.

Lemma py_eq_refl_converted ids d k v :
  d !! Some k = Some (VStr v) ->
  py_eq (cell (convert_row to_numeric ids d) k) (cell (convert_row to_numeric ids d) k) = true.
Proof.
  intros Hd. rewrite cell_convert_row.
  destruct (decide (k ∈ ids)).
  - simpl. pose proof (coerce_not_nan to_numeric (cell d k)) as Hnan.
    unfold is_nan in Hnan. apply negb_false_iff in Hnan. exact Hnan.
  - unfold cell. rewrite Hd. simpl. apply bool_decide_eq_true_2. reflexivity.
Qed.

Lemma filter_nonblank (n : nat) (data : list row) :
  (0 < n)%nat -> Forall (fun r => length r = n) data ->
  filter (fun r => r <> []) data = data.
Proof.
  intros Hn. induction 1 as [|r data Hr _ IH]; [reflexivity|].
  rewrite filter_cons, IH. destruct (decide (r <> [])) as [_|Hnil]; [reflexivity|].
  destruct r; [simpl in Hr; lia | exfalso; apply Hnil; discriminate].
Qed.

(** The snapshot of a uniform ledger: every row decoded under the header
    of the criteria. *)
Lemma uniform_snapshot criteria st :
  uniform criteria st ->
  DictReader (default [] st) = map (dict_of_row (headers criteria)) (data_rows st) /\
  Forall (fun r => length r = length (headers criteria)) (data_rows st).
Proof.
  destruct st as [[|header data]|]; simpl; try (split; [reflexivity | constructor]).
  intros [-> Hrows]. rewrite drop_0. split; [|exact Hrows].
  rewrite (filter_nonblank (length (headers criteria))); [reflexivity | | exact Hrows].
  unfold headers. rewrite length_app. simpl. lia.
Qed.

Lemma snapshot_texts criteria (data : list row) :
  Forall (fun r => length r = length (headers criteria)) data ->
  Forall (fun d => forall k, k ∈ headers criteria -> exists v, d !! Some k = Some (VStr v))
    (map (dict_of_row (headers criteria)) data).
Proof.
  intros Hrows. apply Forall_forall. intros d Hd.
  apply list_elem_of_In, in_map_iff in Hd as (r & <- & Hr).
  rewrite Forall_forall in Hrows. intros k Hk.
  apply record_has_text; [apply Hrows, list_elem_of_In, Hr | exact Hk].
Qed.

Lemma snapshot_columns criteria (data : list row) k :
  data <> [] ->
  Forall (fun r => length r = length (headers criteria)) data ->
  k ∈ headers criteria ->
  has_column (map (dict_of_row (headers criteria)) data) k = true.
Proof.
  intros Hne Hrows Hk. destruct data as [|r data]; [contradiction|].
  rewrite map_cons. apply has_column_first.
  inversion Hrows as [|? ? Hr _]; subst.
  destruct (record_has_text (headers criteria) r k Hr Hk) as [v ->]. eauto.
Qed.

Lemma fixed_in_headers criteria k : k ∈ fixed_columns -> k ∈ headers criteria.
Proof. intros Hk. unfold headers. apply elem_of_app. left. exact Hk. Qed.

Lemma id_in_headers criteria k : k ∈ map crit_id criteria -> k ∈ headers criteria.
Proof. intros Hk. unfold headers. apply elem_of_app. right. exact Hk. Qed.

(** On a uniform ledger the computation of the ranking returns. *)
Lemma compute_uniform criteria (data : list row) :
  Forall (fun r => length r = length (headers criteria)) data ->
  exists out,
    compute to_numeric (map crit_id criteria) (map (dict_of_row (headers criteria)) data)
    = Ok out.
Proof.
  intros Hrows. destruct data as [|r0 data']; [exists []; reflexivity|].
  set (data := r0 :: data') in *.
  assert (data <> []) as Hne by discriminate.
  apply compute_returns.
  - apply Forall_forall. intros k Hk.
    apply snapshot_columns; [exact Hne | exact Hrows | apply id_in_headers, Hk].
  - apply snapshot_columns; [exact Hne | exact Hrows |]. apply fixed_in_headers. repeat constructor.
  - apply snapshot_columns; [exact Hne | exact Hrows |]. apply fixed_in_headers. repeat constructor.
  - apply snapshot_columns; [exact Hne | exact Hrows |]. apply fixed_in_headers. repeat constructor.
  - eapply Forall_impl; [apply snapshot_texts, Hrows|]. intros d Hd. cbv zeta.
    destruct (Hd "team_id") as [v Hv]; [apply fixed_in_headers; repeat constructor|].
    eapply py_eq_refl_converted, Hv.
Qed.

Lemma normalize_scores_snapshot criteria st :
  uniform criteria st ->
  normalize_scores to_numeric criteria st
  = (match data_rows st with
     | [] => Ok []
     | _ => compute to_numeric (map crit_id criteria)
              (map (dict_of_row (headers criteria)) (data_rows st))
     end, st).
Proof.
  intros Hst. unfold normalize_scores, bind. rewrite get_all_scores_eq.
  destruct (uniform_snapshot criteria st Hst) as [-> _].
  destruct (data_rows st); reflexivity.
Qed.

(** X5. While the criteria stay those the ledger was started with,
    [normalize_scores] never raises: after any sequence of submissions to a
    fresh ledger it returns a ranking and leaves the file as it is. *)
Theorem normalize_scores_returns (criteria : list criterion) (f : fresh)
    (subs : list submission) :
  fresh_with criteria f ->
  Forall (fun s => sub_criteria s = criteria) subs ->
  let st := run_submissions subs (fresh_store f) in
  exists out, normalize_scores to_numeric criteria st = (Ok out, st).
Proof.
  intros Hf Hsubs st.
  assert (uniform criteria st) as Hst
    by (apply run_submissions_uniform; [apply fresh_uniform, Hf | exact Hsubs]).
  rewrite (normalize_scores_snapshot criteria st Hst).
  destruct (uniform_snapshot criteria st Hst) as [_ Hrows].
  destruct (compute_uniform criteria (data_rows st) Hrows) as [out Hout].
  destruct (data_rows st); [eexists; reflexivity|].
  rewrite Hout. eexists; reflexivity.
Qed.

End UniformLedger.

(** * A header older than the criteria *)

Section StaleHeader.

Implicit Types (st : store) (r : row) (s : submission) (ids : list string) (k : string).

(** A name that is no field name is no key of the record. *)
Lemma dict_of_row_no_key (header : list string) r k :
  k ∉ header -> dict_of_row header r !! Some k = None.
Proof.
  intros Hk. unfold dict_of_row. destruct (_ <? _)%nat.
  - rewrite lookup_insert_ne by discriminate.
    rewrite foldl_pairs_other; [apply lookup_empty|].
    intros Hin. apply Hk. eapply zip_fst_sub, Hin.
  - rewrite foldl_none_other by (intros Hin; apply Hk; eapply drop_sub, Hin).
    rewrite foldl_pairs_other; [apply lookup_empty|].
    intros Hin. apply Hk. eapply zip_fst_sub, Hin.
Qed.

(** The cells beyond the last field name go under the key [None]. *)
Lemma dict_of_row_rest (header : list string) r :
  (length header < length r)%nat ->
  dict_of_row header r !! None = Some (VList (drop (length header) r)).
Proof.
  intros Hlt. unfold dict_of_row.
  apply Nat.ltb_lt in Hlt. rewrite Hlt. apply lookup_insert_eq.
Qed.

(** X16. [save_scores] keeps the header it finds. When the file was
    started with fewer criteria than are now in force, the record read back
    after a submission has the scores beyond the old columns under
    [DictReader]'s key [None], and no entry under the id of a criterion the
    old header lacks. *)
Theorem save_scores_keeps_stale_header (ids : list string) (data : list row)
    (s : submission) :
  ids_ok ids ->
  ids_ok (map crit_id (sub_criteria s)) ->
  (length ids < length (sub_criteria s))%nat ->
  let st' := snd (submit s (Some ((fixed_columns ++ ids) :: data))) in
  exists data' d,
    st' = Some ((fixed_columns ++ ids) :: data') /\
    get_team_score_by_judge (sub_judge s) (sub_team_id s) st' = (Ok (Some d), st') /\
    d !! None = Some (VList (drop (length (fixed_columns ++ ids)) (submitted_row s))) /\
    forall cr, cr ∈ sub_criteria s -> crit_id cr ∉ ids -> d !! Some (crit_id cr) = None.
Proof.
  intros Hold Hnew Hlen st'. subst st'.
  set (st := Some ((fixed_columns ++ ids) :: data)).
  assert (header_ok st) as Hst by (simpl; eauto).
  exists (data_rows (snd (submit s st))),
    (dict_of_row (fixed_columns ++ ids) (submitted_row s)).
  split; [apply (submit_shape s st)|].
  split; [apply (submit_then_found s st Hst Hnew)|].
  split.
  - apply dict_of_row_rest. rewrite length_submitted_row. unfold headers.
    rewrite !length_app, length_map.
    simpl. lia.
  - intros cr Hcr Hid. apply dict_of_row_no_key.
    intros Hin. apply elem_of_app in Hin as [Hin|Hin]; [|contradiction].
    apply (ids_ok_not_in _ _ Hnew Hin).
    apply list_elem_of_In, in_map, list_elem_of_In, Hcr.
Qed.

End StaleHeader.

(** * Grouping by judge keeps the rows *)

Section Groups.

Variable to_numeric : string -> float.

Lemma eqb_trans (x y z : float) :
  (x =? y)%float = true -> (x =? z)%float = true -> (y =? z)%float = true.
Proof.
  intros Hxy Hxz. apply eqb_rank in Hxy, Hxz. apply eqb_rank.
  unfold lexeq in *. intuition lia.
Qed.

Lemma py_eq_same c k k' : py_eq c k = true -> py_eq c k' = true -> same_key k k' = true.
Proof.
  destruct c as [|s|l|x], k as [|s1|l1|y], k' as [|s2|l2|z]; simpl; try discriminate.
  - intros H1 H2. apply bool_decide_eq_true in H1, H2.
    apply bool_decide_eq_true. congruence.
  - intros H1 H2. rewrite (eqb_trans x y z H1 H2). reflexivity.
Qed.

Lemma length_filter_map {A B} (f : A -> B) (p : B -> bool) (l : list A) :
  length (filter (fun y => Is_true (p y)) (map f l))
  = length (filter (fun x => Is_true (p (f x))) l).
Proof.
  induction l as [|x l IH]; [reflexivity|].
  rewrite map_cons, !filter_cons. destruct (decide (Is_true (p (f x)))); simpl; congruence.
Qed.

(** Splitting a frame by the distinct values of a text column and putting
    the parts together again only reorders its rows. *)
Lemma groups_perm {A} (cellf : A -> value) (ks : list value) (l : list A) :
  distinct_keys ks ->
  (forall x, x ∈ l -> exists s, cellf x = VStr s /\ VStr s ∈ ks) ->
  Permutation (concat (map (fun k => filter (fun x => Is_true (py_eq (cellf x) k)) l) ks)) l.
Proof.
  revert l. induction ks as [|k ks IH]; intros l Hd Hcov.
  - destruct l as [|x l]; [reflexivity|].
    destruct (Hcov x) as (s & _ & Hin); [constructor | inversion Hin].
  - inversion Hd as [|? ? Hk Hd']; subst. simpl.
    etransitivity; [|apply (filter_app_complement (fun x => Is_true (py_eq (cellf x) k)) l)].
    apply Permutation_app_head.
    etransitivity;
      [|apply (IH (filter (fun x => ~ Is_true (py_eq (cellf x) k)) l) Hd')].
    + apply eq_subrelation; [typeclasses eauto|]. f_equal.
      apply map_ext_in. intros k' Hk'. symmetry.
      rewrite list_filter_filter. apply list_filter_iff. intros x.
      split; [tauto|]. intros Hx. split; [exact Hx|]. intros Hxk.
      apply Is_true_true in Hx, Hxk.
      pose proof (py_eq_same _ _ _ Hxk Hx) as Hsame.
      rewrite Forall_forall in Hk. apply list_elem_of_In in Hk'.
      destruct (Hk k' Hk') as [Hne _]. congruence.
    + intros x Hx. apply list_elem_of_filter in Hx as [Hnk Hx].
      destruct (Hcov x Hx) as (s & Hs & Hin). exists s. split; [exact Hs|].
      apply elem_of_cons in Hin as [<-|Hin]; [|exact Hin].
      exfalso. apply Hnk. rewrite Hs. simpl.
      apply Is_true_true, bool_decide_eq_true. reflexivity.
Qed.

(** The rows of [result_df] are those of the frame the judge loop started
    from, reordered, when every judge cell is a text. *)
Lemma judge_frames_perm (scored_df : list scored_row) frames :
  judge_frames scored_df = Ok frames ->
  (forall r, r ∈ scored_df -> exists s, cell (cells r) "judge" = VStr s) ->
  Permutation (map scored (concat frames)) scored_df.
Proof.
  unfold judge_frames. destruct (column _ "judge") as [judges|e] eqn:Hcol; simpl; [|discriminate].
  intros H Htext. injection H as <-.
  unfold column in Hcol. destruct (has_column _ _); [|discriminate]. injection Hcol as <-.
  rewrite map_map.
  rewrite concat_map, map_map.
  erewrite map_ext; [|intros judge; apply judge_z_scores_scored].
  apply groups_perm; [apply unique_distinct|].
  intros r Hr. destruct (Htext r Hr) as [s Hs]. exists s. split; [exact Hs|].
  apply unique_text. rewrite <- Hs.
  apply list_elem_of_In, in_map_iff. exists r. split; [reflexivity | apply list_elem_of_In, Hr].
Qed.

Lemma team_aggregate_inv df result_df tid e :
  team_aggregate df result_df tid = Ok e ->
  team_id e = tid /\
  num_judges e
  = length (filter (fun r => Is_true (py_eq (cell (row_cells r) "team_id") tid)) result_df).
Proof.
  unfold team_aggregate. destruct (column df "team_name"); simpl; [|discriminate].
  destruct (filter _ result_df) as [|first rest]; [discriminate|].
  intros H. injection H as <-. split; reflexivity.
Qed.

Lemma team_results_inv df result_df pre :
  team_results df result_df = Ok pre ->
  Forall2 (fun tid e => team_aggregate df result_df tid = Ok e)
    (unique (map (fun r => cell (row_cells r) "team_id") result_df)) pre.
Proof.
  unfold team_results. destruct (column df "team_id"); simpl; [|discriminate].
  apply result_mapM_Ok.
Qed.

(** The entries of the grouped list, for a snapshot whose judge and team
    cells are texts and whose criterion ids are columns of their own: one
    per team id of the snapshot, counting the team's records. *)
Lemma grouped_counts (ids : list string) (all : list dict) pre :
  "team_id" ∉ ids -> "judge" ∉ ids ->
  Forall (fun k => has_column all k = true) ids ->
  (forall d, d ∈ all ->
     exists j t, cell d "judge" = VStr j /\ cell d "team_id" = VStr t) ->
  grouped to_numeric ids all = Ok pre ->
  Forall (fun e => exists t,
            team_id e = VStr t /\
            num_judges e
            = length (filter (fun d => Is_true (py_eq (cell d "team_id") (VStr t))) all)) pre /\
  (forall d t, d ∈ all -> cell d "team_id" = VStr t ->
     exists e, e ∈ pre /\ team_id e = VStr t).
Proof.
  intros Hteam Hjudge Hids Htext. unfold grouped.
  destruct all as [|d0 all'].
  { simpl. intros H. injection H as <-. split; [constructor|].
    intros d t Hd. inversion Hd. }
  set (all := d0 :: all') in *.
  assert (forallb (fun r : dict => bool_decide (r = ∅)) all = false) as ->.
  { simpl. destruct (Htext d0) as (j & t & Hj & _); [constructor|].
    rewrite bool_decide_eq_false_2; [reflexivity|].
    intros ->. unfold cell in Hj. rewrite lookup_empty in Hj. discriminate. }
  cbv zeta.
  set (df := fold_left (convert_column to_numeric) ids all).
  assert (df = map (convert_row to_numeric ids) all) as Hdf
    by (apply convert_all, Hids).
  unfold add_total_raw.
  assert (filter (fun cid => has_column df cid = false) ids = []) as ->.
  { apply length_zero_iff_nil, length_filter_none.
    eapply Forall_impl; [exact Hids|]. intros k Hk. cbv beta in Hk |- *.
    unfold df. rewrite has_column_convert_all, Hk. discriminate. }
  cbn [result_bind].
  set (scored_df := map (fun r => {| cells := r; total_raw := _ |}) df).
  assert (map cells scored_df = df) as Hcells
    by (unfold scored_df; rewrite map_map; apply map_id).
  assert (forall k, k ∉ ids ->
            map (fun r => cell (cells r) k) scored_df = map (fun d => cell d k) all) as Hkeep.
  { intros k Hk. rewrite <- (map_map cells (fun d => cell d k)), Hcells, Hdf, map_map.
    apply map_ext. intros d. rewrite cell_convert_row.
    destruct (decide (k ∈ ids)); [contradiction | reflexivity]. }
  destruct (judge_frames scored_df) as [frames|e] eqn:Hframes; cbn [result_bind];
    [|discriminate].
  assert (Permutation (map scored (concat frames)) scored_df) as Hperm.
  { apply (judge_frames_perm _ _ Hframes). intros r Hr.
    assert (cell (cells r) "judge" ∈ map (fun d => cell d "judge") all) as Hin.
    { rewrite <- (Hkeep "judge" Hjudge).
      apply list_elem_of_In, (in_map (fun r => cell (cells r) "judge")), list_elem_of_In, Hr. }
    apply list_elem_of_In, in_map_iff in Hin as (d & Hd & Hdin).
    destruct (Htext d) as (j & _ & Hj & _); [apply list_elem_of_In, Hdin|].
    exists j. congruence. }
  set (result_df := add_normalized (concat frames)).
  assert (map (fun r => cell (row_cells r) "team_id") result_df
          ≡ₚ map (fun d => cell d "team_id") all) as Hteams.
  { rewrite <- (Hkeep "team_id" Hteam). rewrite <- Hperm.
    unfold result_df, add_normalized. rewrite !map_map. reflexivity. }
  assert (forall tid,
            length (filter (fun r => Is_true (py_eq (cell (row_cells r) "team_id") tid))
                      result_df)
            = length (filter (fun d => Is_true (py_eq (cell d "team_id") tid)) all)) as Hcount.
  { intros tid.
    transitivity
      (length (filter (fun v => Is_true (py_eq v tid))
                 (map (fun r => cell (row_cells r) "team_id") result_df)));
      [symmetry;
       apply (length_filter_map (fun r => cell (row_cells r) "team_id")
                (fun v => py_eq v tid))|].
    rewrite Hteams.
    apply (length_filter_map (fun d : dict => cell d "team_id") (fun v => py_eq v tid)). }
  intros Hpre.
  assert (team_results df result_df = Ok pre) as Hres.
  { destruct frames as [|frame frames']; [|exact Hpre].
    simpl in Hperm. apply Permutation_nil_l in Hperm.
    unfold scored_df in Hperm. rewrite Hdf in Hperm. discriminate Hperm. }
  apply team_results_inv in Hres.
  split.
  - apply Forall_forall. intros e He.
    apply list_elem_of_lookup in He as [i Hi].
    destruct (Forall2_lookup_r _ _ _ _ _ Hres Hi) as (tid & Htid & Hagg).
    apply team_aggregate_inv in Hagg as [Hid Hn].
    apply list_elem_of_lookup_2, unique_from_sub in Htid.
    rewrite Hteams in Htid.
    apply list_elem_of_In, in_map_iff in Htid as (d & Hd & Hdin).
    destruct (Htext d) as (_ & t & _ & Ht); [apply list_elem_of_In, Hdin|].
    cbv beta in Hd. assert (tid = VStr t) as -> by congruence.
    exists t. split; [exact Hid|]. rewrite Hn, Hcount. reflexivity.
  - intros d t Hd Ht.
    assert (VStr t ∈ unique (map (fun r => cell (row_cells r) "team_id") result_df)) as Hin.
    { apply unique_text. rewrite Hteams, <- Ht.
      apply list_elem_of_In, (in_map (fun d => cell d "team_id")), list_elem_of_In, Hd. }
    apply list_elem_of_lookup in Hin as [i Hi].
    destruct (Forall2_lookup_l _ _ _ _ _ Hres Hi) as (e & He & Hagg).
    apply team_aggregate_inv in Hagg as [Hid _].
    exists e. split; [eapply list_elem_of_lookup_2, He | exact Hid].
Qed.

End Groups.

(** * The ranking of a ledger *)

Section RankingOfLedger.

Variable to_numeric : string -> float.

Lemma team_count_records criteria (data : list row) t :
  ids_ok (map crit_id criteria) ->
  length (filter (fun d => Is_true (py_eq (cell d "team_id") (VStr t)))
            (map (dict_of_row (headers criteria)) data))
  = team_count t data.
Proof.
  intros Hok.
  rewrite (length_filter_map (dict_of_row (headers criteria))
             (fun d => py_eq (cell d "team_id") (VStr t))).
  unfold team_count. f_equal. apply list_filter_iff. intros r.
  unfold headers. rewrite (cell_team_id _ r Hok).
  destruct (r !! 2%nat) as [v|]; simpl.
  - rewrite bool_decide_spec. split; congruence.
  - split; [contradiction | discriminate].
Qed.

(** X8. After any sequence of submissions under unchanged criteria (whose
    ids are no fixed column names) the ranking [normalize_scores] returns
    has an entry for every team with a record in the ledger; the team id of
    every entry is a text, and its [num_judges] is the number of records the
    ledger holds for that team. *)
Theorem ranking_counts_records (criteria : list criterion) (f : fresh)
    (subs : list submission) :
  ids_ok (map crit_id criteria) ->
  fresh_with criteria f ->
  Forall (fun s => sub_criteria s = criteria) subs ->
  let st := run_submissions subs (fresh_store f) in
  exists out,
    normalize_scores to_numeric criteria st = (Ok out, st) /\
    Forall (fun e => exists t,
              team_id e = VStr t /\ num_judges e = team_count t (data_rows st)) out /\
    forall t, (0 < team_count t (data_rows st))%nat ->
      exists e, e ∈ out /\ team_id e = VStr t.
Proof.
  intros Hok Hf Hsubs st.
  assert (uniform criteria st) as Hst
    by (apply run_submissions_uniform; [apply fresh_uniform, Hf | exact Hsubs]).
  rewrite (normalize_scores_snapshot to_numeric criteria st Hst).
  destruct (uniform_snapshot criteria st Hst) as [_ Hrows].
  destruct (compute_uniform to_numeric criteria (data_rows st) Hrows) as [out Hout].
  set (data := data_rows st) in *.
  set (all := map (dict_of_row (headers criteria)) data) in *.
  assert (data <> [] ->
          Forall (fun e => exists t,
                    team_id e = VStr t /\ num_judges e = team_count t data) out /\
          forall t, (0 < team_count t data)%nat -> exists e, e ∈ out /\ team_id e = VStr t)
    as Hmain.
  { intros Hne. rewrite compute_sorts_grouped in Hout.
    destruct (grouped _ _ all) as [pre|e] eqn:Hpre; [|discriminate].
    simpl in Hout. injection Hout as <-.
    pose proof (sort_desc_perm pre) as Hperm.
    destruct (grouped_counts to_numeric (map crit_id criteria) all pre) as [Hall Hcov].
    - apply ids_ok_not_in; [exact Hok | repeat constructor].
    - apply ids_ok_not_in; [exact Hok | repeat constructor].
    - apply Forall_forall. intros k Hk.
      apply snapshot_columns; [exact Hne | exact Hrows | apply id_in_headers, Hk].
    - intros d Hd. pose proof (snapshot_texts criteria data Hrows) as Htexts.
      rewrite Forall_forall in Htexts. specialize (Htexts d Hd).
      destruct (Htexts "judge") as [j Hj]; [apply fixed_in_headers; repeat constructor|].
      destruct (Htexts "team_id") as [t Ht]; [apply fixed_in_headers; repeat constructor|].
      exists j, t. unfold cell. rewrite Hj, Ht. split; reflexivity.
    - exact Hpre.
    - split.
      + rewrite <- Hperm. eapply Forall_impl; [exact Hall|].
        intros e (t & Hid & Hn). exists t. split; [exact Hid|].
        rewrite Hn. apply team_count_records, Hok.
      + intros t Ht. unfold team_count in Ht.
        destruct (filter _ data) as [|r rest] eqn:Hfil; [simpl in Ht; lia|].
        assert (r ∈ filter (fun r => r !! 2%nat = Some t) data) as Hr
          by (rewrite Hfil; constructor).
        apply list_elem_of_filter in Hr as [Hr2 Hr].
        destruct (Hcov (dict_of_row (headers criteria) r) t) as (e & He & Hid).
        * apply list_elem_of_In, in_map, list_elem_of_In, Hr.
        * unfold headers. rewrite (cell_team_id _ r Hok), Hr2. reflexivity.
        * exists e. split; [rewrite <- Hperm; exact He | exact Hid]. }
  destruct data as [|r0 data'] eqn:Hdata.
  - exists []. split; [reflexivity|]. split; [constructor|].
    intros t Ht. unfold team_count in Ht. simpl in Ht. lia.
  - exists out. split; [rewrite Hout; reflexivity|]. apply Hmain. discriminate.
Qed.

End RankingOfLedger.

(** * The views *)

Section ViewLaws.

Variable to_numeric : string -> float.
Variable int : string -> option Z.
Variable strip : string -> string.
Variable cfg : config.
Variable now : string.

Implicit Types (w : web) (req : request) (c : criterion).

Lemma in_session_Some key w v : session w !! key = Some v -> in_session key w = true.
Proof. intros H. unfold in_session. rewrite H. apply bool_decide_eq_true_2. eauto. Qed.

Lemma in_session_None key w : session w !! key = None -> in_session key w = false.
Proof.
  intros H. unfold in_session. rewrite H. apply bool_decide_eq_false_2.
  intros [v Hv]. discriminate.
Qed.

Lemma clamp_range n max_score :
  (0 <= clamp n max_score)%Z /\ (0 <= max_score -> clamp n max_score <= max_score)%Z.
Proof. unfold clamp. lia. Qed.

Lemma score_value_range fields c :
  (0 <= score_value int fields c)%Z /\
  (0 <= crit_max_score c -> score_value int fields c <= crit_max_score c)%Z.
Proof.
  unfold score_value. destruct (fields !! crit_id c) as [text|]; [|apply clamp_range].
  destruct (int text) as [n|]; [apply clamp_range | lia].
Qed.

Lemma form_scores_lookup fields (criteria : list criterion) c :
  NoDup (map crit_id criteria) -> c ∈ criteria ->
  form_scores int fields criteria !! crit_id c = Some (score_value int fields c).
Proof.
  unfold form_scores. induction criteria as [|c' criteria IH] using rev_ind;
    intros Hnd Hc; [inversion Hc|].
  rewrite foldl_app. simpl. rewrite map_app in Hnd. simpl in Hnd.
  apply NoDup_app in Hnd as (Hnd & Hfresh & _).
  apply elem_of_app in Hc as [Hc|Hc].
  - rewrite lookup_insert_ne; [apply IH; assumption|].
    intros Heq. apply (Hfresh (crit_id c)).
    + apply list_elem_of_In, in_map, list_elem_of_In, Hc.
    + rewrite Heq. constructor.
  - apply list_elem_of_singleton in Hc as ->. apply lookup_insert_eq.
Qed.

Lemma find_team (teams : list team) tid T :
  find (fun t => bool_decide (tm_id t = tid)) teams = Some T -> T ∈ teams /\ tm_id T = tid.
Proof.
  intros H. apply find_some in H as [Hin Hid].
  split; [apply list_elem_of_In, Hin | apply bool_decide_eq_true in Hid; exact Hid].
Qed.

Lemma find_no_team (teams : list team) tid :
  (forall T, T ∈ teams -> tm_id T <> tid) ->
  find (fun t => bool_decide (tm_id t = tid)) teams = None.
Proof.
  intros H. destruct (find _ teams) as [T|] eqn:Hf; [|reflexivity].
  apply find_team in Hf as [Hin Hid]. destruct (H T Hin Hid).
Qed.

Lemma on_ledger_get_team_score J tid w :
  snd (on_ledger (get_team_score_by_judge J tid) w) = w.
Proof.
  unfold on_ledger. rewrite get_team_score_by_judge_eq. destruct w; reflexivity.
Qed.


(** X10. [score_team] writes nothing unless a judge is logged in, the
    team is configured and the request is a POST: in every other case the
    ledger is left as it was. *)
Theorem score_team_writes_only_for_judges (req : request) (tid : string) (w : web) :
  session w !! "judge" = None \/ method req <> "POST" \/
    (forall T, T ∈ cfg_teams cfg -> tm_id T <> tid) ->
  ledger (snd (score_team int cfg now req tid w)) = ledger w.
Proof.
  intros Hcase. unfold score_team, login_required.
  destruct (negb (in_session "judge" w) && negb (in_session "admin" w)); [reflexivity|].
  unfold wbind at 1. unfold session_get.
  destruct (session w !! "judge") as [J|] eqn:HJ; [|reflexivity].
  unfold get_teams, get_criteria.
  destruct (find _ (cfg_teams cfg)) as [T|] eqn:HT; [|reflexivity].
  destruct (bool_decide (method req = "POST")) eqn:Hpost.
  - apply bool_decide_eq_true in Hpost. apply find_team in HT as [Hin Hid].
    destruct Hcase as [Hno|[Hget|Hteam]];
      [discriminate | contradiction | destruct (Hteam T Hin Hid)].
  - unfold wbind. pose proof (on_ledger_get_team_score J tid w) as Hsame.
    destruct (on_ledger (get_team_score_by_judge J tid) w) as [[found|e] w'];
      simpl in Hsame; subst w'; reflexivity.
Qed.

(** X11. With an admin but no judge in the session, [login_required] lets
    the request through and both [dashboard] and [score_team] raise
    [KeyError] on [session['judge']]; nothing is written or flashed. *)
Theorem admin_only_session_raises (a : string) (w : web) :
  session w !! "judge" = None ->
  session w !! "admin" = Some a ->
  dashboard cfg w = (Raise (KeyError ["judge"]), w) /\
  forall req tid, score_team int cfg now req tid w = (Raise (KeyError ["judge"]), w).
Proof.
  intros HJ HA. split; [|intros req tid];
    [unfold dashboard | unfold score_team]; unfold login_required;
    rewrite (in_session_Some _ _ _ HA), andb_false_r;
    unfold wbind at 1; unfold session_get; rewrite HJ; reflexivity.
Qed.

(** X12. [logout] redirects to the login page and leaves the ledger
    alone; afterwards [index] and every view behind [login_required] or
    [admin_required] redirect to the login page without running, whatever
    the session held before. *)
Theorem logout_closes_protected_views (f : W response) (w : web) :
  fst (logout w) = Ok (Redirect "login") /\
  ledger (snd (logout w)) = ledger w /\
  index (snd (logout w)) = (Ok (Redirect "login"), snd (logout w)) /\
  login_required f (snd (logout w)) = (Ok (Redirect "login"), snd (logout w)) /\
  fst (admin_required f (snd (logout w))) = Ok (Redirect "login").
Proof.
  assert (in_session "judge" (snd (logout w)) = false) as HJ.
  { apply in_session_None. simpl. rewrite lookup_delete_ne by discriminate.
    apply lookup_delete_eq. }
  assert (in_session "admin" (snd (logout w)) = false) as HA
    by (apply in_session_None; simpl; apply lookup_delete_eq).
  repeat split.
  - unfold index. rewrite HA, HJ. reflexivity.
  - unfold login_required. rewrite HA, HJ. reflexivity.
  - unfold admin_required. rewrite HA. reflexivity.
Qed.


(** X14. For a logged-in admin, on a ledger written under the criteria of
    the configuration, [results] and [api_normalized] return the ranking
    [normalize_scores] computes ([results] together with the sum of the
    maximal scores); neither raises and neither changes anything. *)
Theorem admin_views_return_ranking (a : string) (f : fresh) (subs : list submission)
    (w : web) :
  session w !! "admin" = Some a ->
  fresh_with (cfg_criteria cfg) f ->
  Forall (fun s => sub_criteria s = cfg_criteria cfg) subs ->
  ledger w = run_submissions subs (fresh_store f) ->
  exists out,
    normalize_scores to_numeric (cfg_criteria cfg) (ledger w) = (Ok out, ledger w) /\
    results to_numeric cfg w
    = (Ok (Render_results a out (max_possible (cfg_criteria cfg))), w) /\
    api_normalized to_numeric cfg w = (Ok (Json_normalized out), w).
Proof.
  intros HA Hf Hsubs Hw.
  assert (uniform (cfg_criteria cfg) (ledger w)) as Hst
    by (rewrite Hw; apply run_submissions_uniform; [apply fresh_uniform, Hf | exact Hsubs]).
  pose proof (normalize_scores_snapshot to_numeric _ _ Hst) as Hnorm.
  destruct (uniform_snapshot _ _ Hst) as [_ Hrows].
  destruct (compute_uniform to_numeric _ _ Hrows) as [out Hout].
  assert (exists out, normalize_scores to_numeric (cfg_criteria cfg) (ledger w)
                      = (Ok out, ledger w)) as [res Hres].
  { rewrite Hnorm. destruct (data_rows (ledger w)); [eauto|]. rewrite Hout. eauto. }
  exists res. split; [exact Hres|].
  split.
  - unfold results, admin_required. rewrite (in_session_Some _ _ _ HA). simpl.
    unfold wbind at 1. unfold session_get. rewrite HA.
    unfold wbind, on_ledger, get_criteria. rewrite Hres. destruct w; reflexivity.
  - unfold api_normalized, admin_required. rewrite (in_session_Some _ _ _ HA). simpl.
    unfold wbind, on_ledger, get_criteria. rewrite Hres. destruct w; reflexivity.
Qed.

End ViewLaws.

(** * The dashboard *)

Section Dashboard.

Variable cfg : config.

Implicit Types (w : web) (r : row) (J t : string) (ids : list string).

Lemma lookup_team_id ids r :
  ids_ok ids ->
  dict_of_row (fixed_columns ++ ids) r !! Some "team_id" = Some (cell_of (r !! 2%nat)).
Proof.
  intros Hok.
  change (fixed_columns ++ ids)
    with (["timestamp"; "judge"] ++ "team_id" :: ["team_name"] ++ ids).
  rewrite dict_of_row_lookup; [reflexivity|].
  intros Hin. apply elem_of_app in Hin as [Hin|Hin].
  - repeat (apply elem_of_cons in Hin as [Hin|Hin]; [discriminate Hin|]). inversion Hin.
  - revert Hin. apply ids_ok_not_in; [exact Hok | repeat constructor].
Qed.

Lemma row_matches_iff J t r :
  row_matches J t r = true <-> r !! 1%nat = Some J /\ r !! 2%nat = Some t.
Proof.
  destruct r as [|c0 [|c1 [|c2 r]]]; simpl;
    try (split; [discriminate | intros [? ?]; discriminate]).
  rewrite andb_true_iff, !bool_decide_eq_true. split; intros [? ?]; split; congruence.
Qed.

Lemma judge_rows ids J (data : list row) :
  ids_ok ids ->
  filter (fun d => Is_true (py_eq (cell d "judge") (VStr J)))
    (map (dict_of_row (fixed_columns ++ ids)) data)
  = map (dict_of_row (fixed_columns ++ ids)) (filter (fun r => r !! 1%nat = Some J) data).
Proof.
  intros Hok. induction data as [|r data IH]; [reflexivity|].
  rewrite map_cons, !filter_cons, IH, (cell_judge ids r Hok).
  destruct (r !! 1%nat) as [v|]; simpl.
  - destruct (decide (Is_true (bool_decide (v = J)))) as [H|H],
      (decide (Some v = Some J)) as [H'|H']; try reflexivity; exfalso.
    + apply Is_true_true, bool_decide_eq_true in H. congruence.
    + apply H, Is_true_true, bool_decide_eq_true. congruence.
  - destruct (decide (Is_true false)) as [[]|_], (decide (None = Some J)) as [H'|_];
      [discriminate | reflexivity].
Qed.

Lemma result_mapM_map {A B} (f : A -> result B) (g : A -> B) (l : list A) :
  Forall (fun x => f x = Ok (g x)) l -> result_mapM f l = Ok (map g l).
Proof.
  induction 1 as [|x l Hx _ IH]; [reflexivity|]. simpl. rewrite Hx, IH. reflexivity.
Qed.

(** A team is among the ids of the judge's records exactly when the ledger
    holds a record of the pair. *)
Lemma scored_flag J t (data : list row) :
  existsb (fun v => py_eq v (VStr t))
    (map (fun r => cell_of (r !! 2%nat)) (filter (fun r => r !! 1%nat = Some J) data))
  = negb (key_count J t data =? 0)%nat.
Proof.
  apply eq_true_iff_eq. rewrite existsb_exists, negb_true_iff, Nat.eqb_neq.
  unfold key_count. split.
  - intros (v & Hin & Hv). apply in_map_iff in Hin as (r & <- & Hr).
    apply list_elem_of_In, list_elem_of_filter in Hr as [HJ Hr].
    intros Hlen. apply length_zero_iff_nil in Hlen.
    assert (r ∈ filter (fun r => Is_true (row_matches J t r)) data) as Hmem.
    { apply list_elem_of_filter. split; [|exact Hr].
      apply Is_true_true, row_matches_iff. split; [exact HJ|].
      destruct (r !! 2%nat) as [v|]; [|discriminate].
      simpl in Hv. apply bool_decide_eq_true in Hv. congruence. }
    rewrite Hlen in Hmem. inversion Hmem.
  - intros Hne. destruct (filter _ data) as [|r rest] eqn:Hfil; [destruct Hne; reflexivity|].
    assert (r ∈ filter (fun r => Is_true (row_matches J t r)) data) as Hmem
      by (rewrite Hfil; constructor).
    apply list_elem_of_filter in Hmem as [Hm Hr].
    apply Is_true_true, row_matches_iff in Hm as [HJ Ht].
    exists (VStr t). split.
    + apply in_map_iff. exists r. rewrite Ht. split; [reflexivity|].
      apply list_elem_of_In, list_elem_of_filter. split; assumption.
    + simpl. apply bool_decide_eq_true. reflexivity.
Qed.

(** With one record per pair and whole rows, the team ids of a judge's
    records are all different. *)
Lemma unique_team_ids J (data : list row) seen :
  Forall (fun r => (3 <= length r)%nat) data ->
  (forall t, (key_count J t data <= 1)%nat) ->
  Forall (fun r => r !! 1%nat = Some J ->
            existsb (same_key (cell_of (r !! 2%nat))) seen = false) data ->
  unique_from seen
    (map (fun r => cell_of (r !! 2%nat)) (filter (fun r => r !! 1%nat = Some J) data))
  = map (fun r => cell_of (r !! 2%nat)) (filter (fun r => r !! 1%nat = Some J) data).
Proof.
  revert seen. induction data as [|r data IH]; intros seen Hlen Hone Hseen; [reflexivity|].
  inversion Hlen as [|? ? Hr Hlen']; subst.
  inversion Hseen as [|? ? Hr_seen Hseen']; subst.
  rewrite filter_cons.
  assert (forall t, key_count J t data <= key_count J t (r :: data))%nat as Hmono.
  { intros t. unfold key_count. rewrite filter_cons.
    destruct (decide _); simpl; lia. }
  destruct (decide (r !! 1%nat = Some J)) as [HJ|HJ].
  - rewrite map_cons. simpl unique_from. rewrite (Hr_seen HJ). f_equal.
    destruct (r !! 2%nat) as [t|] eqn:Ht.
    2:{ apply lookup_ge_None in Ht. lia. }
    apply IH; [exact Hlen' | intros t'; specialize (Hone t'); specialize (Hmono t'); lia |].
    assert (key_count J t data = 0)%nat as Hzero.
    { specialize (Hone t). unfold key_count in *. rewrite filter_cons in Hone.
      destruct (decide (Is_true (row_matches J t r))) as [_|Hno]; [simpl in Hone; lia|].
      destruct Hno. apply Is_true_true, row_matches_iff. split; assumption. }
    rewrite Forall_forall in Hseen'. apply Forall_forall. intros r' Hr' HJ'.
    simpl. rewrite (Hseen' r' Hr' HJ'), orb_false_r.
    destruct (r' !! 2%nat) as [t'|] eqn:Ht'; [|reflexivity].
    simpl. apply bool_decide_eq_false_2. intros ->.
    unfold key_count in Hzero. apply length_zero_iff_nil in Hzero.
    assert (r' ∈ filter (fun r => Is_true (row_matches J t r)) data) as Hmem.
    { apply list_elem_of_filter. split; [|exact Hr'].
      apply Is_true_true, row_matches_iff. split; assumption. }
    rewrite Hzero in Hmem. inversion Hmem.
  - apply IH; [exact Hlen' | intros t'; specialize (Hone t'); specialize (Hmono t'); lia |].
    exact Hseen'.
Qed.

(** X15. For a logged-in judge, on a ledger written under the criteria of
    the configuration, [dashboard] lists the configured teams in their
    order, marks a team as scored exactly when the ledger holds a record of
    the judge for it, and reports as [scored_count] the number of the
    judge's records and as [total_count] the number of teams. *)
Theorem dashboard_marks_scored_teams (f : fresh) (subs : list submission) (J : string)
    (w : web) :
  ids_ok (map crit_id (cfg_criteria cfg)) ->
  fresh_with (cfg_criteria cfg) f ->
  Forall (fun s => sub_criteria s = cfg_criteria cfg) subs ->
  ledger w = run_submissions subs (fresh_store f) ->
  session w !! "judge" = Some J ->
  dashboard cfg w
  = (Ok (Render_dashboard J
           (map (fun tm => (tm, negb (key_count J (tm_id tm) (data_rows (ledger w)) =? 0)%nat))
              (cfg_teams cfg))
           (judge_count J (data_rows (ledger w)))
           (length (cfg_teams cfg))), w).
Proof.
  intros Hok Hf Hsubs Hw HJ.
  assert (uniform (cfg_criteria cfg) (ledger w)) as Hst
    by (rewrite Hw; apply run_submissions_uniform; [apply fresh_uniform, Hf | exact Hsubs]).
  assert (one_per_pair (ledger w)) as Hone
    by (rewrite Hw; apply run_submissions_one_per_pair, fresh_one_per_pair).
  destruct (uniform_snapshot _ _ Hst) as [Hall Hrows].
  set (data := data_rows (ledger w)) in *.
  set (rowsJ := filter (fun r => r !! 1%nat = Some J) data).
  unfold dashboard, login_required. rewrite (in_session_Some _ _ _ HJ). simpl.
  unfold wbind at 1. unfold session_get. rewrite HJ.
  unfold wbind at 1. unfold on_ledger. rewrite get_judge_scores_eq, Hall.
  unfold headers. rewrite (judge_rows _ J data Hok). fold rowsJ.
  unfold wbind, wlift.
  rewrite (result_mapM_map _ (fun d => cell d "team_id")).
  2:{ apply Forall_forall. intros d Hd.
      apply list_elem_of_In, in_map_iff in Hd as (r & <- & _).
      unfold item, cell. rewrite (lookup_team_id _ r Hok). reflexivity. }
  rewrite map_map.
  erewrite (map_ext (fun r => cell (dict_of_row _ r) "team_id")
              (fun r => cell_of (r !! 2%nat)));
    [|intros r; unfold cell; rewrite (lookup_team_id _ r Hok); reflexivity].
  unfold wret. destruct w as [sess fl st]. simpl. f_equal. f_equal. f_equal.
  - apply map_ext. intros tm. f_equal. apply scored_flag.
  - unfold unique, rowsJ. rewrite (unique_team_ids J data []).
    + rewrite length_map. reflexivity.
    + eapply Forall_impl; [exact Hrows|]. intros r Hr. cbv beta in Hr |- *.
      rewrite Hr. unfold headers. rewrite length_app. simpl. lia.
    + intros t. apply Hone.
    + apply Forall_forall. intros r _ _. reflexivity.
Qed.

End Dashboard.

(** * Worked instances *)

Ltac decide_it := apply (bool_decide_unpack _); vm_compute; exact I.

Lemma demo_ids_ok : ids_ok (map crit_id demo_criteria).
Proof. unfold ids_ok. decide_it. Qed.

Lemma demo_subs_ids_ok :
  Forall (fun s => ids_ok (map crit_id (sub_criteria s))) demo_submissions.
Proof. repeat (constructor; [exact demo_ids_ok|]). constructor. Qed.

Lemma demo_subs_criteria :
  Forall (fun s => sub_criteria s = demo_criteria) demo_submissions.
Proof. repeat constructor. Qed.

Lemma get_all_scores_one_record_per_pair_demo :
  exists records,
    get_all_scores demo_ledger = (Ok records, demo_ledger) /\
    length (filter (fun d => Is_true (rec_matches "alice" "t1" d)) records)
      = key_count "alice" "t1" (data_rows demo_ledger) /\
    (length (filter (fun d => Is_true (rec_matches "alice" "t1" d)) records) <= 1)%nat.
Proof.
  apply (get_all_scores_one_record_per_pair (Initialised demo_criteria) demo_submissions
           "alice" "t1"); [exact demo_ids_ok | exact demo_subs_ids_ok].
Defined.

Lemma save_scores_then_lookup_demo :
  let s := demo_submission "bob" "t2" "Beta" 7 2 in
  let st' := snd (submit s demo_ledger) in
  let d := dict_of_row (headers demo_criteria) (submitted_row s) in
  get_team_score_by_judge "bob" "t2" st' = (Ok (Some d), st') /\
  cell d "timestamp" = VStr "2025-01-01T10:00:00" /\
  cell d "judge" = VStr "bob" /\
  cell d "team_id" = VStr "t2" /\
  cell d "team_name" = VStr "Beta" /\
  forall cr, cr ∈ demo_criteria ->
    cell d (crit_id cr) = VStr (str (default 0%Z (sub_scores s !! crit_id cr))).
Proof.
  apply (save_scores_then_lookup demo_ledger (demo_submission "bob" "t2" "Beta" 7 2));
    [reflexivity | exact demo_ids_ok].
Defined.

Lemma get_judge_scores_other_judge_demo :
  fst (get_judge_scores "alice"
         (snd (submit (demo_submission "bob" "t2" "Beta" 7 2) demo_ledger)))
  = fst (get_judge_scores "alice" demo_ledger).
Proof.
  apply (get_judge_scores_other_judge demo_ledger (demo_submission "bob" "t2" "Beta" 7 2)
           "alice").
  - exists (map crit_id demo_criteria). split; [reflexivity | exact demo_ids_ok].
  - exact demo_ids_ok.
  - discriminate.
Defined.

Lemma get_team_score_by_judge_reflects_rows_demo :
  exists found,
    get_team_score_by_judge "bob" "t2" demo_ledger = (Ok found, demo_ledger) /\
    (found = None <-> key_count "bob" "t2" (data_rows demo_ledger) = 0%nat) /\
    forall d, found = Some d -> cell d "judge" = VStr "bob" /\ cell d "team_id" = VStr "t2".
Proof.
  apply (get_team_score_by_judge_reflects_rows demo_ledger "bob" "t2").
  exists (map crit_id demo_criteria). split; [reflexivity | exact demo_ids_ok].
Defined.

Lemma normalize_scores_returns_demo :
  exists out, normalize_scores to_numeric_int demo_criteria demo_ledger = (Ok out, demo_ledger).
Proof.
  apply (normalize_scores_returns to_numeric_int demo_criteria (Initialised demo_criteria)
           demo_submissions); [reflexivity | exact demo_subs_criteria].
Defined.

Lemma ranking_counts_records_demo :
  exists out,
    normalize_scores to_numeric_int demo_criteria demo_ledger = (Ok out, demo_ledger) /\
    Forall (fun e => exists t,
              team_id e = VStr t /\ num_judges e = team_count t (data_rows demo_ledger)) out /\
    forall t, (0 < team_count t (data_rows demo_ledger))%nat ->
      exists e, e ∈ out /\ team_id e = VStr t.
Proof.
  apply (ranking_counts_records to_numeric_int demo_criteria (Initialised demo_criteria)
           demo_submissions); [exact demo_ids_ok | reflexivity | exact demo_subs_criteria].
Defined.


Lemma score_team_writes_only_for_judges_demo :
  ledger (snd (score_team int_decimal demo_config "2025-01-01T11:00:00" demo_post "t9"
                 (demo_web {["judge" := "bob"]})))
  = demo_ledger.
Proof.
  apply (score_team_writes_only_for_judges int_decimal demo_config "2025-01-01T11:00:00"
           demo_post "t9" (demo_web {["judge" := "bob"]})).
  right. right. intros T HT.
  repeat (apply elem_of_cons in HT as [->|HT]; [discriminate|]). inversion HT.
Defined.

Lemma admin_only_session_raises_demo :
  let w := demo_web {["admin" := "root"]} in
  dashboard demo_config w = (Raise (KeyError ["judge"]), w) /\
  forall req tid,
    score_team int_decimal demo_config "2025-01-01T11:00:00" req tid w
    = (Raise (KeyError ["judge"]), w).
Proof.
  apply (admin_only_session_raises int_decimal demo_config "2025-01-01T11:00:00" "root"
           (demo_web {["admin" := "root"]})); reflexivity.
Defined.


Lemma admin_views_return_ranking_demo :
  let w := demo_web {["admin" := "root"]} in
  exists out,
    normalize_scores to_numeric_int demo_criteria (ledger w) = (Ok out, ledger w) /\
    results to_numeric_int demo_config w
    = (Ok (Render_results "root" out (max_possible demo_criteria)), w) /\
    api_normalized to_numeric_int demo_config w = (Ok (Json_normalized out), w).
Proof.
  apply (admin_views_return_ranking to_numeric_int demo_config "root"
           (Initialised demo_criteria) demo_submissions (demo_web {["admin" := "root"]}));
    [reflexivity | reflexivity | exact demo_subs_criteria | reflexivity].
Defined.

Lemma dashboard_marks_scored_teams_demo :
  let w := demo_web {["judge" := "bob"]} in
  dashboard demo_config w
  = (Ok (Render_dashboard "bob"
           (map (fun tm => (tm, negb (key_count "bob" (tm_id tm) (data_rows demo_ledger)
                                      =? 0)%nat))
              (cfg_teams demo_config))
           (judge_count "bob" (data_rows demo_ledger))
           (length (cfg_teams demo_config))), w).
Proof.
  apply (dashboard_marks_scored_teams demo_config (Initialised demo_criteria)
           demo_submissions "bob" (demo_web {["judge" := "bob"]}));
    [exact demo_ids_ok | reflexivity | exact demo_subs_criteria | reflexivity | reflexivity].
Defined.

Lemma save_scores_keeps_stale_header_demo :
  let s := demo_submission "bob" "t2" "Beta" 7 2 in
  let st' := snd (submit s (Some [fixed_columns ++ ["innovation"]])) in
  exists data' d,
    st' = Some ((fixed_columns ++ ["innovation"]) :: data') /\
    get_team_score_by_judge "bob" "t2" st' = (Ok (Some d), st') /\
    d !! None
    = Some (VList (drop (length (fixed_columns ++ ["innovation"])) (submitted_row s))) /\
    forall cr, cr ∈ demo_criteria -> crit_id cr ∉ ["innovation"] ->
      d !! Some (crit_id cr) = None.
Proof.
  apply (save_scores_keeps_stale_header ["innovation"] []
           (demo_submission "bob" "t2" "Beta" 7 2)).
  - unfold ids_ok. decide_it.
  - exact demo_ids_ok.
  - simpl. lia.
Defined.
